(** * CrawlVaani backend: the crawl orchestration engine

    A shallow embedding of the crawl engine of the CrawlVaani backend and
    the properties its specification states about it.  Two revisions of
    the engine are part of the repository:

    - [src/crawler.js]: one browser per page, Lighthouse for the main page,
      an axios fallback in the [catch] of [crawlPage], a batch loop in
      [runCrawl];
    - [src/unnamed/part_000]: [normalizeUrl], [getSitemapUrls], a shared
      browser, no fallback, an [async.queue] worker in [runCrawl].

    The module-level arrays, the [visited] set and the [contentHashes] map
    are shared by every call; they are modelled as one [Session] record
    that is threaded through the synchronous segments of [crawlPage].
    JavaScript runs each segment between two [await]s without
    interruption, so the interleavings of concurrent [crawlPage] calls are
    the sequences of such segments.

    Besides the engine, the development covers the helpers of the crawl
    ([autoFitColumns], [capitalizeHeaders], [extractMetaTags],
    [runLighthouseAnalysis], [analyzeKeywords], the heading check and the
    word count), the server that is stored after the build script in
    [src/render-build.sh] (the rate limiter, the CORS filter,
    [callOpenRouterAI], the list of reports) and the readers of the
    reports in [src/utils/reportConsolidator.js]. *)

From Stdlib Require Import ZArith QArith Qround Lia Lqa Ascii.
From stdpp Require Import base gmap sets list strings.
From stdpp Require Import sorting pretty.

Local Open Scope Z_scope.

(** ** JavaScript strings *)

Module Js.

(** [s.startsWith(p)] *)
Definition startsWith (s p : string) : bool := String.prefix p s.

(** [s.split("#")[0]]: the part of [s] before the first [#]. *)
Fixpoint beforeHash (s : string) : string :=
  match s with
  | EmptyString => EmptyString
  | String c r =>
      if Ascii.eqb c "#"%char then EmptyString else String c (beforeHash r)
  end.

(** White space removed by [trim()], restricted to the ASCII range:
    TAB, LF, VT, FF, CR and SPACE. *)
Definition isWhite (c : ascii) : bool :=
  let n := Ascii.N_of_ascii c in
  ((9 <=? n) && (n <=? 13))%N || (n =? 32)%N.

Fixpoint trimStart (s : string) : string :=
  match s with
  | EmptyString => EmptyString
  | String c r => if isWhite c then trimStart r else s
  end.

Fixpoint trimEnd (s : string) : string :=
  match s with
  | EmptyString => EmptyString
  | String c r =>
      match trimEnd r with
      | EmptyString => if isWhite c then EmptyString else String c EmptyString
      | r' => String c r'
      end
  end.

(** [s.trim()] *)
Definition trim (s : string) : string := trimEnd (trimStart s).


(** [!s] for a string [s]: only the empty string is falsy. *)
Definition isEmpty (s : string) : bool :=
  match s with EmptyString => true | _ => false end.


End Js.

(** A value that is a number or a string, as in the [status] field of the
    link records ([200], [response.status], [err.message], [err.code]). *)
Inductive JsValue :=
| Num (n : Z)
| Str (s : string).

#[global] Instance JsValue_eq_dec : EqDecision JsValue.
Proof. solve_decision. Defined.

(** An error caught by a [catch]: [err.response?.status], [err.code] and
    [err.message]. *)
Record JsError := {
  err_responseStatus : option Z;
  err_code : option string;
  err_message : string
}.

(** [err.response?.status || err.code || fallback]: the first truthy
    operand; [undefined], [0] and the empty string are falsy. *)
Definition statusOrCode (err : JsError) (fallback : JsValue) : JsValue :=
  match err_responseStatus err with
  | Some n => if n =? 0 then
                match err_code err with
                | Some c => if Js.isEmpty c then fallback else Str c
                | None => fallback
                end
              else Num n
  | None =>
      match err_code err with
      | Some c => if Js.isEmpty c then fallback else Str c
      | None => fallback
      end
  end.

(** ** The platform's [URL] class

    [new URL(u).href] and [new URL(u, base).href] are provided by the
    JavaScript runtime; [None] stands for the [TypeError] the constructor
    throws on an input it cannot parse. *)
Class UrlApi := {
  URL_href : string -> option string;
  URL_resolve : string -> string -> option string
}.

(** ** Report records *)

(** An object built from what the DOM queries of the page return (SEO
    fields, image attributes, keyword counts, ...): field names and values. *)
Definition Row : Type := list (string * JsValue).

(** [{ url, status }] of [workingLinks] and [brokenLinks]. *)
Record LinkRecord := {
  link_url : string;
  link_status : JsValue
}.

(** [{ url, duplicateOf, issue }] of [duplicateContentIssues]. *)
Record DuplicateRecord := {
  dup_url : string;
  dup_duplicateOf : string;
  dup_issue : string
}.

(** [{ from, to }] pushed by the link loop of [crawlPage], and the
    [linkData] of [extractLinks], which also has [text] and [isInternal]
    ([hasText] is [text.length > 0]). *)
Record ExternalRecord := {
  ext_from : string;
  ext_to : string;
  ext_linkData : option (string * bool)
}.

(** [{ url, resource, type, status }] of [brokenResources]. *)
Record ResourceRecord := {
  res_url : string;
  res_resource : string;
  res_type : string;
  res_status : JsValue
}.

(** [performanceMetrics] *)
Record PerformanceMetrics := {
  pm_startTime : Z;
  pagesCrawled : Z;
  errors : Z;
  averageResponseTime : Q;
  totalResponseTime : Z
}.

(** The module-level state of the crawler, in the order of its declarations
    ([requestCount] and the constant [startTime] are never read or written
    after their initialisation and are left out). *)
Record Session := {
  visited : gset string;
  workingLinks : list LinkRecord;
  brokenLinks : list LinkRecord;
  seoInsights : list Row;
  imageAlts : list Row;
  keywordStats : list Row;
  externalLinks : list ExternalRecord;
  missingAnchorTexts : list Row;
  accessibilityIssues : list Row;
  metaTagAudit : list Row;
  structuredData : list Row;
  technicalSeo : list Row;
  ogTags : list Row;
  metaTags : list Row;
  pagePerformanceMetrics : list Row;
  webCoreVitals : list Row;
  duplicateContentIssues : list DuplicateRecord;
  contentHashes : gmap string string;
  brokenResources : list ResourceRecord;
  sitemapRobotsInfo : list Row;
  missingSeoIssues : list Row;
  pagesScanned : Z;
  performanceMetrics : PerformanceMetrics
}.

(** The state of a freshly loaded module. *)
Definition initialSession (now : Z) : Session := {|
  visited := ∅;
  workingLinks := [];
  brokenLinks := [];
  seoInsights := [];
  imageAlts := [];
  keywordStats := [];
  externalLinks := [];
  missingAnchorTexts := [];
  accessibilityIssues := [];
  metaTagAudit := [];
  structuredData := [];
  technicalSeo := [];
  ogTags := [];
  metaTags := [];
  pagePerformanceMetrics := [];
  webCoreVitals := [];
  duplicateContentIssues := [];
  contentHashes := ∅;
  brokenResources := [];
  sitemapRobotsInfo := [];
  missingSeoIssues := [];
  pagesScanned := 0;
  performanceMetrics := {|
    pm_startTime := now;
    pagesCrawled := 0;
    errors := 0;
    averageResponseTime := 0%Q;
    totalResponseTime := 0
  |}
|}.

(** What [cheerio.load(html)] yields for the page at [currentUrl], as the
    DOM queries of [crawlPage] read it.  The extraction of report rows from
    the DOM is the work of cheerio and of the helpers [extractMetaTags] and
    [analyzeKeywords] (the latter is imported from [utils/keywordDensity.js]);
    the document carries their results, and they are taken to return
    without throwing. *)
Record Document := {
  (* sha256 hex digest of the lower-cased, white-space-normalised body text *)
  doc_hash : string;
  (* form elements without label, skipped heading levels *)
  doc_structureIssues : list Row;
  (* title, description, canonical and lang checks *)
  doc_missingSeo : list Row;
  (* a[href] elements: the href attribute and the trimmed text *)
  doc_anchors : list (string * string);
  doc_metaTags : list Row;
  doc_ogTags : list Row;
  doc_seoInsight : Row;
  doc_metaTagAudit : Row;
  (* duplicateTitle and duplicateDesc read the seoInsights array *)
  doc_technicalSeo : list Row -> Row;
  doc_imageAlts : list Row;
  doc_imageIssues : list Row;
  doc_missingAnchors : list Row;
  doc_structuredData : list Row;
  doc_keywords : list Row;
  (* img[src], script[src] and stylesheet links: type and resolved URL *)
  doc_resources : list (string * string)
}.

(** ** The segments of [crawlPage] and [runCrawl] common to both revisions *)

Section Engine.
Context {U : UrlApi} (MAX_PAGES : Z).

(** [visited.size >= MAX_PAGES] *)
Definition budgetReached (s : Session) : bool :=
  MAX_PAGES <=? Z.of_nat (size (visited s)).

(** The guard of [crawlPage]:
    [if (visited.has(currentUrl) || visited.size >= MAX_PAGES) return;] *)
Definition rejects (s : Session) (currentUrl : string) : bool :=
  bool_decide (currentUrl ∈ visited s) || budgetReached s.

(** [visited.add(currentUrl); pagesScanned++; performanceMetrics.pagesCrawled++;] *)
Definition markVisited (s : Session) (currentUrl : string) : Session := {|
  visited := {[currentUrl]} ∪ visited s;
  workingLinks := workingLinks s;
  brokenLinks := brokenLinks s;
  seoInsights := seoInsights s;
  imageAlts := imageAlts s;
  keywordStats := keywordStats s;
  externalLinks := externalLinks s;
  missingAnchorTexts := missingAnchorTexts s;
  accessibilityIssues := accessibilityIssues s;
  metaTagAudit := metaTagAudit s;
  structuredData := structuredData s;
  technicalSeo := technicalSeo s;
  ogTags := ogTags s;
  metaTags := metaTags s;
  pagePerformanceMetrics := pagePerformanceMetrics s;
  webCoreVitals := webCoreVitals s;
  duplicateContentIssues := duplicateContentIssues s;
  contentHashes := contentHashes s;
  brokenResources := brokenResources s;
  sitemapRobotsInfo := sitemapRobotsInfo s;
  missingSeoIssues := missingSeoIssues s;
  pagesScanned := pagesScanned s + 1;
  performanceMetrics := {|
    pm_startTime := pm_startTime (performanceMetrics s);
    pagesCrawled := pagesCrawled (performanceMetrics s) + 1;
    errors := errors (performanceMetrics s);
    averageResponseTime := averageResponseTime (performanceMetrics s);
    totalResponseTime := totalResponseTime (performanceMetrics s)
  |}
|}.

(** Duplicate content detection: [contentHashes.has(hash)] pushes a record
    that names [contentHashes.get(hash)], otherwise [contentHashes.set(hash,
    currentUrl)].  The loop over [contentHashes.entries()] in the [else]
    branch has an empty effect. *)
Definition detectDuplicate (hashes : gmap string string)
    (issues : list DuplicateRecord) (currentUrl hash : string)
    : gmap string string * list DuplicateRecord :=
  match hashes !! hash with
  | Some original =>
      (hashes,
       issues ++ [{| dup_url := currentUrl;
                     dup_duplicateOf := original;
                     dup_issue := "Duplicate content detected" |}])
  | None => (<[hash := currentUrl]> hashes, issues)
  end.

(** From the page content to the link extraction: duplicate detection, the
    accessibility checks of form elements and headings, the missing-SEO
    checks. *)
Definition auditPage (s : Session) (currentUrl : string) (doc : Document)
    : Session :=
  let d := detectDuplicate (contentHashes s) (duplicateContentIssues s)
             currentUrl (doc_hash doc) in
  {|
  visited := visited s;
  workingLinks := workingLinks s;
  brokenLinks := brokenLinks s;
  seoInsights := seoInsights s;
  imageAlts := imageAlts s;
  keywordStats := keywordStats s;
  externalLinks := externalLinks s;
  missingAnchorTexts := missingAnchorTexts s;
  accessibilityIssues := accessibilityIssues s ++ doc_structureIssues doc;
  metaTagAudit := metaTagAudit s;
  structuredData := structuredData s;
  technicalSeo := technicalSeo s;
  ogTags := ogTags s;
  metaTags := metaTags s;
  pagePerformanceMetrics := pagePerformanceMetrics s;
  webCoreVitals := webCoreVitals s;
  duplicateContentIssues := snd d;
  contentHashes := fst d;
  brokenResources := brokenResources s;
  sitemapRobotsInfo := sitemapRobotsInfo s;
  missingSeoIssues := missingSeoIssues s ++ doc_missingSeo doc;
  pagesScanned := pagesScanned s;
  performanceMetrics := performanceMetrics s
  |}.

(** [.filter((item) => item.href && item.href.trim())] *)
Definition keepLink (item : string * string) : bool :=
  negb (Js.isEmpty (fst item)) && negb (Js.isEmpty (Js.trim (fst item))).

(** [href.split("#")[0].trim()] *)
Definition cleanHref (href : string) : string := Js.trim (Js.beforeHash href).

(** The first test of the link loop: the cleaned href is empty or starts
    with one of the schemes that are not crawled. *)
Definition notCrawlable (cleaned : string) : bool :=
  Js.isEmpty cleaned
  || Js.startsWith cleaned "mailto:"
  || Js.startsWith cleaned "tel:"
  || Js.startsWith cleaned "javascript:"
  || Js.startsWith cleaned "data:"
  || Js.startsWith cleaned "blob:".

(** [fullHref]: the cleaned href as it is when it starts with [http],
    otherwise [new URL(cleaned, base).href]; [None] when that throws. *)
Definition resolveHref (cleaned base : string) : option string :=
  if negb (Js.startsWith cleaned "http") then URL_resolve cleaned base
  else Some cleaned.

(** [fullHref.startsWith(base) || fullHref.startsWith(baseDomain)] *)
Definition isInternal (fullHref base baseDomain : string) : bool :=
  Js.startsWith fullHref base || Js.startsWith fullHref baseDomain.

(** The body of [links.forEach(({ href, text }) => ...)], on the pending
    queue and the [externalLinks] array. *)
Definition processLink (vis : gset string) (currentUrl base baseDomain : string)
    (acc : list string * list ExternalRecord) (link : string * string)
    : list string * list ExternalRecord :=
  let cleaned := cleanHref (fst link) in
  if notCrawlable cleaned then acc
  else
    match resolveHref cleaned base with
    | None => acc
    | Some fullHref =>
        if isInternal fullHref base baseDomain then
          if Z.of_nat (size vis) <? MAX_PAGES then
            if negb (bool_decide (fullHref ∈ vis))
               && negb (bool_decide (fullHref ∈ fst acc))
            then (fst acc ++ [fullHref], snd acc)
            else acc
          else acc
        else if negb (Js.startsWith fullHref base)
                && negb (Js.startsWith fullHref baseDomain)
        then (fst acc,
              snd acc ++ [{| ext_from := currentUrl; ext_to := fullHref;
                             ext_linkData := None |}])
        else acc
    end.

Definition processLinks (vis : gset string) (currentUrl base baseDomain : string)
    (links : list (string * string))
    (acc : list string * list ExternalRecord)
    : list string * list ExternalRecord :=
  foldl (processLink vis currentUrl base baseDomain) acc links.

(** [extractLinks($, currentUrl, base).externalLinks]; [crawlPage] reads no
    other field of the result. *)
Definition extractLinks (anchors : list (string * string))
    (currentUrl base : string) : list ExternalRecord :=
  flat_map (fun a : string * string =>
    let href := cleanHref (fst a) in
    if Js.isEmpty href
       || Js.startsWith href "mailto:"
       || Js.startsWith href "tel:"
       || Js.startsWith href "javascript:"
    then []
    else
      match resolveHref href base with
      | None => []
      | Some fullHref =>
          if Js.startsWith fullHref base then []
          else [{| ext_from := currentUrl; ext_to := fullHref;
                   ext_linkData := Some (snd a, Js.startsWith fullHref base) |}]
      end) anchors.

(** From the link loop to the start of the resource checks. [links] is what
    the link extraction returned; the result is the session and the pending
    queue. *)
Definition recordPage (s : Session) (queue : list string)
    (currentUrl base baseDomain : string) (doc : Document)
    (links : list (string * string)) : Session * list string :=
  let l := processLinks (visited s) currentUrl base baseDomain links
             (queue, externalLinks s) in
  let insights := seoInsights s ++ [doc_seoInsight doc] in
  ({|
  visited := visited s;
  workingLinks := workingLinks s;
  brokenLinks := brokenLinks s;
  seoInsights := insights;
  imageAlts := imageAlts s ++ doc_imageAlts doc;
  keywordStats := keywordStats s ++ doc_keywords doc;
  externalLinks := snd l ++ extractLinks (doc_anchors doc) currentUrl base;
  missingAnchorTexts := missingAnchorTexts s ++ doc_missingAnchors doc;
  accessibilityIssues := accessibilityIssues s ++ doc_imageIssues doc;
  metaTagAudit := metaTagAudit s ++ [doc_metaTagAudit doc];
  structuredData := structuredData s ++ doc_structuredData doc;
  technicalSeo := technicalSeo s ++ [doc_technicalSeo doc insights];
  ogTags := ogTags s ++ doc_ogTags doc;
  metaTags := metaTags s ++ doc_metaTags doc;
  pagePerformanceMetrics := pagePerformanceMetrics s;
  webCoreVitals := webCoreVitals s;
  duplicateContentIssues := duplicateContentIssues s;
  contentHashes := contentHashes s;
  brokenResources := brokenResources s;
  sitemapRobotsInfo := sitemapRobotsInfo s;
  missingSeoIssues := missingSeoIssues s;
  pagesScanned := pagesScanned s;
  performanceMetrics := performanceMetrics s
  |}, fst l).

(** [workingLinks.push({ url, status })] *)
Definition pushWorkingLink (s : Session) (url : string) (status : JsValue)
    : Session := {|
  visited := visited s;
  workingLinks := workingLinks s ++ [{| link_url := url; link_status := status |}];
  brokenLinks := brokenLinks s;
  seoInsights := seoInsights s;
  imageAlts := imageAlts s;
  keywordStats := keywordStats s;
  externalLinks := externalLinks s;
  missingAnchorTexts := missingAnchorTexts s;
  accessibilityIssues := accessibilityIssues s;
  metaTagAudit := metaTagAudit s;
  structuredData := structuredData s;
  technicalSeo := technicalSeo s;
  ogTags := ogTags s;
  metaTags := metaTags s;
  pagePerformanceMetrics := pagePerformanceMetrics s;
  webCoreVitals := webCoreVitals s;
  duplicateContentIssues := duplicateContentIssues s;
  contentHashes := contentHashes s;
  brokenResources := brokenResources s;
  sitemapRobotsInfo := sitemapRobotsInfo s;
  missingSeoIssues := missingSeoIssues s;
  pagesScanned := pagesScanned s;
  performanceMetrics := performanceMetrics s
|}.

(** [brokenLinks.push({ url, status })] *)
Definition pushBrokenLink (s : Session) (url : string) (status : JsValue)
    : Session := {|
  visited := visited s;
  workingLinks := workingLinks s;
  brokenLinks := brokenLinks s ++ [{| link_url := url; link_status := status |}];
  seoInsights := seoInsights s;
  imageAlts := imageAlts s;
  keywordStats := keywordStats s;
  externalLinks := externalLinks s;
  missingAnchorTexts := missingAnchorTexts s;
  accessibilityIssues := accessibilityIssues s;
  metaTagAudit := metaTagAudit s;
  structuredData := structuredData s;
  technicalSeo := technicalSeo s;
  ogTags := ogTags s;
  metaTags := metaTags s;
  pagePerformanceMetrics := pagePerformanceMetrics s;
  webCoreVitals := webCoreVitals s;
  duplicateContentIssues := duplicateContentIssues s;
  contentHashes := contentHashes s;
  brokenResources := brokenResources s;
  sitemapRobotsInfo := sitemapRobotsInfo s;
  missingSeoIssues := missingSeoIssues s;
  pagesScanned := pagesScanned s;
  performanceMetrics := performanceMetrics s
|}.

(** The rejection handler of a resource check:
    [brokenResources.push({ url, resource, type, status })] *)
Definition pushBrokenResource (s : Session) (r : ResourceRecord) : Session := {|
  visited := visited s;
  workingLinks := workingLinks s;
  brokenLinks := brokenLinks s;
  seoInsights := seoInsights s;
  imageAlts := imageAlts s;
  keywordStats := keywordStats s;
  externalLinks := externalLinks s;
  missingAnchorTexts := missingAnchorTexts s;
  accessibilityIssues := accessibilityIssues s;
  metaTagAudit := metaTagAudit s;
  structuredData := structuredData s;
  technicalSeo := technicalSeo s;
  ogTags := ogTags s;
  metaTags := metaTags s;
  pagePerformanceMetrics := pagePerformanceMetrics s;
  webCoreVitals := webCoreVitals s;
  duplicateContentIssues := duplicateContentIssues s;
  contentHashes := contentHashes s;
  brokenResources := brokenResources s ++ [r];
  sitemapRobotsInfo := sitemapRobotsInfo s;
  missingSeoIssues := missingSeoIssues s;
  pagesScanned := pagesScanned s;
  performanceMetrics := performanceMetrics s
|}.

(** [performanceMetrics.totalResponseTime += pageResponseTime] and the update
    of [averageResponseTime], a floating-point quotient in the source and a
    rational here *)
Definition updateResponseTime (s : Session) (pageResponseTime : Z) : Session := {|
  visited := visited s;
  workingLinks := workingLinks s;
  brokenLinks := brokenLinks s;
  seoInsights := seoInsights s;
  imageAlts := imageAlts s;
  keywordStats := keywordStats s;
  externalLinks := externalLinks s;
  missingAnchorTexts := missingAnchorTexts s;
  accessibilityIssues := accessibilityIssues s;
  metaTagAudit := metaTagAudit s;
  structuredData := structuredData s;
  technicalSeo := technicalSeo s;
  ogTags := ogTags s;
  metaTags := metaTags s;
  pagePerformanceMetrics := pagePerformanceMetrics s;
  webCoreVitals := webCoreVitals s;
  duplicateContentIssues := duplicateContentIssues s;
  contentHashes := contentHashes s;
  brokenResources := brokenResources s;
  sitemapRobotsInfo := sitemapRobotsInfo s;
  missingSeoIssues := missingSeoIssues s;
  pagesScanned := pagesScanned s;
  performanceMetrics := {|
    pm_startTime := pm_startTime (performanceMetrics s);
    pagesCrawled := pagesCrawled (performanceMetrics s);
    errors := errors (performanceMetrics s);
    averageResponseTime :=
      (inject_Z (totalResponseTime (performanceMetrics s) + pageResponseTime)
       / inject_Z (pagesCrawled (performanceMetrics s)))%Q;
    totalResponseTime :=
      totalResponseTime (performanceMetrics s) + pageResponseTime
  |}
|}.

(** [performanceMetrics.errors++] *)
Definition countError (s : Session) : Session := {|
  visited := visited s;
  workingLinks := workingLinks s;
  brokenLinks := brokenLinks s;
  seoInsights := seoInsights s;
  imageAlts := imageAlts s;
  keywordStats := keywordStats s;
  externalLinks := externalLinks s;
  missingAnchorTexts := missingAnchorTexts s;
  accessibilityIssues := accessibilityIssues s;
  metaTagAudit := metaTagAudit s;
  structuredData := structuredData s;
  technicalSeo := technicalSeo s;
  ogTags := ogTags s;
  metaTags := metaTags s;
  pagePerformanceMetrics := pagePerformanceMetrics s;
  webCoreVitals := webCoreVitals s;
  duplicateContentIssues := duplicateContentIssues s;
  contentHashes := contentHashes s;
  brokenResources := brokenResources s;
  sitemapRobotsInfo := sitemapRobotsInfo s;
  missingSeoIssues := missingSeoIssues s;
  pagesScanned := pagesScanned s;
  performanceMetrics := {|
    pm_startTime := pm_startTime (performanceMetrics s);
    pagesCrawled := pagesCrawled (performanceMetrics s);
    errors := errors (performanceMetrics s) + 1;
    averageResponseTime := averageResponseTime (performanceMetrics s);
    totalResponseTime := totalResponseTime (performanceMetrics s)
  |}
|}.

(** The first statements of [runCrawl], under the comment [Reset all
    stateful arrays and sets]: [visited.clear()], [length = 0] for nineteen
    arrays, [pagesScanned = 0] and the fields of [performanceMetrics].  No
    statement touches [contentHashes]. *)
Definition runCrawl_reset (s : Session) (now : Z) : Session := {|
  visited := ∅;
  workingLinks := [];
  brokenLinks := [];
  seoInsights := [];
  imageAlts := [];
  keywordStats := [];
  externalLinks := [];
  missingAnchorTexts := [];
  accessibilityIssues := [];
  metaTagAudit := [];
  structuredData := [];
  technicalSeo := [];
  ogTags := [];
  metaTags := [];
  pagePerformanceMetrics := [];
  webCoreVitals := [];
  duplicateContentIssues := [];
  contentHashes := contentHashes s;
  brokenResources := [];
  sitemapRobotsInfo := [];
  missingSeoIssues := [];
  pagesScanned := 0;
  performanceMetrics := {|
    pm_startTime := now;
    pagesCrawled := 0;
    errors := 0;
    averageResponseTime := 0%Q;
    totalResponseTime := 0
  |}
|}.

End Engine.

(** ** [src/unnamed/part_000] *)

Module Part000.

Definition MAX_PAGES : Z := 2000.

(** [normalizeUrl]: [new URL(url).href], the input itself when the
    constructor throws. *)
Definition normalizeUrl `{UrlApi} (url : string) : string :=
  match URL_href url with
  | Some href => href
  | None => url
  end.

(** *** Sitemaps *)

(** What [xml2js.parseStringPromise] returns for a fetched sitemap, as
    [getSitemapUrls] reads it: the entries of [parsed.urlset.url] or of
    [parsed.sitemapindex.sitemap], each with its [loc[0]] ([None] when the
    entry has no [loc], so that reading it throws), or a document with
    neither. *)
Inductive SitemapDoc :=
| Urlset (entries : list (option string))
| SitemapIndex (entries : list (option string))
| OtherXml.

(** The loop [for (const sm of parsed.sitemapindex.sitemap)], with the
    recursive call as a parameter.  [None] is a call that has not returned;
    an entry without [loc] throws, and the [catch] returns the empty list. *)
Fixpoint expandIndex
    (resolve : string -> gset string -> option (list string * gset string))
    (entries : list (option string)) (urls : list string) (seen : gset string)
    : option (list string * gset string) :=
  match entries with
  | [] => Some (urls, seen)
  | None :: _ => Some ([], seen)
  | Some loc :: rest =>
      match resolve loc seen with
      | None => None
      | Some (subUrls, seen') => expandIndex resolve rest (urls ++ subUrls) seen'
      end
  end.

(** [parsed.urlset.url.map((u) => u.loc[0])]; [None] when an entry throws. *)
Fixpoint urlsetLocs (entries : list (option string)) : option (list string) :=
  match entries with
  | [] => Some []
  | None :: _ => None
  | Some loc :: rest =>
      match urlsetLocs rest with
      | Some locs => Some (loc :: locs)
      | None => None
      end
  end.

(** [getSitemapUrls(sitemapUrl, seen)].  [web] gives the parsed document
    behind every URL whose request and parse succeed; [seen] is the mutable
    set shared by the recursive calls, returned with the list.  [fuel]
    bounds the depth of the recursion. *)
Fixpoint getSitemapUrls (fuel : nat) (web : gmap string SitemapDoc)
    (sitemapUrl : string) (seen : gset string)
    : option (list string * gset string) :=
  match fuel with
  | O => None
  | S fuel' =>
      if bool_decide (sitemapUrl ∈ seen) then Some ([], seen)
      else
        let seen1 := {[sitemapUrl]} ∪ seen in
        match web !! sitemapUrl with
        | None => Some ([], seen1)
        | Some (Urlset entries) =>
            match urlsetLocs entries with
            | Some locs => Some (locs, seen1)
            | None => Some ([], seen1)
            end
        | Some (SitemapIndex entries) =>
            expandIndex (getSitemapUrls fuel' web) entries [] seen1
        | Some OtherXml => Some ([], seen1)
        end
  end.

(** The queue of [generateReport] before the crawl starts: the normalised
    base, then the sitemap URLs that are not yet visited or queued. *)
Definition seedQueue `{UrlApi} (vis : gset string) (base : string)
    (sitemapUrls : list string) : list string :=
  foldl (fun queue url =>
           if negb (bool_decide (url ∈ vis)) && negb (bool_decide (url ∈ queue))
           then queue ++ [url] else queue)
        [normalizeUrl base] sitemapUrls.

(** *** The calls of [crawlPage] in flight *)

(** Where a call that passed the guard is suspended. *)
Inductive Stage :=
| Rendering
    (* the delay, [browser.newPage], [page.goto], [page.content], [page.close] *)
| Settling (pending : list (string * string))
    (* [Promise.all(resourceChecks)]: the HEAD requests not yet answered *)
| Finished.

Record Task := {
  task_url : string;
  task_start : Z;
  task_stage : Stage
}.

(** The shared session, the [queue] array of [generateReport], and the calls
    of [crawlPage] that passed the guard, in the order of their admission. *)
Record Crawl := {
  session : Session;
  queue : list string;
  tasks : list Task
}.

(** What the event loop runs next. *)
Inductive Event :=
| Call (url : string) (now : Z)
    (* [crawlPage(url, queue, base, base, baseDomain, browser)] is called *)
| Rendered (i : nat) (doc : Document)
    (* the page of task [i] is loaded and closed *)
| RenderFailed (i : nat) (err : JsError)
    (* one of the awaited browser calls of task [i] throws *)
| ResourceOk (i k : nat)
    (* the [k]-th pending HEAD request of task [i] succeeds *)
| ResourceFailed (i k : nat) (err : JsError)
    (* it fails *)
| Settled (i : nat) (now : Z)
    (* every resource check of task [i] is answered *)
| Shift.
    (* the queue worker takes [queue.shift()] *)

Definition setStage (c : Crawl) (i : nat) (t : Task) (st : Stage) (s : Session)
    (q : list string) : Crawl := {|
  session := s;
  queue := q;
  tasks := <[i := {| task_url := task_url t; task_start := task_start t;
                     task_stage := st |}]> (tasks c)
|}.

(** [crawlPage] from the call to its first [await]: the URL is normalised,
    the guard returns or the URL is marked, and [pageStartTime] is taken. *)
Definition crawlPage `{UrlApi} (c : Crawl) (url : string) (now : Z) : Crawl :=
  let currentUrl := normalizeUrl url in
  if rejects MAX_PAGES (session c) currentUrl then c
  else {| session := markVisited (session c) currentUrl;
          queue := queue c;
          tasks := tasks c ++ [{| task_url := currentUrl;
                                  task_start := now;
                                  task_stage := Rendering |}] |}.

(** One turn of the event loop.  An event that does not fit the stage of
    its task cannot happen and changes nothing. *)
Definition step `{UrlApi} (base baseDomain : string) (c : Crawl) (e : Event)
    : Crawl :=
  match e with
  | Call url now => crawlPage c url now
  | Rendered i doc =>
      match tasks c !! i with
      | Some t =>
          match task_stage t with
          | Rendering =>
              let r := recordPage MAX_PAGES
                         (auditPage (session c) (task_url t) doc) (queue c)
                         (task_url t) base baseDomain doc
                         (filter (fun l => keepLink l = true) (doc_anchors doc)) in
              setStage c i t (Settling (doc_resources doc)) (fst r) (snd r)
          | _ => c
          end
      | None => c
      end
  | RenderFailed i err =>
      match tasks c !! i with
      | Some t =>
          match task_stage t with
          | Rendering =>
              setStage c i t Finished
                (pushBrokenLink (session c) (task_url t) (Str (err_message err)))
                (queue c)
          | _ => c
          end
      | None => c
      end
  | ResourceOk i k =>
      match tasks c !! i with
      | Some t =>
          match task_stage t with
          | Settling pending =>
              setStage c i t (Settling (delete k pending)) (session c) (queue c)
          | _ => c
          end
      | None => c
      end
  | ResourceFailed i k err =>
      match tasks c !! i with
      | Some t =>
          match task_stage t with
          | Settling pending =>
              match pending !! k with
              | Some r =>
                  setStage c i t (Settling (delete k pending))
                    (pushBrokenResource (session c)
                       {| res_url := task_url t; res_resource := snd r;
                          res_type := fst r;
                          res_status := statusOrCode err (Str "error") |})
                    (queue c)
              | None => c
              end
          | _ => c
          end
      | None => c
      end
  | Settled i now =>
      match tasks c !! i with
      | Some t =>
          match task_stage t with
          | Settling [] =>
              setStage c i t Finished
                (pushWorkingLink
                   (updateResponseTime (session c) (now - task_start t))
                   (task_url t) (Num 200))
                (queue c)
          | _ => c
          end
      | None => c
      end
  | Shift =>
      {| session := session c; queue := tail (queue c); tasks := tasks c |}
  end.

Definition run `{UrlApi} (base baseDomain : string) (events : list Event)
    (c : Crawl) : Crawl :=
  foldl (step base baseDomain) c events.

(** The crawl as [generateReport] starts it: no call in flight. *)
Definition start (s : Session) (q : list string) : Crawl :=
  {| session := s; queue := q; tasks := [] |}.

End Part000.

(** ** [src/crawler.js] *)

Module Crawler.

Definition MAX_PAGES : Z := 50000.
Definition CONCURRENT_REQUESTS : nat := 15.

(** [err.response?.status || err.code || err.message || "Unknown Error"] *)
Definition failureStatus (err : JsError) : JsValue :=
  statusOrCode err
    (if Js.isEmpty (err_message err) then Str "Unknown Error"
     else Str (err_message err)).

(** The successful fallback: [workingLinks.push({ url, status:
    response.status })], the meta and Open Graph tags of the fetched page,
    its [seoInsights] row. *)
Definition recordFallback (s : Session) (currentUrl : string) (status : Z)
    (doc : Document) : Session := {|
  visited := visited s;
  workingLinks := workingLinks s ++ [{| link_url := currentUrl; link_status := Num status |}];
  brokenLinks := brokenLinks s;
  seoInsights := seoInsights s ++ [doc_seoInsight doc];
  imageAlts := imageAlts s;
  keywordStats := keywordStats s;
  externalLinks := externalLinks s;
  missingAnchorTexts := missingAnchorTexts s;
  accessibilityIssues := accessibilityIssues s;
  metaTagAudit := metaTagAudit s;
  structuredData := structuredData s;
  technicalSeo := technicalSeo s;
  ogTags := ogTags s ++ doc_ogTags doc;
  metaTags := metaTags s ++ doc_metaTags doc;
  pagePerformanceMetrics := pagePerformanceMetrics s;
  webCoreVitals := webCoreVitals s;
  duplicateContentIssues := duplicateContentIssues s;
  contentHashes := contentHashes s;
  brokenResources := brokenResources s;
  sitemapRobotsInfo := sitemapRobotsInfo s;
  missingSeoIssues := missingSeoIssues s;
  pagesScanned := pagesScanned s;
  performanceMetrics := performanceMetrics s
|}.

(** The fields of the Lighthouse result copied to [webCoreVitals]. *)
Definition vitalFields : list string :=
  ["lcp"; "fid"; "cls"; "ttfb"; "lcpStatus"; "fidStatus"; "clsStatus";
   "ttfbStatus"].

Definition vitalsOf (currentUrl : string) (results : Row) : Row :=
  ("url", Str currentUrl)
  :: filter (fun kv : string * JsValue => fst kv ∈ vitalFields) results.

(** After [runLighthouseAnalysis] for the main page:
    [pagePerformanceMetrics.push(lighthouseResults)], the [webCoreVitals] row,
    then [workingLinks.push({ url: currentUrl, status: 200 })]. *)
Definition recordLighthouse (s : Session) (currentUrl : string)
    (results : Row) : Session := {|
  visited := visited s;
  workingLinks := workingLinks s ++ [{| link_url := currentUrl; link_status := Num 200 |}];
  brokenLinks := brokenLinks s;
  seoInsights := seoInsights s;
  imageAlts := imageAlts s;
  keywordStats := keywordStats s;
  externalLinks := externalLinks s;
  missingAnchorTexts := missingAnchorTexts s;
  accessibilityIssues := accessibilityIssues s;
  metaTagAudit := metaTagAudit s;
  structuredData := structuredData s;
  technicalSeo := technicalSeo s;
  ogTags := ogTags s;
  metaTags := metaTags s;
  pagePerformanceMetrics := pagePerformanceMetrics s ++ [results];
  webCoreVitals := webCoreVitals s ++ [vitalsOf currentUrl results];
  duplicateContentIssues := duplicateContentIssues s;
  contentHashes := contentHashes s;
  brokenResources := brokenResources s;
  sitemapRobotsInfo := sitemapRobotsInfo s;
  missingSeoIssues := missingSeoIssues s;
  pagesScanned := pagesScanned s;
  performanceMetrics := performanceMetrics s
|}.

(** Where a call that passed the guard is suspended. *)
Inductive Stage :=
| Rendering
    (* the delay, [puppeteer.launch], [newPage], [goto], [page.content] *)
| Evaluating (doc : Document)
    (* [page.$$eval("a[href]", ...)] *)
| Settling (pending : list (string * string))
    (* [Promise.all(resourceChecks)] *)
| Auditing
    (* [runLighthouseAnalysis(currentUrl)], for the main page *)
| FallingBack
    (* [axios.get(currentUrl, ...)] in the [catch] *)
| Finished.

Record Task := {
  task_url : string;
  task_start : Z;
  task_stage : Stage
}.

Record Crawl := {
  session : Session;
  queue : list string;
  tasks : list Task
}.

Inductive Event :=
| Call (url : string) (now : Z)
    (* [crawlPage(link, queue, base, base, baseDomain)] is called *)
| Rendered (i : nat) (doc : Document)
    (* the browser of task [i] has loaded the page *)
| LinksEvaluated (i : nat) (anchors : list (string * string))
    (* [page.$$eval] returns for task [i] *)
| Failed (i : nat) (err : JsError)
    (* an awaited browser call of task [i] throws *)
| ResourceOk (i k : nat)
| ResourceFailed (i k : nat) (err : JsError)
| Settled (i : nat) (now : Z)
| LighthouseDone (i : nat) (results : Row)
| FallbackOk (i : nat) (status : Z) (doc : Document)
    (* the fallback GET of task [i] is answered *)
| FallbackFailed (i : nat)
| Splice.
    (* the batch loop takes [queue.splice(0, CONCURRENT_REQUESTS)] *)

Definition setStage (c : Crawl) (i : nat) (t : Task) (st : Stage) (s : Session)
    (q : list string) : Crawl := {|
  session := s;
  queue := q;
  tasks := <[i := {| task_url := task_url t; task_start := task_start t;
                     task_stage := st |}]> (tasks c)
|}.

(** The [catch] of [crawlPage] up to the fallback request. *)
Definition catchFailure (s : Session) (currentUrl : string) (err : JsError)
    : Session :=
  pushBrokenLink (countError s) currentUrl (failureStatus err).

(** [crawlPage] from the call to its first [await]: the guard returns or the
    URL is marked, and [pageStartTime] is taken. *)
Definition crawlPage (c : Crawl) (currentUrl : string) (now : Z) : Crawl :=
  if rejects MAX_PAGES (session c) currentUrl then c
  else {| session := markVisited (session c) currentUrl;
          queue := queue c;
          tasks := tasks c ++ [{| task_url := currentUrl;
                                  task_start := now;
                                  task_stage := Rendering |}] |}.

(** One turn of the event loop.  An event that does not fit the stage of
    its task cannot happen and changes nothing. *)
Definition step `{UrlApi} (base baseDomain mainPageUrl : string) (c : Crawl)
    (e : Event) : Crawl :=
  match e with
  | Call currentUrl now => crawlPage c currentUrl now
  | Rendered i doc =>
      match tasks c !! i with
      | Some t =>
          match task_stage t with
          | Rendering =>
              setStage c i t (Evaluating doc)
                (auditPage (session c) (task_url t) doc) (queue c)
          | _ => c
          end
      | None => c
      end
  | LinksEvaluated i anchors =>
      match tasks c !! i with
      | Some t =>
          match task_stage t with
          | Evaluating doc =>
              let r := recordPage MAX_PAGES (session c) (queue c)
                         (task_url t) base baseDomain doc
                         (filter (fun l => keepLink l = true) anchors) in
              setStage c i t (Settling (doc_resources doc)) (fst r) (snd r)
          | _ => c
          end
      | None => c
      end
  | Failed i err =>
      match tasks c !! i with
      | Some t =>
          match task_stage t with
          | Rendering | Evaluating _ =>
              setStage c i t FallingBack
                (catchFailure (session c) (task_url t) err) (queue c)
          | _ => c
          end
      | None => c
      end
  | ResourceOk i k =>
      match tasks c !! i with
      | Some t =>
          match task_stage t with
          | Settling pending =>
              setStage c i t (Settling (delete k pending)) (session c) (queue c)
          | _ => c
          end
      | None => c
      end
  | ResourceFailed i k err =>
      match tasks c !! i with
      | Some t =>
          match task_stage t with
          | Settling pending =>
              match pending !! k with
              | Some r =>
                  setStage c i t (Settling (delete k pending))
                    (pushBrokenResource (session c)
                       {| res_url := task_url t; res_resource := snd r;
                          res_type := fst r;
                          res_status := statusOrCode err (Str "error") |})
                    (queue c)
              | None => c
              end
          | _ => c
          end
      | None => c
      end
  | Settled i now =>
      match tasks c !! i with
      | Some t =>
          match task_stage t with
          | Settling [] =>
              let s := updateResponseTime (session c) (now - task_start t) in
              if bool_decide (task_url t = mainPageUrl)
              then setStage c i t Auditing s (queue c)
              else setStage c i t Finished
                     (pushWorkingLink s (task_url t) (Num 200)) (queue c)
          | _ => c
          end
      | None => c
      end
  | LighthouseDone i results =>
      match tasks c !! i with
      | Some t =>
          match task_stage t with
          | Auditing =>
              setStage c i t Finished
                (recordLighthouse (session c) (task_url t) results) (queue c)
          | _ => c
          end
      | None => c
      end
  | FallbackOk i status doc =>
      match tasks c !! i with
      | Some t =>
          match task_stage t with
          | FallingBack =>
              setStage c i t Finished
                (recordFallback (session c) (task_url t) status doc) (queue c)
          | _ => c
          end
      | None => c
      end
  | FallbackFailed i =>
      match tasks c !! i with
      | Some t =>
          match task_stage t with
          | FallingBack => setStage c i t Finished (session c) (queue c)
          | _ => c
          end
      | None => c
      end
  | Splice =>
      {| session := session c;
         queue := drop CONCURRENT_REQUESTS (queue c);
         tasks := tasks c |}
  end.

Definition run `{UrlApi} (base baseDomain mainPageUrl : string)
    (events : list Event) (c : Crawl) : Crawl :=
  foldl (step base baseDomain mainPageUrl) c events.

Definition start (s : Session) (q : list string) : Crawl :=
  {| session := s; queue := q; tasks := [] |}.

End Crawler.

(** ** A reference [URL] for the examples

    The crawler is verified for every implementation of [UrlApi].  To run
    it on concrete inputs, this module implements the part of the URL
    standard the examples need: http and https URLs with a non-empty
    authority, which are their own serialisation, and references relative to
    a base that ends with a slash. *)

Module UrlModel.

Definition scheme (s : string) : option string :=
  if Js.startsWith s "https://" then Some "https://"
  else if Js.startsWith s "http://" then Some "http://"
  else None.

Fixpoint skip (n : nat) (s : string) : string :=
  match n, s with
  | S n', String _ r => skip n' r
  | _, _ => s
  end.

(** The authority ends at the first [/], [?] or [#]. *)
Fixpoint authority (s : string) : string :=
  match s with
  | EmptyString => EmptyString
  | String c r =>
      if Ascii.eqb c "/"%char || Ascii.eqb c "?"%char || Ascii.eqb c "#"%char
      then EmptyString
      else String c (authority r)
  end.

(** [new URL(s).origin] *)
Definition origin (s : string) : option string :=
  match scheme s with
  | Some sch =>
      let a := authority (skip (String.length sch) s) in
      if Js.isEmpty a then None else Some (sch +:+ a)
  | None => None
  end.

(** [new URL(s).href] *)
Definition href (s : string) : option string :=
  match origin s with
  | Some _ => Some s
  | None => None
  end.

(** [new URL(u, base).href] *)
Definition resolve (u base : string) : option string :=
  match scheme u with
  | Some _ => href u
  | None =>
      match origin base with
      | Some o =>
          if Js.startsWith u "/" then Some (o +:+ u) else Some (base +:+ u)
      | None => None
      end
  end.

Definition api : UrlApi := {| URL_href := href; URL_resolve := resolve |}.

End UrlModel.

(** A page with the given content hash and anchors and nothing else. *)
Definition plainPage (hash : string) (anchors : list (string * string))
    : Document := {|
  doc_hash := hash;
  doc_structureIssues := [];
  doc_missingSeo := [];
  doc_anchors := anchors;
  doc_metaTags := [];
  doc_ogTags := [];
  doc_seoInsight := [];
  doc_metaTagAudit := [];
  doc_technicalSeo := fun _ => [];
  doc_imageAlts := [];
  doc_imageIssues := [];
  doc_missingAnchors := [];
  doc_structuredData := [];
  doc_keywords := [];
  doc_resources := []
|}.

(** ** The graph of sitemaps

    The vocabulary of the sitemap properties: the documents a sitemap index
    lists, the documents reachable through indexes, the URLs a urlset lists. *)

(** [sm] is the [loc] of an entry of the sitemap index at [url]. *)
Definition indexChild (web : gmap string Part000.SitemapDoc) (url sm : string)
    : Prop :=
  exists entries,
    web !! url = Some (Part000.SitemapIndex entries) /\ Some sm ∈ entries.

(** [loc] is the [loc] of an entry of the urlset at [url]. *)
Definition leafOf (web : gmap string Part000.SitemapDoc) (url loc : string)
    : Prop :=
  exists entries,
    web !! url = Some (Part000.Urlset entries) /\ Some loc ∈ entries.

(** The sitemaps reachable from [url] through sitemap indexes. *)
Definition reachableSitemap (web : gmap string Part000.SitemapDoc)
    : string -> string -> Prop :=
  rtc (indexChild web).



(** Two sitemap indexes that list each other, and a urlset. *)
Definition cyclicWeb : gmap string Part000.SitemapDoc :=
  <["https://example.com/sitemap.xml" :=
      Part000.SitemapIndex [Some "https://example.com/b.xml"]]>
  (<["https://example.com/b.xml" :=
      Part000.SitemapIndex [Some "https://example.com/sitemap.xml";
                            Some "https://example.com/c.xml"]]>
  (<["https://example.com/c.xml" :=
      Part000.Urlset [Some "https://example.com/x";
                      Some "https://example.com/y"]]> ∅)).

(** ** More string methods *)

Module Text.

(** [s.endsWith(suffix)] *)
Fixpoint endsWith (s suffix : string) : bool :=
  String.eqb s suffix
  || match s with
     | EmptyString => false
     | String _ r => endsWith r suffix
     end.

(** [s.includes(part)] *)
Fixpoint includes (s part : string) : bool :=
  String.prefix part s
  || match s with
     | EmptyString => false
     | String _ r => includes r part
     end.

(** The characters of [s] after the first [n]. *)
Fixpoint skip (n : nat) (s : string) : string :=
  match n, s with
  | O, _ => s
  | S n', String _ r => skip n' r
  | S _, EmptyString => EmptyString
  end.

(** [s.replace(pattern, "")] for a string [pattern]: the first occurrence
    is removed. *)
Fixpoint remove (s pattern : string) : string :=
  if String.prefix pattern s then skip (String.length pattern) s
  else match s with
       | EmptyString => EmptyString
       | String c r => String c (remove r pattern)
       end.

(** [s.replace(/x/g, y)] for characters [x] and [y]. *)
Fixpoint replaceAll (x y : ascii) (s : string) : string :=
  match s with
  | EmptyString => EmptyString
  | String c r =>
      String (if Ascii.eqb c x then y else c) (replaceAll x y r)
  end.

End Text.


(** ** The server ([src/render-build.sh], after the build script) *)

Module Server.

(** *** Rate limiting *)

Definition RATE_LIMIT_WINDOW : Z := 60 * 60 * 1000.
Definition MAX_REQUESTS_PER_HOUR : Z := 5.

(** A value of the [requestCounts] map. *)
Record UserData := {
  count : Z;
  resetTime : Z
}.

(** The [rateLimit] middleware on the [requestCounts] map: the map after
    the call, and [true] when [next()] is called, [false] when the answer is
    429.  [ip] is the key [req.ip || req.connection.remoteAddress], [now] is
    [Date.now()].  The entry is created or reset before the test, so a
    rejected request can change the map too. *)
Definition rateLimit (requestCounts : gmap string UserData) (ip : string)
    (now : Z) : gmap string UserData * bool :=
  let created :=
    match requestCounts !! ip with
    | Some userData => userData
    | None => {| count := 0; resetTime := now + RATE_LIMIT_WINDOW |}
    end in
  let userData :=
    if resetTime created <? now
    then {| count := 0; resetTime := now + RATE_LIMIT_WINDOW |}
    else created in
  if MAX_REQUESTS_PER_HOUR <=? count userData
  then (<[ip := userData]> requestCounts, false)
  else (<[ip := {| count := count userData + 1;
                   resetTime := resetTime userData |}]> requestCounts, true).

(** The callback of [setInterval]: entries whose window is over are
    deleted. *)
Definition cleanUp (requestCounts : gmap string UserData) (now : Z)
    : gmap string UserData :=
  filter (fun entry : string * UserData => ~ resetTime (snd entry) < now)
         requestCounts.

(** What the event loop runs: a request that goes through [rateLimit], or
    the clean-up timer. *)
Inductive Event :=
| Request (ip : string) (now : Z)
| CleanUp (now : Z).

Definition time (e : Event) : Z :=
  match e with Request _ now | CleanUp now => now end.

(** One event on the map and the list of the requests let through. *)
Definition step (st : gmap string UserData * list string) (e : Event)
    : gmap string UserData * list string :=
  match e with
  | Request ip now =>
      let r := rateLimit (fst st) ip now in
      (fst r, if snd r then snd st ++ [ip] else snd st)
  | CleanUp now => (cleanUp (fst st) now, snd st)
  end.

Definition serve (events : list Event) (requestCounts : gmap string UserData)
    : gmap string UserData * list string :=
  foldl step (requestCounts, []) events.

(** The number of requests of [ip] that were let through. *)
Definition passed (ip : string) (events : list Event)
    (requestCounts : gmap string UserData) : nat :=
  length (filter (fun i => i = ip) (snd (serve events requestCounts))).

(** The number of requests of [ip] among the events. *)
Fixpoint requestsOf (ip : string) (events : list Event) : nat :=
  match events with
  | [] => 0
  | Request i _ :: rest =>
      if decide (i = ip) then S (requestsOf ip rest) else requestsOf ip rest
  | CleanUp _ :: rest => requestsOf ip rest
  end.

(** How many requests of a client may still pass during the hour that
    starts at [a], given its entry: what is left of the open window, and a
    full window more if the open one ends within the hour. *)
Definition credit (a : Z) (entry : option UserData) : Z :=
  match entry with
  | None => MAX_REQUESTS_PER_HOUR
  | Some userData =>
      if a + RATE_LIMIT_WINDOW <=? resetTime userData
      then MAX_REQUESTS_PER_HOUR - count userData
      else 2 * MAX_REQUESTS_PER_HOUR - count userData
  end.

(** Every entry has counted at least one request and at most the limit. *)
Definition counted (requestCounts : gmap string UserData) : Prop :=
  forall ip userData,
    requestCounts !! ip = Some userData ->
    1 <= count userData <= MAX_REQUESTS_PER_HOUR.

End Server.

(** *** The CORS filter of the server *)

Module Cors.

Definition allowedOrigins : list string :=
  ["http://localhost:3000";
   "http://localhost:3001";
   "https://crawlvaani.vercel.app";
   "https://*.vercel.app";
   "https://*.onrender.com";
   "https://crawlvaani-frontend.vercel.app";
   "https://crawlvaani-frontend.vercel.app/reports";
   "https://crawlvaani-frontend.onrender.com"].

(** The callback of [allowedOrigins.some]. *)
Definition matches (origin allowedOrigin : string) : bool :=
  if Text.includes allowedOrigin "*"
  then Text.endsWith origin (Text.remove allowedOrigin "*.")
  else String.eqb origin allowedOrigin.

Definition isAllowed (origin : string) : bool :=
  existsb (matches origin) allowedOrigins.

(** [corsOptions.origin]: [true] for [callback(null, true)], [false] for
    the error.  [None] is a request without an [Origin] header. *)
Definition origin (origin : option string) : bool :=
  match origin with
  | None => true
  | Some o => Js.isEmpty o || isAllowed o
  end.

End Cors.

(** ** The names of the report files *)

Module Reports.

(** [hostname.replace(/\./g, "-")] *)
Definition sanitizedHost (hostname : string) : string :=
  Text.replaceAll "."%char "-"%char hostname.

(** The file name [runCrawl] writes the workbook to;
    [timestamp] is [new Date().toISOString().replace(/[:T]/g, "-").split(".")[0]]. *)
Definition fileName (hostname timestamp : string) : string :=
  "SEO-Report-" +:+ sanitizedHost hostname +:+ "-" +:+ timestamp +:+ ".xlsx".

(** The filter of [getAllReportFiles]:
    [file.endsWith(".xlsx") && file.includes("SEO-Report")] *)
Definition isReportFile (file : string) : bool :=
  Text.endsWith file ".xlsx" && Text.includes file "SEO-Report".

(** The characters [.] of a regular expression does not match, in the
    8-bit range: LF and CR. *)
Definition isLineTerminator (c : ascii) : bool :=
  Ascii.eqb c "010"%char || Ascii.eqb c "013"%char.

(** [(.+?)-] after the first character of the group: the shortest run of
    characters other than line terminators that is followed by [-]. *)
Fixpoint lazyGroup (s : string) : option string :=
  match s with
  | EmptyString => None
  | String c r =>
      if Ascii.eqb c "-"%char then Some EmptyString
      else if isLineTerminator c then None
      else match lazyGroup r with
           | Some g => Some (String c g)
           | None => None
           end
  end.

(** [/SEO-Report-(.+?)-/] tried at the start of [s]: the group. *)
Definition groupAt (s : string) : option string :=
  if String.prefix "SEO-Report-" s then
    match Text.skip 11 s with
    | EmptyString => None
    | String c r =>
        if isLineTerminator c then None
        else match lazyGroup r with
             | Some g => Some (String c g)
             | None => None
             end
    end
  else None.

(** [fileName.match(/SEO-Report-(.+?)-/)]: the group of the leftmost
    match. *)
Fixpoint domainMatch (s : string) : option string :=
  match groupAt s with
  | Some g => Some g
  | None =>
      match s with
      | EmptyString => None
      | String _ r => domainMatch r
      end
  end.

(** [domainMatch ? domainMatch[1].replace(/-/g, ".") : "Unknown Domain"],
    in [extractReportData] and in the handler of [/api/reports/list]. *)
Definition domain (fileName : string) : string :=
  match domainMatch fileName with
  | Some g => Text.replaceAll "-"%char "."%char g
  | None => "Unknown Domain"
  end.

(** [fullUrl] in the handler of [/api/reports/list]. *)
Definition fullUrl (domain : string) : string :=
  if String.eqb domain "hridaysehgal.vercel.app"
  then "https://hridaysehgal.vercel.app/"
  else if String.eqb domain "thehealth24.com"
  then "https://thehealth24.com/"
  else if Text.includes domain "www."
  then "https://" +:+ domain
  else "https://www." +:+ domain.

(** The first label of a host name: its first character and what follows
    up to the first [.] or [-]. *)
Fixpoint labelRest (s : string) : string :=
  match s with
  | EmptyString => EmptyString
  | String c r =>
      if Ascii.eqb c "."%char || Ascii.eqb c "-"%char then EmptyString
      else String c (labelRest r)
  end.

Definition firstLabel (hostname : string) : string :=
  match hostname with
  | EmptyString => EmptyString
  | String c r => String c (labelRest r)
  end.

(** No character of [s] is a line terminator. *)
Fixpoint oneLine (s : string) : bool :=
  match s with
  | EmptyString => true
  | String c r => negb (isLineTerminator c) && oneLine r
  end.

End Reports.

(** ** Vocabulary of the report invariants *)




(** ** The report tools ([src/utils/reportConsolidator.js]) *)

Module Consolidator.

(** A row of a sheet read back from a workbook. *)
Definition SheetRow : Type := gmap string JsValue.

(** [!v || v === ""] for a cell that may be missing: [undefined], [0] and
    the empty string. *)
Definition blank (v : option JsValue) : bool :=
  match v with
  | None => true
  | Some (Num n) => n =? 0
  | Some (Str s) => Js.isEmpty s
  end.

(** [allData[name] ? allData[name].length : 0] *)
Definition rowCount (allData : gmap string (list SheetRow)) (name : string)
    : Z :=
  match allData !! name with
  | Some rows => Z.of_nat (length rows)
  | None => 0
  end.

(** [allData["SEO Info"].filter((seo) => !seo.TITLE || seo.TITLE === "").length] *)
Definition missingTitles (rows : list SheetRow) : Z :=
  Z.of_nat (length (filter (fun seo : SheetRow => blank (seo !! "TITLE") = true)
                           rows)).

(** The SEO score of [generateExecutiveSummary]. *)
Definition seoScore (allData : gmap string (list SheetRow)) : Z :=
  let brokenLinks := rowCount allData "Broken Links" in
  let accessibilityIssues := rowCount allData "Accessibility Issues" in
  let score0 := 100 in
  let score1 :=
    if 0 <? brokenLinks then score0 - Z.min 30 (brokenLinks * 2) else score0 in
  let score2 :=
    if 0 <? accessibilityIssues
    then score1 - Z.min 20 (accessibilityIssues * 3) else score1 in
  let score3 :=
    match allData !! "SEO Info" with
    | Some rows => score2 - Z.min 25 (missingTitles rows * 5)
    | None => score2
    end in
  Z.max 0 score3.

End Consolidator.

(** ** Sheets of the workbook ([autoFitColumns]) *)

Module Sheets.

(** A cell as [autoFitColumns] reads it: whether the value is truthy, and
    [String(value)]. *)
Record Cell := {
  cell_truthy : bool;
  cell_text : string
}.

(** A row of a sheet: its properties in the order of [Object.keys].  The
    keys are the field names of the report records; none of them is a
    property that every object inherits. *)
Definition Row : Type := list (string * Cell).

(** [row[col]] *)
Fixpoint get (row : Row) (col : string) : option Cell :=
  match row with
  | [] => None
  | (key, cell) :: rest => if String.eqb key col then Some cell else get rest col
  end.

(** [row[col] ? String(row[col]).length : 0] *)
Definition cellLength (col : string) (row : Row) : Z :=
  match get row col with
  | Some cell =>
      if cell_truthy cell then Z.of_nat (String.length (cell_text cell)) else 0
  | None => 0
  end.

(** [Math.max(x, ...xs)] *)
Definition maxOf (x : Z) (xs : list Z) : Z := foldr Z.max x xs.

(** [autoFitColumns(data)]: the [wch] of every column. *)
Definition autoFitColumns (data : list Row) : list Z :=
  (fun col : string =>
     Z.min (maxOf (Z.of_nat (String.length col)) (cellLength col <$> data) + 2)
           50)
  <$> (fst <$> default [] (head data)).

End Sheets.

(** ** Meta tags ([extractMetaTags]) *)

Module Meta.

(** A [meta] element: its attributes [name], [property], [content] and
    [charset], [None] when the attribute is absent. *)
Record Element := {
  attr_name : option string;
  attr_property : option string;
  attr_content : option string;
  attr_charset : option string
}.

Record MetaTag := {
  mt_url : string;
  mt_name : string;
  mt_content : string;
  mt_type : string
}.

Record OgTag := {
  og_url : string;
  og_property : option string;
  og_content : string;
  og_type : string
}.

(** [a || b] for an attribute [a] and a string [b]: an absent or empty
    attribute is falsy. *)
Definition orElse (a : option string) (b : string) : string :=
  match a with
  | Some s => if Js.isEmpty s then b else s
  | None => b
  end.

Definition typeOf (name : string) : string :=
  if Js.startsWith name "og:" then "Open Graph"
  else if Js.startsWith name "twitter:" then "Twitter"
  else if Js.startsWith name "fb:" then "Facebook"
  else "Standard".

(** The body of the first loop of [extractMetaTags]. *)
Definition metaTagOf (currentUrl : string) (el : Element) : option MetaTag :=
  let name := orElse (attr_name el) (orElse (attr_property el) "") in
  let content := orElse (attr_content el) "" in
  let charset := orElse (attr_charset el) "" in
  if negb (Js.isEmpty name) || negb (Js.isEmpty charset)
  then Some {| mt_url := currentUrl;
               mt_name := if Js.isEmpty name then "charset" else name;
               mt_content := if Js.isEmpty content then charset else content;
               mt_type := typeOf name |}
  else None.

(** The selector [meta[property^="og:"]]. *)
Definition isOg (el : Element) : bool :=
  match attr_property el with
  | Some p => Js.startsWith p "og:"
  | None => false
  end.

Definition ogTagOf (currentUrl : string) (el : Element) : OgTag :=
  {| og_url := currentUrl;
     og_property := attr_property el;
     og_content := orElse (attr_content el) "";
     og_type := "Open Graph" |}.

(** [extractMetaTags($, currentUrl)] on the [meta] elements of the page, in
    document order. *)
Definition extractMetaTags (metas : list Element) (currentUrl : string)
    : list MetaTag * list OgTag :=
  (omap (metaTagOf currentUrl) metas,
   ogTagOf currentUrl <$> filter (fun el => isOg el = true) metas).

End Meta.

(** ** Lighthouse results ([runLighthouseAnalysis]) *)

Module Lighthouse.

(** [audit?.numericValue || 0] for a finite number: a missing audit and the
    value 0 give 0. *)
Definition numericValue (audit : option Q) : Q :=
  match audit with
  | Some v => v
  | None => 0%Q
  end.

(** [Math.round(v)]: the nearest integer, halves upwards. *)
Definition round (v : Q) : Z := Qfloor (v + (1 # 2))%Q.

(** [v <= good ? "Good" : v <= poor ? "Needs Improvement" : "Poor"] *)
Definition status (good poor : Z) (v : Q) : string :=
  if Qle_bool v (inject_Z good) then "Good"
  else if Qle_bool v (inject_Z poor) then "Needs Improvement"
  else "Poor".

(** The fields [lcp], [fid], [ttfb] and their statuses in the result. *)
Definition lcp (audit : option Q) : Z * string :=
  (round (numericValue audit), status 2500 4000 (numericValue audit)).
Definition fid (audit : option Q) : Z * string :=
  (round (numericValue audit), status 100 300 (numericValue audit)).
Definition ttfb (audit : option Q) : Z * string :=
  (round (numericValue audit), status 800 1800 (numericValue audit)).

End Lighthouse.

(** ** Keyword density ([analyzeKeywords]) *)

Module Keywords.

(** The value of a property of [freq]: a number, or [NaN]. *)
Inductive Count :=
| Number (n : Z)
| NaN.

(** The properties every object inherits from [Object.prototype]; their
    values are truthy. *)
Definition inheritedNames : list string :=
  ["constructor"; "__proto__"; "hasOwnProperty"; "isPrototypeOf";
   "propertyIsEnumerable"; "toLocaleString"; "toString"; "valueOf";
   "__defineGetter__"; "__defineSetter__"; "__lookupGetter__";
   "__lookupSetter__"].

(** The own properties of [freq], in the order of their creation. *)
Definition Freq : Type := list (string * Count).

Fixpoint own (freq : Freq) (word : string) : option Count :=
  match freq with
  | [] => None
  | (key, value) :: rest =>
      if String.eqb key word then Some value else own rest word
  end.

(** Assignment to an own property. *)
Fixpoint assign (freq : Freq) (word : string) (value : Count) : Freq :=
  match freq with
  | [] => []
  | (key, old) :: rest =>
      if String.eqb key word then (key, value) :: rest
      else (key, old) :: assign rest word value
  end.

(** [if (!freq[word]) freq[word] = 0; freq[word]++;]
    An own number is incremented (an own [0] or [NaN] is first set to 0).
    Without an own property the value read is the inherited one, if there
    is one: it is truthy, so it is not initialised, and [++] stores [NaN] in
    a new own property; except for [__proto__], whose setter ignores the
    number.  Otherwise the property is created with 0 and incremented. *)
Definition countWord (freq : Freq) (word : string) : Freq :=
  match own freq word with
  | Some (Number n) => assign freq word (Number (n + 1))
  | Some NaN => assign freq word (Number 1)
  | None =>
      if String.eqb word "__proto__" then freq
      else if bool_decide (word ∈ inheritedNames)
      then freq ++ [(word, NaN)]
      else freq ++ [(word, Number 1)]
  end.

Definition isDigit (c : ascii) : bool :=
  let n := Ascii.N_of_ascii c in ((48 <=? n) && (n <=? 57))%N.

Fixpoint allDigits (s : string) : bool :=
  match s with
  | EmptyString => true
  | String c r => isDigit c && allDigits r
  end.

(** The number a string of digits denotes. *)
Fixpoint digitsValue (acc : N) (s : string) : N :=
  match s with
  | EmptyString => acc
  | String c r => digitsValue (10 * acc + (Ascii.N_of_ascii c - 48))%N r
  end.

(** An array index: the canonical decimal form of an integer from 0 to
    [2^32 - 2]. *)
Definition isArrayIndex (s : string) : bool :=
  match s with
  | EmptyString => false
  | String c r =>
      allDigits s
      && (negb (Ascii.eqb c "0"%char) || Js.isEmpty r)
      && (digitsValue 0 s <=? 4294967294)%N
  end.

(** Insertion of an index key in ascending order. *)
Fixpoint insertIndex (e : string * Count) (es : list (string * Count))
    : list (string * Count) :=
  match es with
  | [] => [e]
  | e' :: rest =>
      if (digitsValue 0 (fst e) <=? digitsValue 0 (fst e'))%N
      then e :: es
      else e' :: insertIndex e rest
  end.

(** [Object.entries(freq)]: the array indices in ascending order, then the
    other keys in the order of their creation. *)
Definition entries (freq : Freq) : list (string * Count) :=
  foldr insertIndex [] (filter (fun e => isArrayIndex (fst e) = true) freq)
  ++ filter (fun e => isArrayIndex (fst e) <> true) freq.

(** The entries as numbers; [None] when a count is [NaN]: the comparison
    function then returns [NaN] and the order of the result is left to the
    engine. *)
Fixpoint numbers (es : list (string * Count)) : option (list (string * Z)) :=
  match es with
  | [] => Some []
  | (key, Number n) :: rest =>
      match numbers rest with
      | Some ns => Some ((key, n) :: ns)
      | None => None
      end
  | (_, NaN) :: _ => None
  end.

(** [sort((a, b) => b[1] - a[1])], a stable sort: an entry goes before the
    first entry with a smaller count. *)
Fixpoint insertByCount (e : string * Z) (es : list (string * Z))
    : list (string * Z) :=
  match es with
  | [] => [e]
  | e' :: rest =>
      if snd e <? snd e' then e' :: insertByCount e rest else e :: es
  end.

Definition sortByCount (es : list (string * Z)) : list (string * Z) :=
  foldr insertByCount [] es.

(** [analyzeKeywords(text, limit)] on [words], the tokens of the lower-cased
    text, for a [limit] that is a natural number: the [keyword] and [count]
    of every row. *)
Definition analyzeKeywords (words : list string) (limit : nat)
    : option (list (string * Z)) :=
  match numbers (entries (foldl countWord [] words)) with
  | Some es => Some (take limit (sortByCount es))
  | None => None
  end.

(** The number of occurrences of a word. *)
Definition occurrences (words : list string) (word : string) : Z :=
  Z.of_nat (length (filter (fun w => w = word) words)).

(** The table after the loop over the words. *)
Definition tallied (freq : Freq) (words : list string) : Prop :=
  NoDup freq.*1
  /\ forall k, own freq k
               = if 0 <? occurrences words k
                 then Some (Number (occurrences words k)) else None.

End Keywords.

(** ** Audits of the page content *)

Module Audit.

(** The loop over [headings], the levels of the headings of the page in
    document order: an issue for every heading that is more than one level
    below the heading before it, with the two levels it names. *)
Fixpoint skippedLevels (previous : Z) (headings : list Z) : list (Z * Z) :=
  match headings with
  | [] => []
  | h :: rest =>
      if 1 <? h - previous
      then (previous, h) :: skippedLevels h rest
      else skippedLevels h rest
  end.

Definition headingIssues (headings : list Z) : list (Z * Z) :=
  match headings with
  | [] => []
  | first :: rest => skippedLevels first rest
  end.

End Audit.

(** ** Calls to the AI services ([callOpenRouterAI]) *)

Module Ai.

(** The parsed body of an answer, by the tests of [callOpenRouterAI]. *)
Inductive Body :=
| GeminiParts (text : option string)
    (* [data.candidates[0].content.parts[0]] is there; its [text] *)
| GeminiNoParts
    (* [data.candidates[0].content] without [parts[0]] *)
| Choices (content : option string)
    (* [data.choices[0].message]; its [content] *)
| UnknownFormat.

(** What awaiting one request gives. *)
Inductive Reply :=
| Thrown (message : string)
    (* [fetch], the timeout or [response.json()] rejects with this message;
       the timeout rejects with [AI analysis timeout] *)
| NotOk (status : Z) (statusText : string)
    (* [!response.ok]; [statusText] is the status as the template literal
       writes it *)
| Ok (body : Body).

Inductive Result :=
| Returned (text : option string)
| Failed (message : string).

Definition timedOut : string :=
  "AI analysis timed out. The website data is too large. Please try with a smaller website or contact support.".
Definition busy : string :=
  "AI service is busy. Please wait 30 seconds and try again.".
Definition failed : string :=
  "AI analysis failed. Please try again later.".

(** The [catch] of [callOpenRouterAI]; [retry] is the result of
    [callOpenRouterAI(prompt, systemPrompt, true)]. *)
Definition catchError (useFallback : bool) (message : string) (retry : Result)
    : Result :=
  if String.eqb message "AI analysis timeout" then Failed timedOut
  else if Text.includes message "Rate limit exceeded" then
    if negb useFallback then retry else Failed busy
  else Failed failed.

(** One call of [callOpenRouterAI] from the answer to its request. *)
Definition attempt (useFallback : bool) (reply : Reply) (retry : Result)
    : Result :=
  match reply with
  | Thrown message => catchError useFallback message retry
  | NotOk status statusText =>
      if status =? 429 then
        if negb useFallback then retry
        else catchError useFallback
               "Rate limit exceeded on both APIs. Please wait 30 seconds and try again."
               retry
      else if status =? 503 then
        if negb useFallback then retry
        else catchError useFallback
               "Both AI services are temporarily unavailable. Please try again later."
               retry
      else catchError useFallback ("API error: " +:+ statusText) retry
  | Ok (GeminiParts text) => Returned text
  | Ok GeminiNoParts =>
      catchError useFallback "Invalid Gemini API response format" retry
  | Ok (Choices content) => Returned content
  | Ok UnknownFormat =>
      catchError useFallback "Unknown API response format" retry
  end.

(** [callOpenRouterAI(prompt, systemPrompt)]: [primary] answers the request
    to Gemini, [fallback] the request to DeepSeek if it is sent.  The call
    with [useFallback] set never calls itself again. *)
Definition callOpenRouterAI (primary fallback : Reply) : Result :=
  attempt false primary (attempt true fallback (Failed failed)).

(** The primary answers after which the fallback request is sent. *)
Definition fallsBack (primary : Reply) : bool :=
  match primary with
  | Thrown message =>
      negb (String.eqb message "AI analysis timeout")
      && Text.includes message "Rate limit exceeded"
  | NotOk status statusText =>
      (status =? 429) || (status =? 503)
      || Text.includes ("API error: " +:+ statusText) "Rate limit exceeded"
  | Ok _ => false
  end.

End Ai.

(** ** Word count of a page *)

Module Words.

(** [text.split(/\s+/)] with the white space of the ASCII range: the
    pieces between the runs of white space.  [piece] is the piece being
    read; [inRun] tells that the last character read was white space. *)
Fixpoint splitFrom (piece : string) (inRun : bool) (text : string)
    : list string :=
  match text with
  | EmptyString => [piece]
  | String c rest =>
      if Js.isWhite c then
        if inRun then splitFrom piece true rest
        else piece :: splitFrom EmptyString true rest
      else splitFrom (piece +:+ String c EmptyString) false rest
  end.

Definition split (text : string) : list string :=
  splitFrom EmptyString false text.

(** [wordCount: $("body").text().split(/\s+/).length] *)
Definition wordCount (text : string) : nat := length (split text).

(** The number of words of a text: of its maximal runs of characters that
    are not white space.  [inWord] tells that the last character read was
    part of a word. *)
Fixpoint wordsFrom (inWord : bool) (text : string) : nat :=
  match text with
  | EmptyString => 0
  | String c rest =>
      if Js.isWhite c then wordsFrom false rest
      else if inWord then wordsFrom true rest
      else S (wordsFrom true rest)
  end.

Definition words (text : string) : nat := wordsFrom false text.

(** The text starts, or ends, with white space. *)
Definition startsWhite (text : string) : bool :=
  match text with
  | EmptyString => false
  | String c _ => Js.isWhite c
  end.

Fixpoint endsWhite (text : string) : bool :=
  match text with
  | EmptyString => false
  | String c EmptyString => Js.isWhite c
  | String _ rest => endsWhite rest
  end.

End Words.

(** ** Header cells of the workbook *)

Module Workbook.

Definition isUpper (c : ascii) : bool :=
  let n := Ascii.N_of_ascii c in ((65 <=? n) && (n <=? 90))%N.

Definition isLower (c : ascii) : bool :=
  let n := Ascii.N_of_ascii c in ((97 <=? n) && (n <=? 122))%N.

(** [s.toUpperCase()] in the ASCII range. *)
Fixpoint toUpperCase (s : string) : string :=
  match s with
  | EmptyString => EmptyString
  | String c r =>
      String (if isLower c then Ascii.ascii_of_N (Ascii.N_of_ascii c - 32)
              else c)
             (toUpperCase r)
  end.

(** The string has a lower-case letter. *)
Fixpoint hasLower (s : string) : bool :=
  match s with
  | EmptyString => false
  | String c r => isLower c || hasLower r
  end.

(** [/^[A-Z]+1$/] after the first letter. *)
Fixpoint lettersThenOne (s : string) : bool :=
  match s with
  | EmptyString => false
  | String c r =>
      if isUpper c then lettersThenOne r
      else Ascii.eqb c "1"%char && Js.isEmpty r
  end.

(** [k.match(/^[A-Z]+1$/)]: the address of a cell of the first row. *)
Definition isHeaderCell (k : string) : bool :=
  match k with
  | EmptyString => false
  | String c r => isUpper c && lettersThenOne r
  end.

(** [String(val)] for the value of a cell: a string, or an integer in
    decimal digits. *)
Definition toString (v : JsValue) : string :=
  match v with
  | Str s => s
  | Num n => pretty n
  end.

(** [capitalizeHeaders(ws)] on the values [ws[cell].v] of the worksheet. *)
Definition capitalizeHeaders (ws : gmap string JsValue) : gmap string JsValue :=
  map_imap (fun cell val =>
              Some (if isHeaderCell cell then Str (toUpperCase (toString val))
                    else val)) ws.

(** [row[key]] *)
Fixpoint get (row : Row) (key : string) : option JsValue :=
  match row with
  | [] => None
  | (k, v) :: rest => if String.eqb k key then Some v else get rest key
  end.

(** [v || 0] for a property that may be missing. *)
Definition orZero (v : option JsValue) : JsValue :=
  match v with
  | Some (Num n) => if n =? 0 then Num 0 else Num n
  | Some (Str s) => if Js.isEmpty s then Num 0 else Str s
  | None => Num 0
  end.

(** What [consolidateReports] adds to its four totals for the first row of
    the sheet [Crawl Summary]; [parseInt] is the function of the
    platform. *)
Definition summaryCounts {N : Type} (parseInt : JsValue -> N) (summary : Row)
    : N * N * N * N :=
  (parseInt (orZero (get summary "Pages Scanned")),
   parseInt (orZero (get summary "Working Links")),
   parseInt (orZero (get summary "Broken Links")),
   parseInt (orZero (get summary "Errors"))).

(** [summary[a] || summary[b] || 0] *)
Definition firstOf (summary : Row) (a b : string) : JsValue :=
  match orZero (get summary a) with
  | Num 0 => orZero (get summary b)
  | v => v
  end.

(** The numbers [generateCrawlSummarySection] shows. *)
Definition summarySection (summary : Row) : list JsValue :=
  [firstOf summary "Pages Scanned" "pagesScanned";
   firstOf summary "Working Links" "workingLinks";
   firstOf summary "Broken Links" "brokenLinks";
   firstOf summary "Errors" "errors";
   firstOf summary "Average Response Time (ms)" "avgResponseTime"].

End Workbook.

(** ** The batch loop of [runCrawl] in [src/crawler.js] *)

Module BatchLoop.

(** An event of a call in flight: not a new call, not the loop. *)
Definition isPageEvent (e : Crawler.Event) : bool :=
  match e with
  | Crawler.Call _ _ | Crawler.Splice => false
  | _ => true
  end.

(** Every call that passed the guard has finished. *)
Definition settled (c : Crawler.Crawl) : Prop :=
  Forall (fun t => Crawler.task_stage t = Crawler.Finished) (Crawler.tasks c).

(** Every call is finished or has just passed the guard. *)
Definition started (c : Crawler.Crawl) : Prop :=
  Forall (fun t => Crawler.task_stage t = Crawler.Rendering
                   \/ Crawler.task_stage t = Crawler.Finished)
         (Crawler.tasks c).

(** The calls [crawlPage(link, ...)] of [batch.map], in the order of the
    batch; [clock] is the reading of [Date.now()] at a call. *)
Definition callAll (clock : Crawler.Crawl -> Z) (c : Crawler.Crawl)
    (batch : list string) : Crawler.Crawl :=
  foldl (fun c link => Crawler.crawlPage c link (clock c)) c batch.

(** One turn of the loop: [queue.splice(0, CONCURRENT_REQUESTS)], the
    calls of the batch, and what the pages, the resources and the fallback
    answer until [Promise.all] is resolved; [answers] gives these events
    from the state after the calls. *)
Definition turn `{UrlApi} (base baseDomain : string)
    (answers : Crawler.Crawl -> list Crawler.Event)
    (clock : Crawler.Crawl -> Z) (c : Crawler.Crawl) : Crawler.Crawl :=
  let batch := take Crawler.CONCURRENT_REQUESTS (Crawler.queue c) in
  let called :=
    callAll clock (Crawler.step base baseDomain base c Crawler.Splice) batch in
  Crawler.run base baseDomain base (answers called) called.

(** [while (queue.length > 0 && visited.size < MAX_PAGES) { ... }];
    [fuel] bounds the number of turns. *)
Fixpoint loop `{UrlApi} (fuel : nat) (base baseDomain : string)
    (answers : Crawler.Crawl -> list Crawler.Event)
    (clock : Crawler.Crawl -> Z) (c : Crawler.Crawl)
    : option Crawler.Crawl :=
  match fuel with
  | O => None
  | S fuel' =>
      if negb (bool_decide (Crawler.queue c = []))
         && (Z.of_nat (size (visited (Crawler.session c)))
             <? Crawler.MAX_PAGES)
      then loop fuel' base baseDomain answers clock
             (turn base baseDomain answers clock c)
      else Some c
  end.

(** The answers to the calls of a batch are events of calls in flight and
    end every call, as [Promise.all] waits for all of them. *)
Definition answersSettle `{UrlApi} (base baseDomain : string)
    (answers : Crawler.Crawl -> list Crawler.Event) : Prop :=
  forall c,
    started c ->
    Forall (fun e => isPageEvent e = true) (answers c)
    /\ settled (Crawler.run base baseDomain base (answers c) c).

(** Answers that end every call: each call that is rendering fails, and
    its fallback fails too. *)
Definition allFail (c : Crawler.Crawl) : list Crawler.Event :=
  flat_map (fun i : nat =>
              [Crawler.Failed i {| err_responseStatus := None;
                                   err_code := None;
                                   err_message := "net::ERR_FAILED" |};
               Crawler.FallbackFailed i])
           (seq 0 (length (Crawler.tasks c))).

End BatchLoop.

(** * Properties *)

(** ** Strings *)





(** ** The link loop *)

Section LinkLoop.
Context {U : UrlApi} (MAX : Z).
Implicit Types (vis : gset string) (acc : list string * list ExternalRecord).

(** One link either leaves the queue and the external links alone, or
    pushes an internal URL on the queue, or pushes an external record. *)
Lemma processLink_effect vis cur base bd acc link :
  let r := processLink MAX vis cur base bd acc link in
  r = acc
  \/ (exists fullHref,
        resolveHref (cleanHref (fst link)) base = Some fullHref
        /\ isInternal fullHref base bd = true
        /\ r = (fst acc ++ [fullHref], snd acc))
  \/ (exists fullHref,
        resolveHref (cleanHref (fst link)) base = Some fullHref
        /\ isInternal fullHref base bd = false
        /\ r = (fst acc,
                snd acc ++ [{| ext_from := cur; ext_to := fullHref;
                               ext_linkData := None |}])).
Proof.
  unfold processLink.
  destruct (notCrawlable _); [now left|].
  destruct (resolveHref _ base) as [fullHref|]; [|now left].
  destruct (isInternal fullHref base bd) eqn:Hint.
  - destruct (_ <? _); [|now left].
    destruct (_ && _); [|now left].
    right; left. now exists fullHref.
  - pose proof Hint as Hint'.
    unfold isInternal in Hint'. apply orb_false_iff in Hint' as [H1 H2].
    rewrite H1, H2. simpl.
    right; right. now exists fullHref.
Qed.


Lemma processLink_external vis cur base bd acc link fullHref :
  notCrawlable (cleanHref (fst link)) = false ->
  resolveHref (cleanHref (fst link)) base = Some fullHref ->
  isInternal fullHref base bd = false ->
  processLink MAX vis cur base bd acc link
  = (fst acc, snd acc ++ [{| ext_from := cur; ext_to := fullHref;
                             ext_linkData := None |}]).
Proof.
  intros Hn Hr Hi. unfold processLink. rewrite Hn, Hr, Hi.
  unfold isInternal in Hi. apply orb_false_iff in Hi as [-> ->]. reflexivity.
Qed.

(** The loop only appends: internal URLs to the queue, records to the
    external links. *)
Lemma processLinks_appends vis cur base bd links acc :
  exists added more,
    processLinks MAX vis cur base bd links acc = (fst acc ++ added, snd acc ++ more)
    /\ Forall (fun u => isInternal u base bd = true) added.
Proof.
  revert acc. induction links as [|link links IH]; intros acc.
  - exists [], []. simpl. rewrite !app_nil_r. now destruct acc.
  - unfold processLinks in *. simpl.
    destruct (IH (processLink MAX vis cur base bd acc link))
      as (added & more & -> & Hall).
    destruct (processLink_effect vis cur base bd acc link)
      as [-> | [(h & _ & Hi & ->) | (h & _ & _ & ->)]]; simpl.
    + now exists added, more.
    + exists (h :: added), more. rewrite <- app_assoc. simpl. auto.
    + eexists added, (_ :: more). rewrite <- app_assoc. simpl. eauto.
Qed.

Lemma processLinks_external vis cur base bd links acc link fullHref :
  link ∈ links ->
  notCrawlable (cleanHref (fst link)) = false ->
  resolveHref (cleanHref (fst link)) base = Some fullHref ->
  isInternal fullHref base bd = false ->
  {| ext_from := cur; ext_to := fullHref; ext_linkData := None |}
    ∈ snd (processLinks MAX vis cur base bd links acc).
Proof.
  intros Hin Hn Hr Hi. revert acc.
  induction links as [|l links IH]; intros acc; [by apply elem_of_nil in Hin|].
  unfold processLinks in *. simpl.
  apply elem_of_cons in Hin as [<- | Hin]; [|by apply IH].
  rewrite (processLink_external vis cur base bd acc link fullHref Hn Hr Hi).
  destruct (processLinks_appends vis cur base bd links
              (fst acc, snd acc ++ [{| ext_from := cur; ext_to := fullHref;
                                       ext_linkData := None |}]))
    as (added & more & Heq & _).
  unfold processLinks in Heq. rewrite Heq. simpl.
  apply elem_of_app; left. apply elem_of_app; right. now apply list_elem_of_singleton.
Qed.

End LinkLoop.







(** ** Admission *)

Section Admission.
Context (MAX : Z).

Lemma rejects_false (s : Session) (u : string) :
  rejects MAX s u = false ->
  (u ∉ visited s) /\ Z.of_nat (size (visited s)) < MAX.
Proof.
  unfold rejects, budgetReached. intros H.
  apply orb_false_iff in H as [Hv Hb].
  apply bool_decide_eq_false in Hv. apply Z.leb_gt in Hb. auto.
Qed.

Lemma rejects_true (s : Session) (u : string) :
  u ∈ visited s \/ MAX <= Z.of_nat (size (visited s)) ->
  rejects MAX s u = true.
Proof.
  unfold rejects, budgetReached. intros [Hv | Hb].
  - now rewrite (bool_decide_eq_true_2 _ Hv).
  - apply Z.leb_le in Hb. rewrite Hb. apply orb_true_r.
Qed.

Lemma markVisited_size (s : Session) (u : string) :
  rejects MAX s u = false ->
  size (visited (markVisited s u)) = S (size (visited s))
  /\ Z.of_nat (size (visited (markVisited s u))) <= MAX.
Proof.
  intros H. apply rejects_false in H as [Hv Hb]. simpl.
  assert (size ({[u]} ∪ visited s) = S (size (visited s))) as ->.
  { rewrite size_union by set_solver. now rewrite size_singleton. }
  split; [reflexivity|lia].
Qed.

End Admission.

Lemma list_fmap_insert_same {A B} (f : A -> B) (l : list A) (i : nat) (x y : A) :
  l !! i = Some x -> f y = f x -> f <$> <[i := y]> l = f <$> l.
Proof.
  intros Hl Hf. rewrite list_fmap_insert. apply list_insert_id.
  rewrite list_lookup_fmap, Hl. simpl. congruence.
Qed.

(** ** Runs of [src/unnamed/part_000] *)

Section Part000Runs.
Context {U : UrlApi} (base bd : string).
Import Part000.

Local Abbreviation step := (Part000.step base bd).
Local Abbreviation run := (Part000.run base bd).

Lemma run_app_part000 (evs1 evs2 : list Event) (c : Crawl) :
  run (evs1 ++ evs2) c = run evs2 (run evs1 c).
Proof. apply foldl_app. Qed.

Lemma run_snoc_part000 (evs : list Event) (e : Event) (c : Crawl) :
  run (evs ++ [e]) c = step (run evs c) e.
Proof. unfold Part000.run. now rewrite foldl_app. Qed.

(** A step is an admission, which appends a rendering task for a URL that
    the guard lets through, or it leaves [visited] and the URLs of the tasks
    as they are. *)
Lemma step_admission_part000 (c : Crawl) (e : Event) :
  (visited (session (step c e)) = visited (session c)
   /\ task_url <$> tasks (step c e) = task_url <$> tasks c)
  \/ (exists url now,
        e = Call url now
        /\ rejects MAX_PAGES (session c) (normalizeUrl url) = false
        /\ session (step c e) = markVisited (session c) (normalizeUrl url)
        /\ queue (step c e) = queue c
        /\ tasks (step c e)
           = tasks c ++ [{| task_url := normalizeUrl url; task_start := now;
                            task_stage := Rendering |}]).
Proof.
  destruct e; unfold Part000.step, Part000.crawlPage; repeat case_match; simpl;
    try (left; split; [reflexivity|]);
    try reflexivity;
    try (eapply list_fmap_insert_same; [eassumption|reflexivity]).
  right. eauto 10.
Qed.

Lemma step_budget_part000 (c : Crawl) (e : Event) :
  Z.of_nat (size (visited (session c))) <= MAX_PAGES ->
  Z.of_nat (size (visited (session (step c e)))) <= MAX_PAGES.
Proof.
  intros Hc.
  destruct (step_admission_part000 c e) as [[-> _] | (url & now & _ & Hr & -> & _)];
    [assumption|].
  by apply markVisited_size.
Qed.

Lemma run_budget_part000 (evs : list Event) (c : Crawl) :
  Z.of_nat (size (visited (session c))) <= MAX_PAGES ->
  Z.of_nat (size (visited (session (run evs c)))) <= MAX_PAGES.
Proof.
  revert c. induction evs as [|e evs IH]; intros c Hc; [exact Hc|].
  simpl. apply IH. by apply step_budget_part000.
Qed.

(** The tasks are the calls that passed the guard: their URLs are pairwise
    distinct and in [visited]. *)
Lemma step_tasks_part000 (c : Crawl) (e : Event) :
  NoDup (task_url <$> tasks c) ->
  (forall u, u ∈ task_url <$> tasks c -> u ∈ visited (session c)) ->
  NoDup (task_url <$> tasks (step c e))
  /\ (forall u, u ∈ task_url <$> tasks (step c e) ->
      u ∈ visited (session (step c e))).
Proof.
  intros Hnd Hsub.
  destruct (step_admission_part000 c e)
    as [[-> ->] | (url & now & _ & Hr & -> & _ & ->)]; [auto|].
  apply (rejects_false MAX_PAGES) in Hr as [Hv _].
  rewrite fmap_app. simpl. split.
  - apply NoDup_app. split; [assumption|]. split.
    + intros u Hu Hu'. apply list_elem_of_singleton in Hu' as ->. auto.
    + apply NoDup_singleton.
  - intros u Hu. apply elem_of_app in Hu as [Hu | Hu].
    + apply elem_of_union. right. auto.
    + apply list_elem_of_singleton in Hu as ->. apply elem_of_union. left.
      by apply elem_of_singleton.
Qed.

Lemma run_tasks_part000 (evs : list Event) (c : Crawl) :
  NoDup (task_url <$> tasks c) ->
  (forall u, u ∈ task_url <$> tasks c -> u ∈ visited (session c)) ->
  NoDup (task_url <$> tasks (run evs c))
  /\ (forall u, u ∈ task_url <$> tasks (run evs c) ->
      u ∈ visited (session (run evs c))).
Proof.
  revert c. induction evs as [|e evs IH]; intros c Hnd Hsub; [auto|].
  simpl. destruct (step_tasks_part000 c e Hnd Hsub). by apply IH.
Qed.

Lemma run_start_tasks_part000 (evs : list Event) (s : Session) (q : list string) :
  NoDup (task_url <$> tasks (run evs (start s q)))
  /\ (forall u, u ∈ task_url <$> tasks (run evs (start s q)) ->
      u ∈ visited (session (run evs (start s q)))).
Proof.
  apply run_tasks_part000; simpl; [apply NoDup_nil; exact I|].
  intros u Hu. by apply elem_of_nil in Hu.
Qed.

(** A call is either rejected, and then nothing changes, or admitted. *)
Lemma step_call_part000 (c : Crawl) (url : string) (now : Z) :
  (rejects MAX_PAGES (session c) (normalizeUrl url) = true
   /\ crawlPage c url now = c)
  \/ (rejects MAX_PAGES (session c) (normalizeUrl url) = false
      /\ tasks (crawlPage c url now)
         = tasks c ++ [{| task_url := normalizeUrl url; task_start := now;
                          task_stage := Rendering |}]).
Proof.
  unfold Part000.step, Part000.crawlPage.
  destruct (rejects MAX_PAGES (session c) (normalizeUrl url));
    [left|right]; auto.
Qed.

(** *** The fingerprint index along a run *)












(** *** Normalised URLs *)

Lemma normalizeUrl_fixed (url : string) :
  (forall u h h', URL_href u = Some h -> URL_href h = Some h' -> h' = h) ->
  normalizeUrl (normalizeUrl url) = normalizeUrl url.
Proof.
  intros Hfix. unfold normalizeUrl.
  destruct (URL_href url) as [h|] eqn:E.
  - destruct (URL_href h) as [h'|] eqn:E'; [|reflexivity].
    exact (Hfix url h h' E E').
  - now rewrite E.
Qed.

Lemma run_normalized_part000 (evs : list Event) (c : Crawl) :
  (forall u h h', URL_href u = Some h -> URL_href h = Some h' -> h' = h) ->
  (forall x, x ∈ visited (session c) -> normalizeUrl x = x) ->
  forall x, x ∈ visited (session (run evs c)) -> normalizeUrl x = x.
Proof.
  intros Hfix. revert c. induction evs as [|e evs IH]; intros c Hc; [exact Hc|].
  simpl. apply IH. intros x.
  destruct (step_admission_part000 c e) as [[-> _] | (url & now & _ & _ & -> & _)];
    [apply Hc|].
  simpl. intros Hx. apply elem_of_union in Hx as [Hx | Hx]; [|by apply Hc].
  apply elem_of_singleton in Hx as ->. by apply normalizeUrl_fixed.
Qed.

End Part000Runs.

(** ** Runs of [src/crawler.js] *)

Section CrawlerRuns.
Context {U : UrlApi} (base bd main : string).
Import Crawler.

Local Abbreviation step := (Crawler.step base bd main).
Local Abbreviation run := (Crawler.run base bd main).

Lemma run_app_crawler (evs1 evs2 : list Event) (c : Crawl) :
  run (evs1 ++ evs2) c = run evs2 (run evs1 c).
Proof. apply foldl_app. Qed.

Lemma run_snoc_crawler (evs : list Event) (e : Event) (c : Crawl) :
  run (evs ++ [e]) c = step (run evs c) e.
Proof. unfold Crawler.run. now rewrite foldl_app. Qed.

(** A step is an admission, which appends a rendering task for a URL that
    the guard lets through, or it leaves [visited] and the URLs of the tasks
    as they are. *)
Lemma step_admission_crawler (c : Crawl) (e : Event) :
  (visited (session (step c e)) = visited (session c)
   /\ task_url <$> tasks (step c e) = task_url <$> tasks c)
  \/ (exists url now,
        e = Call url now
        /\ rejects MAX_PAGES (session c) url = false
        /\ session (step c e) = markVisited (session c) url
        /\ queue (step c e) = queue c
        /\ tasks (step c e)
           = tasks c ++ [{| task_url := url; task_start := now;
                            task_stage := Rendering |}]).
Proof.
  destruct e; unfold Crawler.step, Crawler.crawlPage; repeat case_match; simpl;
    try (left; split; [reflexivity|]);
    try reflexivity;
    try (eapply list_fmap_insert_same; [eassumption|reflexivity]).
  right. eauto 10.
Qed.

Lemma step_budget_crawler (c : Crawl) (e : Event) :
  Z.of_nat (size (visited (session c))) <= MAX_PAGES ->
  Z.of_nat (size (visited (session (step c e)))) <= MAX_PAGES.
Proof.
  intros Hc.
  destruct (step_admission_crawler c e) as [[-> _] | (url & now & _ & Hr & -> & _)];
    [assumption|].
  by apply markVisited_size.
Qed.

Lemma run_budget_crawler (evs : list Event) (c : Crawl) :
  Z.of_nat (size (visited (session c))) <= MAX_PAGES ->
  Z.of_nat (size (visited (session (run evs c)))) <= MAX_PAGES.
Proof.
  revert c. induction evs as [|e evs IH]; intros c Hc; [exact Hc|].
  simpl. apply IH. by apply step_budget_crawler.
Qed.




(** A call is either rejected, and then nothing changes, or admitted. *)
Lemma step_call_crawler (c : Crawl) (url : string) (now : Z) :
  (rejects MAX_PAGES (session c) url = true
   /\ crawlPage c url now = c)
  \/ (rejects MAX_PAGES (session c) url = false
      /\ tasks (crawlPage c url now)
         = tasks c ++ [{| task_url := url; task_start := now;
                          task_stage := Rendering |}]).
Proof.
  unfold Crawler.step, Crawler.crawlPage.
  destruct (rejects MAX_PAGES (session c) url);
    [left|right]; auto.
Qed.

(** *** The fingerprint index along a run *)










End CrawlerRuns.

(** ** The page budget *)

(** Claim C3.  In both revisions, whatever the module state was when
    [runCrawl] is called and however the calls of [crawlPage] interleave,
    the size of [visited] is at most [MAX_PAGES] after every sequence of
    steps, and a step that makes [visited] grow starts from a set whose size
    is strictly below [MAX_PAGES]. *)
Theorem budget_ceiling `{UrlApi} (base bd main : string) (s : Session) (now : Z)
    (q : list string) :
  (forall evs,
     Z.of_nat (size (visited (Part000.session
        (Part000.run base bd evs (Part000.start (runCrawl_reset s now) q)))))
     <= Part000.MAX_PAGES)
  /\ (forall evs,
        Z.of_nat (size (visited (Crawler.session
           (Crawler.run base bd main evs
              (Crawler.start (runCrawl_reset s now) q)))))
        <= Crawler.MAX_PAGES)
  /\ (forall c e,
        size (visited (Part000.session (Part000.step base bd c e)))
        <> size (visited (Part000.session c)) ->
        Z.of_nat (size (visited (Part000.session c))) < Part000.MAX_PAGES)
  /\ (forall c e,
        size (visited (Crawler.session (Crawler.step base bd main c e)))
        <> size (visited (Crawler.session c)) ->
        Z.of_nat (size (visited (Crawler.session c))) < Crawler.MAX_PAGES).
Proof.
  split; [|split; [|split]].
  - intros evs. apply run_budget_part000.
    cbn [Part000.start Part000.session runCrawl_reset visited].
    rewrite size_empty. done.
  - intros evs. apply run_budget_crawler.
    cbn [Crawler.start Crawler.session runCrawl_reset visited].
    rewrite size_empty. done.
  - intros c e Hne.
    destruct (step_admission_part000 base bd c e)
      as [[Heq _] | (url & t & _ & Hr & _)].
    + now rewrite Heq in Hne.
    + by apply rejects_false in Hr as [_ ?].
  - intros c e Hne.
    destruct (step_admission_crawler base bd main c e)
      as [[Heq _] | (url & t & _ & Hr & _)].
    + now rewrite Heq in Hne.
    + by apply rejects_false in Hr as [_ ?].
Qed.

Lemma budget_ceiling_witness :
  Z.of_nat (size (visited (Part000.session
     (Part000.start (initialSession 0) ["https://example.com/"]))))
  < Part000.MAX_PAGES
  /\ Z.of_nat (size (visited (Crawler.session
        (Crawler.start (initialSession 0) ["https://example.com/"]))))
     < Crawler.MAX_PAGES.
Proof.
  pose proof (budget_ceiling (H := UrlModel.api) "https://example.com/"
                "https://example.com" "https://example.com/"
                (initialSession 0) 0 []) as (_ & _ & H3 & H4).
  split.
  - refine (H3 (Part000.start (initialSession 0) ["https://example.com/"])
               (Part000.Call "https://example.com/" 0) _).
    vm_compute. discriminate.
  - refine (H4 (Crawler.start (initialSession 0) ["https://example.com/"])
               (Crawler.Call "https://example.com/" 0) _).
    vm_compute. discriminate.
Defined.

(** ** Admission *)

(** Claim C4.  In a crawl of [part_000], the calls of [crawlPage] that pass
    the guard have pairwise distinct normalised URLs, all of them in
    [visited]; a call whose normalised URL is in [visited] changes nothing,
    a call that is admitted is one whose URL was not in [visited], and below
    the budget a call for a URL that is not in [visited] is admitted and
    marks it.  So of the calls that receive the same URL, however they are
    scheduled, at most one does the work: the first one that finds room. *)
Theorem admission_at_most_once `{UrlApi} (base bd : string) (s : Session)
    (q : list string) (evs : list Part000.Event) :
  let c := Part000.run base bd evs (Part000.start s q) in
  NoDup (Part000.task_url <$> Part000.tasks c)
  /\ (forall u, u ∈ Part000.task_url <$> Part000.tasks c ->
      u ∈ visited (Part000.session c))
  /\ (forall url now,
        Part000.normalizeUrl url ∈ visited (Part000.session c) ->
        Part000.crawlPage c url now = c)
  /\ (forall url now,
        Part000.tasks (Part000.crawlPage c url now)
        <> Part000.tasks c ->
        (Part000.normalizeUrl url ∉ visited (Part000.session c))
        /\ Part000.tasks (Part000.crawlPage c url now)
           = Part000.tasks c
             ++ [{| Part000.task_url := Part000.normalizeUrl url;
                    Part000.task_start := now;
                    Part000.task_stage := Part000.Rendering |}])
  /\ (forall url now,
        Part000.normalizeUrl url ∉ visited (Part000.session c) ->
        Z.of_nat (size (visited (Part000.session c))) < Part000.MAX_PAGES ->
        Part000.normalizeUrl url
          ∈ visited (Part000.session (Part000.crawlPage c url now))
        /\ Part000.tasks (Part000.crawlPage c url now)
           = Part000.tasks c
             ++ [{| Part000.task_url := Part000.normalizeUrl url;
                    Part000.task_start := now;
                    Part000.task_stage := Part000.Rendering |}]).
Proof.
  intros c. subst c.
  destruct (run_start_tasks_part000 base bd evs s q) as [Hnd Hsub].
  split; [exact Hnd|]. split; [exact Hsub|]. split; [|split].
  - intros url now Hv.
    destruct (step_call_part000
                (Part000.run base bd evs (Part000.start s q)) url now)
      as [[_ Heq] | [Hr _]]; [exact Heq|].
    apply rejects_false in Hr as [Hn _]. contradiction.
  - intros url now Hne.
    destruct (step_call_part000
                (Part000.run base bd evs (Part000.start s q)) url now)
      as [[_ Heq] | [Hr Heq]].
    + now rewrite Heq in Hne.
    + apply rejects_false in Hr as [Hn _]. auto.
  - intros url now Hn Hb. unfold Part000.crawlPage.
    assert (rejects Part000.MAX_PAGES
              (Part000.session (Part000.run base bd evs (Part000.start s q)))
              (Part000.normalizeUrl url) = false) as ->.
    { unfold rejects, budgetReached.
      rewrite (bool_decide_eq_false_2 _ Hn). simpl. by apply Z.leb_gt. }
    simpl. split; [|reflexivity].
    apply elem_of_union. left. by apply elem_of_singleton.
Qed.

Lemma admission_at_most_once_witness :
  let c := Part000.run (H := UrlModel.api) "https://example.com/"
             "https://example.com"
             [Part000.Call "https://example.com/a" 0;
              Part000.Call "https://example.com/a" 1]
             (Part000.start (initialSession 0) []) in
  "https://example.com/a" ∈ visited (Part000.session c)
  /\ Part000.crawlPage (H := UrlModel.api) c "https://example.com/a" 2 = c
  /\ ("https://example.com/b" ∉ visited (Part000.session c))
  /\ "https://example.com/b"
     ∈ visited (Part000.session
         (Part000.crawlPage (H := UrlModel.api) c "https://example.com/b" 2)).
Proof.
  intros c.
  pose proof (admission_at_most_once (H := UrlModel.api) "https://example.com/"
                "https://example.com" (initialSession 0) []
                [Part000.Call "https://example.com/a" 0;
                 Part000.Call "https://example.com/a" 1])
    as (_ & H2 & H3 & H4 & H5).
  split; [|split; [|split]].
  - apply H2. apply (bool_decide_unpack _). vm_compute. exact I.
  - apply H3. apply (bool_decide_unpack _). vm_compute. exact I.
  - refine (proj1 (H4 "https://example.com/b" 2 _)).
    vm_compute. discriminate.
  - refine (proj1 (H5 "https://example.com/b" 2 _ _)).
    + apply (bool_decide_unpack _). vm_compute. exact I.
    + vm_compute. reflexivity.
Defined.

Example two_calls_one_task :
  Part000.task_url <$> Part000.tasks
    (Part000.run (H := UrlModel.api) "https://example.com/" "https://example.com"
       [Part000.Call "https://example.com/a" 0;
        Part000.Call "https://example.com/a" 1;
        Part000.Call "https://example.com/b" 2]
       (Part000.start (initialSession 0) []))
  = ["https://example.com/a"; "https://example.com/b"].
Proof. reflexivity. Qed.

(** Claim C10.  A call of [crawlPage] whose URL is in [visited] (in
    [part_000]: whose normalised URL is), or that finds [visited] at
    [MAX_PAGES], returns at the guard: the session with all its arrays, the
    fingerprint index and the counters, the pending queue and the calls in
    flight are what they were.  In a crawl of [part_000] every member of
    [visited] is its own normalisation when the serialisation of a URL parses
    to itself, so the guard also stops a call that receives a member of
    [visited] as it is. *)
Theorem rejected_call_changes_nothing `{UrlApi} :
  (forall c url now,
     url ∈ visited (Crawler.session c)
     \/ Crawler.MAX_PAGES <= Z.of_nat (size (visited (Crawler.session c))) ->
     Crawler.crawlPage c url now = c)
  /\ (forall c url now,
        Part000.normalizeUrl url ∈ visited (Part000.session c)
        \/ Part000.MAX_PAGES <= Z.of_nat (size (visited (Part000.session c))) ->
        Part000.crawlPage c url now = c)
  /\ ((forall u h h', URL_href u = Some h -> URL_href h = Some h' -> h' = h) ->
      forall base bd s t0 q evs url now,
        let c := Part000.run base bd evs
                   (Part000.start (runCrawl_reset s t0) q) in
        url ∈ visited (Part000.session c) ->
        Part000.crawlPage c url now = c).
Proof.
  split; [|split].
  - intros c url now Hg. unfold Crawler.crawlPage.
    now rewrite (rejects_true _ _ _ Hg).
  - intros c url now Hg. unfold Part000.crawlPage.
    now rewrite (rejects_true _ _ _ Hg).
  - intros Hfix base bd s t0 q evs url now c Hv. unfold Part000.crawlPage.
    assert (Part000.normalizeUrl url = url) as ->.
    { apply (run_normalized_part000 base bd evs
               (Part000.start (runCrawl_reset s t0) q) Hfix); [|exact Hv].
      simpl. intros x Hx. by apply not_elem_of_empty in Hx. }
    fold c. rewrite (rejects_true Part000.MAX_PAGES _ url); [reflexivity|].
    now left.
Qed.

Lemma urlModel_href_fixed (u h h' : string) :
  UrlModel.href u = Some h -> UrlModel.href h = Some h' -> h' = h.
Proof.
  unfold UrlModel.href. destruct (UrlModel.origin u) eqn:E; [|discriminate].
  intros [= <-]. rewrite E. congruence.
Qed.

Lemma rejected_call_changes_nothing_witness :
  Crawler.crawlPage
    (Crawler.run (H := UrlModel.api) "https://example.com/"
       "https://example.com" "https://example.com/"
       [Crawler.Call "https://example.com/" 0]
       (Crawler.start (initialSession 0) ["https://example.com/a"]))
    "https://example.com/" 3
  = Crawler.run (H := UrlModel.api) "https://example.com/"
      "https://example.com" "https://example.com/"
      [Crawler.Call "https://example.com/" 0]
      (Crawler.start (initialSession 0) ["https://example.com/a"])
  /\ Part000.crawlPage (H := UrlModel.api)
       (Part000.start (markVisited (initialSession 0) "https://example.com/")
          ["https://example.com/a"])
       "https://example.com/" 3
     = Part000.start (markVisited (initialSession 0) "https://example.com/")
         ["https://example.com/a"]
  /\ Part000.crawlPage (H := UrlModel.api)
       (Part000.run (H := UrlModel.api) "https://example.com/"
          "https://example.com" [Part000.Call "https://example.com/" 0]
          (Part000.start (runCrawl_reset (initialSession 0) 1)
             ["https://example.com/a"]))
       "https://example.com/" 3
     = Part000.run (H := UrlModel.api) "https://example.com/"
         "https://example.com" [Part000.Call "https://example.com/" 0]
         (Part000.start (runCrawl_reset (initialSession 0) 1)
            ["https://example.com/a"]).
Proof.
  pose proof (rejected_call_changes_nothing (H := UrlModel.api))
    as (H1 & H2 & H3).
  split; [|split].
  - apply H1. left. apply (bool_decide_unpack _). vm_compute. exact I.
  - apply H2. left. apply (bool_decide_unpack _). vm_compute. exact I.
  - apply (H3 urlModel_href_fixed "https://example.com/" "https://example.com"
             (initialSession 0) 1 ["https://example.com/a"]
             [Part000.Call "https://example.com/" 0]).
    apply (bool_decide_unpack _). vm_compute. exact I.
Defined.

(** ** [normalizeUrl] *)


(** The condition on the platform is also necessary. *)
Lemma normalizeUrl_idempotent_only_if `{UrlApi} :
  (forall u, Part000.normalizeUrl (Part000.normalizeUrl u)
             = Part000.normalizeUrl u) ->
  forall u h h', URL_href u = Some h -> URL_href h = Some h' -> h' = h.
Proof.
  intros Hid u h h' E E'. specialize (Hid u).
  unfold Part000.normalizeUrl in Hid. rewrite E, E' in Hid. exact Hid.
Qed.


(** ** Duplicate content *)









(** ** The fallback of [src/crawler.js] *)

Lemma fallback_starts `{UrlApi} (base bd main : string) (c : Crawler.Crawl)
    (e : Crawler.Event) (i : nat) (t t' : Crawler.Task) :
  Crawler.tasks c !! i = Some t ->
  Crawler.task_stage t <> Crawler.FallingBack ->
  Crawler.tasks (Crawler.step base bd main c e) !! i = Some t' ->
  Crawler.task_stage t' = Crawler.FallingBack ->
  exists err,
    e = Crawler.Failed i err
    /\ (Crawler.task_stage t = Crawler.Rendering
        \/ exists doc, Crawler.task_stage t = Crawler.Evaluating doc).
Proof.
  intros Ht Hs Ht' Hs'.
  destruct e as [url now|j doc|j anchors|j err|j k|j k err|j now|j results
                |j status doc|j|];
    unfold Crawler.step, Crawler.crawlPage in Ht'; repeat case_match; simpl in Ht';
    try (rewrite Ht in Ht'; injection Ht' as <-; contradiction);
    try (destruct (decide (j = i)) as [->|Hne];
         [ rewrite list_lookup_insert_eq in Ht' by (by eapply lookup_lt_Some);
           injection Ht' as <-; simpl in Hs'; try discriminate
         | rewrite list_lookup_insert_ne in Ht' by assumption;
           rewrite Ht in Ht'; injection Ht' as <-; contradiction ]).
  - apply lookup_app_Some in Ht' as [Ht' | [_ Ht']].
    + rewrite Ht in Ht'. injection Ht' as <-. contradiction.
    + apply list_lookup_singleton_Some in Ht' as [_ <-]. discriminate.
  - exists err. split; [reflexivity|]. left. by simplify_eq.
  - exists err. split; [reflexivity|]. right. simplify_eq. eauto.
Qed.

(** Claim C1, as the code has it.  In [crawler.js] a call of [crawlPage]
    enters the fallback request exactly when an awaited browser call of its
    [try] block throws, and when the fallback GET is answered the URL is
    appended to [workingLinks] with the status of the response and the call
    ends.  In [part_000] there is no fallback: a failed rendering appends
    the URL to [brokenLinks] with the message of the error, leaves
    [workingLinks] alone and ends the call. *)
Theorem fallback_after_primary_failure `{UrlApi} (base bd main : string) :
  (forall c e i t,
     Crawler.tasks c !! i = Some t ->
     Crawler.task_stage t <> Crawler.FallingBack ->
     ((exists t', Crawler.tasks (Crawler.step base bd main c e) !! i = Some t'
                  /\ Crawler.task_stage t' = Crawler.FallingBack)
      <-> (exists err,
             e = Crawler.Failed i err
             /\ (Crawler.task_stage t = Crawler.Rendering
                 \/ exists doc, Crawler.task_stage t = Crawler.Evaluating doc))))
  /\ (forall c i t status doc,
        Crawler.tasks c !! i = Some t ->
        Crawler.task_stage t = Crawler.FallingBack ->
        let c' := Crawler.step base bd main c (Crawler.FallbackOk i status doc) in
        workingLinks (Crawler.session c')
        = workingLinks (Crawler.session c)
          ++ [{| link_url := Crawler.task_url t; link_status := Num status |}]
        /\ Crawler.tasks c' !! i
           = Some {| Crawler.task_url := Crawler.task_url t;
                     Crawler.task_start := Crawler.task_start t;
                     Crawler.task_stage := Crawler.Finished |})
  /\ (forall c i t err,
        Part000.tasks c !! i = Some t ->
        Part000.task_stage t = Part000.Rendering ->
        let c' := Part000.step base bd c (Part000.RenderFailed i err) in
        brokenLinks (Part000.session c')
        = brokenLinks (Part000.session c)
          ++ [{| link_url := Part000.task_url t;
                 link_status := Str (err_message err) |}]
        /\ workingLinks (Part000.session c') = workingLinks (Part000.session c)
        /\ Part000.tasks c' !! i
           = Some {| Part000.task_url := Part000.task_url t;
                     Part000.task_start := Part000.task_start t;
                     Part000.task_stage := Part000.Finished |}).
Proof.
  split; [|split].
  - intros c e i t Ht Hs. split.
    + intros (t' & Ht' & Hs'). by eapply fallback_starts.
    + intros (err & -> & Hst). unfold Crawler.step, Crawler.crawlPage. rewrite Ht.
      eexists. split.
      * destruct Hst as [-> | [doc ->]];
          (apply list_lookup_insert_eq; by eapply lookup_lt_Some).
      * reflexivity.
  - intros c i t status doc Ht Hs c'. subst c'.
    unfold Crawler.step, Crawler.crawlPage. rewrite Ht, Hs. simpl. split; [reflexivity|].
    apply list_lookup_insert_eq. by eapply lookup_lt_Some.
  - intros c i t err Ht Hs c'. subst c'.
    unfold Part000.step, Part000.crawlPage. rewrite Ht, Hs. simpl.
    split; [reflexivity|]. split; [reflexivity|].
    apply list_lookup_insert_eq. by eapply lookup_lt_Some.
Qed.

Lemma fallback_after_primary_failure_witness :
  (exists t',
     Crawler.tasks
       (Crawler.run (H := UrlModel.api) "https://example.com/"
          "https://example.com" "https://example.com/"
          [Crawler.Call "https://example.com/z" 0;
           Crawler.Failed 0%nat
             {| err_responseStatus := None; err_code := None;
                err_message := "Navigation timeout of 60000 ms exceeded" |}]
          (Crawler.start (initialSession 0) [])) !! 0%nat = Some t'
     /\ Crawler.task_stage t' = Crawler.FallingBack)
  /\ workingLinks (Crawler.session
       (Crawler.run (H := UrlModel.api) "https://example.com/"
          "https://example.com" "https://example.com/"
          [Crawler.Call "https://example.com/z" 0;
           Crawler.Failed 0%nat
             {| err_responseStatus := None; err_code := None;
                err_message := "Navigation timeout of 60000 ms exceeded" |};
           Crawler.FallbackOk 0%nat 200 (plainPage "" [])]
          (Crawler.start (initialSession 0) [])))
     = [{| link_url := "https://example.com/z"; link_status := Num 200 |}]
  /\ brokenLinks (Part000.session
       (Part000.run (H := UrlModel.api) "https://example.com/"
          "https://example.com"
          [Part000.Call "https://example.com/w" 0;
           Part000.RenderFailed 0%nat
             {| err_responseStatus := None; err_code := Some "ECONNREFUSED";
                err_message := "net::ERR_CONNECTION_REFUSED" |}]
          (Part000.start (initialSession 0) [])))
     = [{| link_url := "https://example.com/w";
           link_status := Str "net::ERR_CONNECTION_REFUSED" |}].
Proof.
  pose proof (fallback_after_primary_failure (H := UrlModel.api)
                "https://example.com/" "https://example.com"
                "https://example.com/") as (H1 & H2 & H3).
  split; [|split].
  - refine (proj2 (H1
      (Crawler.run (H := UrlModel.api) "https://example.com/"
         "https://example.com" "https://example.com/"
         [Crawler.Call "https://example.com/z" 0]
         (Crawler.start (initialSession 0) []))
      (Crawler.Failed 0%nat
         {| err_responseStatus := None; err_code := None;
            err_message := "Navigation timeout of 60000 ms exceeded" |})
      0%nat
      {| Crawler.task_url := "https://example.com/z"; Crawler.task_start := 0;
         Crawler.task_stage := Crawler.Rendering |}
      eq_refl _) _).
    + discriminate.
    + eexists. split; [reflexivity|]. left. reflexivity.
  - exact (proj1 (H2
      (Crawler.run (H := UrlModel.api) "https://example.com/"
         "https://example.com" "https://example.com/"
         [Crawler.Call "https://example.com/z" 0;
          Crawler.Failed 0%nat
            {| err_responseStatus := None; err_code := None;
               err_message := "Navigation timeout of 60000 ms exceeded" |}]
         (Crawler.start (initialSession 0) []))
      0%nat
      {| Crawler.task_url := "https://example.com/z"; Crawler.task_start := 0;
         Crawler.task_stage := Crawler.FallingBack |}
      200 (plainPage "" []) eq_refl eq_refl)).
  - exact (proj1 (H3
      (Part000.run (H := UrlModel.api) "https://example.com/"
         "https://example.com" [Part000.Call "https://example.com/w" 0]
         (Part000.start (initialSession 0) []))
      0%nat
      {| Part000.task_url := "https://example.com/w"; Part000.task_start := 0;
         Part000.task_stage := Part000.Rendering |}
      {| err_responseStatus := None; err_code := Some "ECONNREFUSED";
         err_message := "net::ERR_CONNECTION_REFUSED" |}
      eq_refl eq_refl)).
Defined.

(** Against claim C1 as stated: the rendering of [/z] times out and the
    fallback GET is answered with 200; the [catch] has pushed the broken-link
    record before it tried the fallback, so [/z] is in [brokenLinks] as well
    as in [workingLinks], and the error counter is 1. *)
Lemma fallback_counterexample :
  let c := Crawler.run (H := UrlModel.api) "https://example.com/"
             "https://example.com" "https://example.com/"
             [Crawler.Call "https://example.com/z" 0;
              Crawler.Failed 0%nat
                {| err_responseStatus := None; err_code := None;
                   err_message := "Navigation timeout of 60000 ms exceeded" |};
              Crawler.FallbackOk 0%nat 200 (plainPage "" [])]
             (Crawler.start (initialSession 0) []) in
  workingLinks (Crawler.session c)
  = [{| link_url := "https://example.com/z"; link_status := Num 200 |}]
  /\ brokenLinks (Crawler.session c)
     = [{| link_url := "https://example.com/z";
           link_status := Str "Navigation timeout of 60000 ms exceeded" |}]
  /\ errors (performanceMetrics (Crawler.session c)) = 1.
Proof. repeat split. Qed.

(** ** The reset of [runCrawl] *)

(** What the reset does clear. *)
Lemma runCrawl_reset_clears (s : Session) (now : Z) :
  runCrawl_reset s now
  = {| visited := ∅; workingLinks := []; brokenLinks := []; seoInsights := [];
       imageAlts := []; keywordStats := []; externalLinks := [];
       missingAnchorTexts := []; accessibilityIssues := []; metaTagAudit := [];
       structuredData := []; technicalSeo := []; ogTags := []; metaTags := [];
       pagePerformanceMetrics := []; webCoreVitals := [];
       duplicateContentIssues := []; contentHashes := contentHashes s;
       brokenResources := []; sitemapRobotsInfo := []; missingSeoIssues := [];
       pagesScanned := 0;
       performanceMetrics :=
         {| pm_startTime := now; pagesCrawled := 0; errors := 0;
            averageResponseTime := 0%Q; totalResponseTime := 0 |} |}.
Proof. reflexivity. Qed.

(** Claim C2 fails on the code.  The reset at the head of [runCrawl] leaves
    [contentHashes] as the previous run left it.  Two runs over the same
    one-page site: the first finds no duplicate, the second starts with the
    fingerprint of the first and reports the page as a duplicate of itself. *)
Theorem runCrawl_reset_keeps_fingerprints :
  (forall s now, contentHashes (runCrawl_reset s now) = contentHashes s)
  /\ let events :=
       [Part000.Call "https://example.com/" 1;
        Part000.Rendered 0%nat (plainPage "H1" []);
        Part000.Settled 0%nat 5] in
     let first :=
       Part000.run (H := UrlModel.api) "https://example.com/"
         "https://example.com" events
         (Part000.start (runCrawl_reset (initialSession 0) 1)
            ["https://example.com/"]) in
     let second :=
       Part000.run (H := UrlModel.api) "https://example.com/"
         "https://example.com" events
         (Part000.start (runCrawl_reset (Part000.session first) 10)
            ["https://example.com/"]) in
     duplicateContentIssues (Part000.session first) = []
     /\ contentHashes (runCrawl_reset (Part000.session first) 10)
        = {[ "H1" := "https://example.com/" ]}
     /\ duplicateContentIssues (Part000.session second)
        = [{| dup_url := "https://example.com/";
              dup_duplicateOf := "https://example.com/";
              dup_issue := "Duplicate content detected" |}].
Proof.
  split; [reflexivity|]. repeat split. 
Qed.

(** ** Sitemaps *)

Section Sitemaps.
Context (web : gmap string Part000.SitemapDoc).
Import Part000.
Implicit Types (seen : gset string) (entries : list (option string)).

Lemma urlsetLocs_elem entries (locs : list string) (loc : string) :
  urlsetLocs entries = Some locs -> loc ∈ locs <-> Some loc ∈ entries.
Proof.
  revert locs. induction entries as [|[l|] es IH]; simpl; intros locs Heq.
  - injection Heq as <-. split; intros Hx; by apply elem_of_nil in Hx.
  - destruct (urlsetLocs es) as [ls|]; [|discriminate].
    injection Heq as <-. rewrite !elem_of_cons, (IH ls eq_refl).
    split; (intros [Hx | Hx]; [left; congruence | by right]).
  - discriminate.
Qed.


(** Marking a fetched sitemap as seen leaves fewer sitemaps to see. *)
Lemma unseen_decreases seen (url : string) (doc : SitemapDoc) :
  web !! url = Some doc -> url ∉ seen ->
  (size (dom web ∖ ({[url]} ∪ seen)) < size (dom web ∖ seen))%nat.
Proof.
  intros Hw Hs. apply subset_size.
  assert (url ∈ dom web) by (apply elem_of_dom; eauto).
  set_solver.
Qed.

Lemma unseen_mono seen seen' :
  seen ⊆ seen' -> (size (dom web ∖ seen') <= size (dom web ∖ seen))%nat.
Proof. intros Hs. apply subseteq_size. set_solver. Qed.

(** The loop over the entries of an index returns when every recursive
    call does; what it returns was returned by a call on one of the
    entries. *)
Lemma expandIndex_returns
    (resolve : string -> gset string -> option (list string * gset string))
    (bound : nat) (P : string -> string -> Prop) entries (urls : list string)
    seen :
  (forall sm seen0,
     (size (dom web ∖ seen0) < bound)%nat ->
     exists sub seen1,
       resolve sm seen0 = Some (sub, seen1) /\ seen0 ⊆ seen1
       /\ forall loc, loc ∈ sub -> P sm loc) ->
  (size (dom web ∖ seen) < bound)%nat ->
  exists urls' seen',
    expandIndex resolve entries urls seen = Some (urls', seen')
    /\ seen ⊆ seen'
    /\ forall loc, loc ∈ urls' ->
         loc ∈ urls \/ exists sm, Some sm ∈ entries /\ P sm loc.
Proof.
  intros Hres. revert urls seen.
  induction entries as [|[sm|] es IH]; intros urls seen Hb; simpl.
  - exists urls, seen. auto.
  - destruct (Hres sm seen Hb) as (sub & seen1 & -> & Hsub & Hloc).
    destruct (IH (urls ++ sub) seen1) as (urls' & seen' & -> & Hsub' & Hloc').
    { pose proof (unseen_mono seen seen1 Hsub). lia. }
    exists urls', seen'. split; [reflexivity|]. split; [set_solver|].
    intros loc Hin. destruct (Hloc' loc Hin) as [Hu | (sm' & Hsm & HP)].
    + apply elem_of_app in Hu as [Hu | Hu]; [by left|].
      right. exists sm. split; [apply elem_of_cons; by left|auto].
    + right. exists sm'. split; [apply elem_of_cons; by right|auto].
  - exists [], seen. split; [reflexivity|]. split; [done|].
    intros loc Hin. by apply elem_of_nil in Hin.
Qed.

(** [getSitemapUrls] returns as soon as the fuel exceeds the number of
    sitemaps not yet seen; it only adds to [seen]; every URL it returns is
    listed by a urlset reachable from the start. *)
Lemma getSitemapUrls_returns (fuel : nat) (url : string) seen :
  (size (dom web ∖ seen) < fuel)%nat ->
  exists urls seen',
    getSitemapUrls fuel web url seen = Some (urls, seen')
    /\ seen ⊆ seen'
    /\ forall loc, loc ∈ urls ->
         exists n, reachableSitemap web url n /\ leafOf web n loc.
Proof.
  revert url seen. induction fuel as [|fuel IH]; intros url seen Hb; [lia|].
  simpl. case_bool_decide as Hseen.
  { exists [], seen. split; [reflexivity|]. split; [done|].
    intros loc Hin. by apply elem_of_nil in Hin. }
  destruct (web !! url) as [[entries|entries|]|] eqn:Hw.
  - destruct (urlsetLocs entries) as [locs|] eqn:Hl.
    + exists locs, ({[url]} ∪ seen). split; [reflexivity|].
      split; [set_solver|]. intros loc Hin. exists url.
      split; [apply rtc_refl|]. exists entries. split; [assumption|].
      by apply (urlsetLocs_elem entries locs).
    + exists [], ({[url]} ∪ seen). split; [reflexivity|].
      split; [set_solver|]. intros loc Hin. by apply elem_of_nil in Hin.
  - pose proof (unseen_decreases seen url _ Hw Hseen) as Hdec.
    destruct (expandIndex_returns (getSitemapUrls fuel web) fuel
                (fun sm loc => exists n, reachableSitemap web sm n
                                         /\ leafOf web n loc)
                entries [] ({[url]} ∪ seen))
      as (urls' & seen' & -> & Hsub & Hloc).
    { intros sm seen0 Hb0. apply IH. exact Hb0. }
    { lia. }
    exists urls', seen'. split; [reflexivity|]. split; [set_solver|].
    intros loc Hin. destruct (Hloc loc Hin) as [Hn | (sm & Hsm & n & Hr & Hleaf)].
    + by apply elem_of_nil in Hn.
    + exists n. split; [|assumption].
      eapply rtc_l; [|exact Hr]. exists entries. auto.
  - exists [], ({[url]} ∪ seen). split; [reflexivity|].
    split; [set_solver|]. intros loc Hin. by apply elem_of_nil in Hin.
  - exists [], ({[url]} ∪ seen). split; [reflexivity|].
    split; [set_solver|]. intros loc Hin. by apply elem_of_nil in Hin.
Qed.





End Sitemaps.





Example cyclic_sitemaps :
  Part000.getSitemapUrls 4 cyclicWeb "https://example.com/sitemap.xml" ∅
  = Some (["https://example.com/x"; "https://example.com/y"],
          {["https://example.com/sitemap.xml"; "https://example.com/b.xml";
            "https://example.com/c.xml"]}).
Proof. vm_compute. reflexivity. Qed.


(** ** The seed of the queue *)

(** A sitemap that lists [/a], [/b] and [/b] again seeds the queue with the
    base, [/a] and [/b]. *)
Example seedQueue_collapses_duplicates :
  Part000.seedQueue (H := UrlModel.api) ∅ "https://example.com/"
    ["https://example.com/a"; "https://example.com/b"; "https://example.com/b"]
  = ["https://example.com/"; "https://example.com/a"; "https://example.com/b"].
Proof. reflexivity. Qed.

Lemma seedQueue_NoDup `{UrlApi} (vis : gset string) (base : string)
    (sitemapUrls : list string) :
  NoDup (Part000.seedQueue vis base sitemapUrls).
Proof.
  unfold Part000.seedQueue.
  assert (NoDup [Part000.normalizeUrl base]) as Hnd by apply NoDup_singleton.
  revert Hnd. generalize [Part000.normalizeUrl base].
  induction sitemapUrls as [|url urls IH]; intros queue Hnd; [exact Hnd|].
  simpl. apply IH.
  destruct (bool_decide (url ∈ vis)); simpl; [exact Hnd|].
  case_bool_decide as Hq; simpl; [exact Hnd|].
  apply NoDup_app. split; [exact Hnd|]. split; [|apply NoDup_singleton].
  intros x Hx Hx'. apply list_elem_of_singleton in Hx' as ->. contradiction.
Qed.

(** * Further properties of the crawl *)

(** ** The report lists of [src/unnamed/part_000] along a run *)

Section Part000Reports.
Context {U : UrlApi} (base bd : string).
Import Part000.

Local Abbreviation step := (Part000.step base bd).
Local Abbreviation run := (Part000.run base bd).

(** No step of [part_000] writes the error counter, the Lighthouse arrays or
    the robots and sitemap rows. *)
Lemma step_untouched_part000 (c : Crawl) (e : Event) :
  errors (performanceMetrics (session (step c e)))
  = errors (performanceMetrics (session c))
  /\ pagePerformanceMetrics (session (step c e))
     = pagePerformanceMetrics (session c)
  /\ webCoreVitals (session (step c e)) = webCoreVitals (session c)
  /\ sitemapRobotsInfo (session (step c e)) = sitemapRobotsInfo (session c).
Proof.
  destruct e; unfold Part000.step, Part000.crawlPage; repeat case_match;
    simpl; auto.
Qed.

(** The counters move with the admissions only. *)
Lemma step_counters_part000 (c : Crawl) (e : Event) :
  (pagesScanned (session (step c e)) = pagesScanned (session c)
   /\ pagesCrawled (performanceMetrics (session (step c e)))
      = pagesCrawled (performanceMetrics (session c))
   /\ length (tasks (step c e)) = length (tasks c)
   /\ visited (session (step c e)) = visited (session c))
  \/ (pagesScanned (session (step c e)) = pagesScanned (session c) + 1
      /\ pagesCrawled (performanceMetrics (session (step c e)))
         = pagesCrawled (performanceMetrics (session c)) + 1
      /\ length (tasks (step c e)) = S (length (tasks c))
      /\ size (visited (session (step c e))) = S (size (visited (session c)))).
Proof.
  destruct e; unfold Part000.step, Part000.crawlPage; repeat case_match;
    simpl;
    try (left; repeat split; try reflexivity; apply length_insert).
  right. split; [reflexivity|]. split; [reflexivity|].
  split; [rewrite length_app; simpl; lia|].
  by apply (markVisited_size MAX_PAGES).
Qed.

Lemma run_counters_part000 (evs : list Event) (c : Crawl) :
  pagesScanned (session c) = Z.of_nat (length (tasks c)) ->
  pagesCrawled (performanceMetrics (session c)) = Z.of_nat (length (tasks c)) ->
  size (visited (session c)) = length (tasks c) ->
  pagesScanned (session (run evs c)) = Z.of_nat (length (tasks (run evs c)))
  /\ pagesCrawled (performanceMetrics (session (run evs c)))
     = Z.of_nat (length (tasks (run evs c)))
  /\ size (visited (session (run evs c))) = length (tasks (run evs c)).
Proof.
  revert c. induction evs as [|e evs IH]; intros c H1 H2 H3; [auto|].
  simpl.
  destruct (step_counters_part000 c e)
    as [(E1 & E2 & E3 & E4) | (E1 & E2 & E3 & E4)];
    apply IH; rewrite ?E1, ?E2, ?E3, ?E4; lia.
Qed.





End Part000Reports.


(** ** The report lists of [src/crawler.js] along a run *)

Section CrawlerReports.
Context {U : UrlApi} (base bd main : string).
Import Crawler.

Local Abbreviation step := (Crawler.step base bd main).
Local Abbreviation run := (Crawler.run base bd main).

Lemma step_counters_crawler (c : Crawl) (e : Event) :
  (pagesScanned (session (step c e)) = pagesScanned (session c)
   /\ pagesCrawled (performanceMetrics (session (step c e)))
      = pagesCrawled (performanceMetrics (session c))
   /\ length (tasks (step c e)) = length (tasks c)
   /\ visited (session (step c e)) = visited (session c))
  \/ (pagesScanned (session (step c e)) = pagesScanned (session c) + 1
      /\ pagesCrawled (performanceMetrics (session (step c e)))
         = pagesCrawled (performanceMetrics (session c)) + 1
      /\ length (tasks (step c e)) = S (length (tasks c))
      /\ size (visited (session (step c e))) = S (size (visited (session c)))).
Proof.
  destruct e; unfold Crawler.step, Crawler.crawlPage; repeat case_match;
    simpl;
    try (left; repeat split; try reflexivity; apply length_insert).
  right. split; [reflexivity|]. split; [reflexivity|].
  split; [rewrite length_app; simpl; lia|].
  by apply (markVisited_size MAX_PAGES).
Qed.

Lemma run_counters_crawler (evs : list Event) (c : Crawl) :
  pagesScanned (session c) = Z.of_nat (length (tasks c)) ->
  pagesCrawled (performanceMetrics (session c)) = Z.of_nat (length (tasks c)) ->
  size (visited (session c)) = length (tasks c) ->
  pagesScanned (session (run evs c)) = Z.of_nat (length (tasks (run evs c)))
  /\ pagesCrawled (performanceMetrics (session (run evs c)))
     = Z.of_nat (length (tasks (run evs c)))
  /\ size (visited (session (run evs c))) = length (tasks (run evs c)).
Proof.
  revert c. induction evs as [|e evs IH]; intros c H1 H2 H3; [auto|].
  simpl.
  destruct (step_counters_crawler c e)
    as [(E1 & E2 & E3 & E4) | (E1 & E2 & E3 & E4)];
    apply IH; rewrite ?E1, ?E2, ?E3, ?E4; lia.
Qed.








End CrawlerReports.


(** X2 ([crawlPage], both revisions).  From the reset of [runCrawl] on, the
    counters [pagesScanned] and [performanceMetrics.pagesCrawled] both equal
    the size of [visited], in every interleaving. *)
Theorem pages_counters_follow_visited `{UrlApi} (base bd main : string)
    (s : Session) (now : Z) (q : list string) :
  (forall evs,
     let c := Part000.run base bd evs (Part000.start (runCrawl_reset s now) q) in
     pagesScanned (Part000.session c)
       = Z.of_nat (size (visited (Part000.session c)))
     /\ pagesCrawled (performanceMetrics (Part000.session c))
        = Z.of_nat (size (visited (Part000.session c))))
  /\ (forall evs,
        let c := Crawler.run base bd main evs
                   (Crawler.start (runCrawl_reset s now) q) in
        pagesScanned (Crawler.session c)
          = Z.of_nat (size (visited (Crawler.session c)))
        /\ pagesCrawled (performanceMetrics (Crawler.session c))
           = Z.of_nat (size (visited (Crawler.session c)))).
Proof.
  split; intros evs c.
  - destruct (run_counters_part000 base bd evs
                (Part000.start (runCrawl_reset s now) q)) as (E1 & E2 & E3);
      try reflexivity.
    fold c in E1, E2, E3. rewrite E1, E2, E3. done.
  - destruct (run_counters_crawler base bd main evs
                (Crawler.start (runCrawl_reset s now) q)) as (E1 & E2 & E3);
      try reflexivity.
    fold c in E1, E2, E3. rewrite E1, E2, E3. done.
Qed.



(** X5 ([crawlPage] of [src/unnamed/part_000]).  The later revision never
    counts an error and never records a Lighthouse result: in every
    interleaving from the reset of [runCrawl], [performanceMetrics.errors]
    is 0 and the two Lighthouse arrays are empty, while a rendering that
    fails does list the page in [brokenLinks]. *)
Theorem part000_counts_no_error `{UrlApi} (base bd : string) (s : Session)
    (now : Z) (q : list string) :
  (forall evs,
     let c := Part000.run base bd evs (Part000.start (runCrawl_reset s now) q) in
     errors (performanceMetrics (Part000.session c)) = 0
     /\ pagePerformanceMetrics (Part000.session c) = []
     /\ webCoreVitals (Part000.session c) = [])
  /\ (forall c i t err,
        Part000.tasks c !! i = Some t ->
        Part000.task_stage t = Part000.Rendering ->
        let c' := Part000.step base bd c (Part000.RenderFailed i err) in
        brokenLinks (Part000.session c')
        = brokenLinks (Part000.session c)
          ++ [{| link_url := Part000.task_url t;
                 link_status := Str (err_message err) |}]
        /\ errors (performanceMetrics (Part000.session c'))
           = errors (performanceMetrics (Part000.session c))).
Proof.
  split.
  - intros evs.
    generalize (Part000.start (runCrawl_reset s now) q)
      (eq_refl : errors (performanceMetrics (Part000.session
                   (Part000.start (runCrawl_reset s now) q))) = 0)
      (eq_refl : pagePerformanceMetrics (Part000.session
                   (Part000.start (runCrawl_reset s now) q)) = [])
      (eq_refl : webCoreVitals (Part000.session
                   (Part000.start (runCrawl_reset s now) q)) = []).
    induction evs as [|e evs IH]; intros c E1 E2 E3; [auto|].
    simpl. destruct (step_untouched_part000 base bd c e) as (F1 & F2 & F3 & _).
    apply IH; congruence.
  - intros c i t err Ht Hs c'. subst c'. simpl. rewrite Ht, Hs. simpl. auto.
Qed.

Lemma part000_counts_no_error_witness :
  let c := Part000.run (H := UrlModel.api) "https://a.example/" "https://a.example"
             [Part000.Call "https://a.example/" 0;
              Part000.RenderFailed 0%nat
                {| err_responseStatus := None; err_code := None;
                   err_message := "net::ERR_FAILED" |}]
             (Part000.start (runCrawl_reset (initialSession 0) 0) []) in
  errors (performanceMetrics (Part000.session c)) = 0
  /\ brokenLinks (Part000.session c)
     = [{| link_url := "https://a.example/";
           link_status := Str "net::ERR_FAILED" |}].
Proof.
  pose proof (part000_counts_no_error (H := UrlModel.api)
                "https://a.example/" "https://a.example" (initialSession 0) 0 [])
    as [Hrun Hfail].
  split.
  - exact (proj1 (Hrun _)).
  - exact (proj1 (Hfail
      (Part000.run (H := UrlModel.api) "https://a.example/" "https://a.example"
         [Part000.Call "https://a.example/" 0]
         (Part000.start (runCrawl_reset (initialSession 0) 0) []))
      0%nat _ {| err_responseStatus := None; err_code := None;
                 err_message := "net::ERR_FAILED" |} eq_refl eq_refl)).
Defined.

(** ** The pending queue *)

Section PendingQueue.
Context {U : UrlApi} (MAX : Z).

Lemma processLink_queue vis cur base bd acc link :
  NoDup (fst acc) ->
  NoDup (fst (processLink MAX vis cur base bd acc link))
  /\ (forall u, u ∈ fst (processLink MAX vis cur base bd acc link) ->
        u ∈ fst acc
        \/ (isInternal u base bd = true /\ (u ∉ vis)
            /\ Z.of_nat (size vis) < MAX)).
Proof.
  intros Hnd. unfold processLink.
  repeat case_match; simpl; auto.
  match goal with
  | Hc : negb _ && negb _ = true |- _ =>
      apply andb_true_iff in Hc as [Hv Hq];
      apply negb_true_iff, bool_decide_eq_false in Hv, Hq
  end.
  split.
  - apply NoDup_app. split; [assumption|]. split; [|apply NoDup_singleton].
    intros u Hu Hu'. apply list_elem_of_singleton in Hu' as ->. auto.
  - intros u Hu. apply elem_of_app in Hu as [Hu | Hu]; [auto|].
    apply list_elem_of_singleton in Hu as ->. right.
    repeat split; try assumption. by apply Z.ltb_lt.
Qed.

Lemma processLinks_queue vis cur base bd links acc :
  NoDup (fst acc) ->
  NoDup (fst (processLinks MAX vis cur base bd links acc))
  /\ (forall u, u ∈ fst (processLinks MAX vis cur base bd links acc) ->
        u ∈ fst acc
        \/ (isInternal u base bd = true /\ (u ∉ vis)
            /\ Z.of_nat (size vis) < MAX)).
Proof.
  revert acc. induction links as [|l links IH]; intros acc Hnd; [auto|].
  simpl. destruct (processLink_queue vis cur base bd acc l Hnd) as [Hnd' Hin'].
  destruct (IH _ Hnd') as [Hnd'' Hin'']. split; [assumption|].
  intros u Hu. destruct (Hin'' u Hu) as [Hu' | ?]; auto.
Qed.

Lemma recordPage_queue s q cur base bd doc links :
  NoDup q ->
  NoDup (snd (recordPage MAX s q cur base bd doc links))
  /\ (forall u, u ∈ snd (recordPage MAX s q cur base bd doc links) ->
        u ∈ q
        \/ (isInternal u base bd = true /\ (u ∉ visited s)
            /\ Z.of_nat (size (visited s)) < MAX)).
Proof.
  intros Hnd. unfold recordPage. cbn [snd].
  by apply (processLinks_queue (visited s) cur base bd links
              (q, externalLinks s)).
Qed.

End PendingQueue.

Section PendingQueueRuns.
Context {U : UrlApi} (base bd main : string).

Lemma step_queue_part000 (c : Part000.Crawl) (e : Part000.Event) :
  NoDup (Part000.queue c) ->
  NoDup (Part000.queue (Part000.step base bd c e))
  /\ (forall u, u ∈ Part000.queue (Part000.step base bd c e) ->
        u ∈ Part000.queue c
        \/ (isInternal u base bd = true
            /\ (u ∉ visited (Part000.session c))
            /\ Z.of_nat (size (visited (Part000.session c)))
               < Part000.MAX_PAGES)).
Proof.
  intros Hnd.
  destruct e; unfold Part000.step, Part000.crawlPage; repeat case_match;
    cbn [Part000.queue Part000.setStage]; auto.
  - exact (recordPage_queue Part000.MAX_PAGES
             (auditPage (Part000.session c) (Part000.task_url t) doc)
             _ _ _ _ _ _ Hnd).
  - split.
    + destruct (Part000.queue c); [assumption|]. by apply NoDup_cons in Hnd as [_ ?].
    + intros u Hu. left. destruct (Part000.queue c); [assumption|].
      apply elem_of_cons. auto.
Qed.

Lemma run_queue_part000 (evs : list Part000.Event) (c : Part000.Crawl) :
  NoDup (Part000.queue c) ->
  NoDup (Part000.queue (Part000.run base bd evs c))
  /\ (forall u, u ∈ Part000.queue (Part000.run base bd evs c) ->
        u ∈ Part000.queue c \/ isInternal u base bd = true).
Proof.
  revert c. induction evs as [|e evs IH]; intros c Hnd; [auto|].
  simpl. destruct (step_queue_part000 c e Hnd) as [Hnd' Hin'].
  destruct (IH _ Hnd') as [Hnd'' Hin'']. split; [assumption|].
  intros u Hu. destruct (Hin'' u Hu) as [Hu' | ?]; [|auto].
  destruct (Hin' u Hu') as [? | (? & _)]; auto.
Qed.

Lemma step_queue_crawler (c : Crawler.Crawl) (e : Crawler.Event) :
  NoDup (Crawler.queue c) ->
  NoDup (Crawler.queue (Crawler.step base bd main c e))
  /\ (forall u, u ∈ Crawler.queue (Crawler.step base bd main c e) ->
        u ∈ Crawler.queue c
        \/ (isInternal u base bd = true
            /\ (u ∉ visited (Crawler.session c))
            /\ Z.of_nat (size (visited (Crawler.session c)))
               < Crawler.MAX_PAGES)).
Proof.
  intros Hnd.
  destruct e; unfold Crawler.step, Crawler.crawlPage; repeat case_match;
    cbn [Crawler.queue Crawler.setStage]; auto.
  - by apply recordPage_queue.
  - split.
    + rewrite <- (take_drop Crawler.CONCURRENT_REQUESTS (Crawler.queue c)) in Hnd.
      by apply NoDup_app in Hnd as (_ & _ & ?).
    + intros u Hu. left. by eapply subseteq_drop.
Qed.

Lemma run_queue_crawler (evs : list Crawler.Event) (c : Crawler.Crawl) :
  NoDup (Crawler.queue c) ->
  NoDup (Crawler.queue (Crawler.run base bd main evs c))
  /\ (forall u, u ∈ Crawler.queue (Crawler.run base bd main evs c) ->
        u ∈ Crawler.queue c \/ isInternal u base bd = true).
Proof.
  revert c. induction evs as [|e evs IH]; intros c Hnd; [auto|].
  simpl. destruct (step_queue_crawler c e Hnd) as [Hnd' Hin'].
  destruct (IH _ Hnd') as [Hnd'' Hin'']. split; [assumption|].
  intros u Hu. destruct (Hin'' u Hu) as [Hu' | ?]; [|auto].
  destruct (Hin' u Hu') as [? | (? & _)]; auto.
Qed.

End PendingQueueRuns.

(** X6 (the link loop of [crawlPage] and the loops of [runCrawl] that take
    from the queue, both revisions).  A pending queue without duplicates
    stays without duplicates in every interleaving, every URL in it was
    there at the start or starts with [base] or [baseDomain], and a step
    adds a URL only if it is not in [visited] and [visited] is below the
    budget. *)
Theorem pending_queue_never_repeats `{UrlApi} (base bd main : string)
    (s : Session) (q : list string) :
  NoDup q ->
  (forall evs,
     let c := Part000.run base bd evs (Part000.start s q) in
     NoDup (Part000.queue c)
     /\ forall u, u ∈ Part000.queue c -> u ∈ q \/ isInternal u base bd = true)
  /\ (forall evs,
        let c := Crawler.run base bd main evs (Crawler.start s q) in
        NoDup (Crawler.queue c)
        /\ forall u, u ∈ Crawler.queue c ->
                     u ∈ q \/ isInternal u base bd = true)
  /\ (forall evs e u,
        let c := Part000.run base bd evs (Part000.start s q) in
        u ∈ Part000.queue (Part000.step base bd c e) ->
        u ∉ Part000.queue c ->
        (u ∉ visited (Part000.session c))
        /\ Z.of_nat (size (visited (Part000.session c))) < Part000.MAX_PAGES)
  /\ (forall evs e u,
        let c := Crawler.run base bd main evs (Crawler.start s q) in
        u ∈ Crawler.queue (Crawler.step base bd main c e) ->
        u ∉ Crawler.queue c ->
        (u ∉ visited (Crawler.session c))
        /\ Z.of_nat (size (visited (Crawler.session c))) < Crawler.MAX_PAGES).
Proof.
  intros Hnd. split; [|split; [|split]].
  - intros evs. by apply run_queue_part000.
  - intros evs. by apply run_queue_crawler.
  - intros evs e u c Hin Hout.
    assert (NoDup (Part000.queue c)) as Hc by by apply run_queue_part000.
    destruct (step_queue_part000 base bd c e Hc) as [_ Hstep].
    destruct (Hstep u Hin) as [? | (_ & ? & ?)]; [contradiction|auto].
  - intros evs e u c Hin Hout.
    assert (NoDup (Crawler.queue c)) as Hc by by apply run_queue_crawler.
    destruct (step_queue_crawler base bd main c e Hc) as [_ Hstep].
    destruct (Hstep u Hin) as [? | (_ & ? & ?)]; [contradiction|auto].
Qed.

Lemma pending_queue_never_repeats_witness :
  NoDup (Crawler.queue
    (Crawler.run (H := UrlModel.api) "https://a.example/" "https://a.example"
       "https://a.example/"
       [Crawler.Splice; Crawler.Call "https://a.example/" 0;
        Crawler.Rendered 0%nat (plainPage "h" []);
        Crawler.LinksEvaluated 0%nat
          [("/x", "x"); ("https://a.example/x", "again"); ("/y#top", "y")]]
       (Crawler.start (runCrawl_reset (initialSession 0) 0)
          ["https://a.example/"]))).
Proof.
  exact (proj1 (proj1 (proj2 (pending_queue_never_repeats (H := UrlModel.api)
    "https://a.example/" "https://a.example" "https://a.example/"
    (runCrawl_reset (initialSession 0) 0) ["https://a.example/"]
    (NoDup_singleton _))) _)).
Defined.

(** X7 (the sitemap block of [runCrawl] in [src/unnamed/part_000]).  The
    queue the crawl starts with has no duplicates, begins with the
    normalised base, and holds, besides it, exactly the sitemap URLs that
    are not in [visited]; the sitemap URLs are queued as they are written in
    the sitemap. *)
Theorem seedQueue_members `{UrlApi} (vis : gset string) (base : string)
    (sitemapUrls : list string) :
  NoDup (Part000.seedQueue vis base sitemapUrls)
  /\ head (Part000.seedQueue vis base sitemapUrls)
     = Some (Part000.normalizeUrl base)
  /\ (forall u, u ∈ Part000.seedQueue vis base sitemapUrls <->
                u = Part000.normalizeUrl base
                \/ (u ∈ sitemapUrls /\ u ∉ vis)).
Proof.
  split; [apply seedQueue_NoDup|].
  unfold Part000.seedQueue.
  assert (forall q0 : list string,
            (exists u0 rest, q0 = u0 :: rest) ->
            let r := foldl (fun queue url =>
                       if negb (bool_decide (url ∈ vis))
                          && negb (bool_decide (url ∈ queue))
                       then queue ++ [url] else queue) q0 sitemapUrls in
            head r = head q0
            /\ forall u, u ∈ r <-> u ∈ q0 \/ (u ∈ sitemapUrls /\ u ∉ vis))
    as Hgen.
  { induction sitemapUrls as [|x xs IH]; intros q0 (u0 & rest & ->).
    - simpl. split; [reflexivity|]. intros u. split; [auto|].
      intros [? | [Hu _]]; [assumption|]. by apply elem_of_nil in Hu.
    - cbn [foldl].
      destruct (negb (bool_decide (x ∈ vis))
                && negb (bool_decide (x ∈ u0 :: rest))) eqn:Hc.
      + apply andb_true_iff in Hc as [Hv Hq].
        apply negb_true_iff, bool_decide_eq_false in Hv, Hq.
        destruct (IH ((u0 :: rest) ++ [x])) as [Hh Hm]; [simpl; eauto|].
        split; [exact Hh|]. intros u. rewrite Hm.
        rewrite elem_of_app, list_elem_of_singleton, (elem_of_cons xs).
        split.
        * intros [[? | ->] | [? ?]]; auto.
        * intros [? | [[-> | ?] ?]]; auto.
      + destruct (IH (u0 :: rest)) as [Hh Hm]; [eauto|].
        split; [exact Hh|]. intros u. rewrite Hm, (elem_of_cons xs).
        split.
        * intros [? | [? ?]]; auto.
        * intros [? | [[-> | ?] Hv]]; auto.
          apply andb_false_iff in Hc as [Hc | Hc];
            apply negb_false_iff, bool_decide_eq_true in Hc; auto.
          contradiction. }
  destruct (Hgen [Part000.normalizeUrl base]) as [Hh Hm]; [eauto|].
  split; [exact Hh|]. intros u. rewrite Hm, list_elem_of_singleton. reflexivity.
Qed.

(** ** Links outside [base] *)

Section OutsideBase.
Context {U : UrlApi} (MAX : Z).

Lemma processLink_keeps vis cur base bd acc link u :
  u ∈ fst acc -> u ∈ fst (processLink MAX vis cur base bd acc link).
Proof.
  intros Hu. unfold processLink. repeat case_match; simpl; auto.
  apply elem_of_app. auto.
Qed.

Lemma processLinks_keeps vis cur base bd links acc u :
  u ∈ fst acc -> u ∈ fst (processLinks MAX vis cur base bd links acc).
Proof.
  revert acc. induction links as [|l links IH]; intros acc Hu; [assumption|].
  simpl. by apply IH, processLink_keeps.
Qed.

Lemma processLinks_enqueues vis cur base bd links acc link fullHref :
  link ∈ links ->
  notCrawlable (cleanHref (fst link)) = false ->
  resolveHref (cleanHref (fst link)) base = Some fullHref ->
  isInternal fullHref base bd = true ->
  Z.of_nat (size vis) < MAX ->
  fullHref ∉ vis ->
  fullHref ∈ fst (processLinks MAX vis cur base bd links acc).
Proof.
  intros Hin Hn Hr Hi Hb Hv. revert acc.
  induction links as [|l links IH]; intros acc; [by apply elem_of_nil in Hin|].
  apply elem_of_cons in Hin as [<- | Hin]; [|by apply IH].
  simpl. apply processLinks_keeps. unfold processLink.
  rewrite Hn, Hr, Hi. apply Z.ltb_lt in Hb. rewrite Hb.
  rewrite (bool_decide_eq_false_2 _ Hv). simpl.
  case_bool_decide; simpl; [assumption|].
  apply elem_of_app. right. by apply list_elem_of_singleton.
Qed.

Lemma extractLinks_lists anchors cur base a fullHref :
  a ∈ anchors ->
  notCrawlable (cleanHref (fst a)) = false ->
  resolveHref (cleanHref (fst a)) base = Some fullHref ->
  Js.startsWith fullHref base = false ->
  {| ext_from := cur; ext_to := fullHref;
     ext_linkData := Some (snd a, false) |} ∈ extractLinks anchors cur base.
Proof.
  intros Hin Hn Hr Hb. unfold extractLinks.
  apply list_elem_of_In, in_flat_map. exists a.
  split; [by apply list_elem_of_In|].
  unfold notCrawlable in Hn.
  repeat (apply orb_false_iff in Hn as [Hn ?]).
  repeat match goal with E : _ = false |- _ => rewrite E; clear E end.
  simpl. rewrite Hr. simpl.
  destruct (Js.startsWith fullHref base) eqn:E; [discriminate|].
  simpl. auto.
Qed.

End OutsideBase.

(** X8 ([extractLinks] and the link loop of [crawlPage], both revisions).
    A crawlable link whose resolved href does not start with [base] always
    gets an External Links row with [isInternal: false]; if the href does
    not start with [baseDomain] either, the link loop adds a second row for
    it; if it does start with [baseDomain], the same link is also pushed on
    the pending queue (below the budget, when it is not visited). *)
Theorem link_outside_base_listed_external `{UrlApi} (MAX : Z) (s : Session)
    (q : list string) (cur base bd : string) (doc : Document)
    (links : list (string * string)) (a : string * string) (fullHref : string) :
  a ∈ links -> a ∈ doc_anchors doc ->
  notCrawlable (cleanHref (fst a)) = false ->
  resolveHref (cleanHref (fst a)) base = Some fullHref ->
  Js.startsWith fullHref base = false ->
  let r := recordPage MAX s q cur base bd doc links in
  {| ext_from := cur; ext_to := fullHref;
     ext_linkData := Some (snd a, false) |} ∈ externalLinks (fst r)
  /\ (Js.startsWith fullHref bd = false ->
      {| ext_from := cur; ext_to := fullHref; ext_linkData := None |}
        ∈ externalLinks (fst r))
  /\ (Js.startsWith fullHref bd = true ->
      Z.of_nat (size (visited s)) < MAX -> fullHref ∉ visited s ->
      fullHref ∈ snd r).
Proof.
  intros Hl Ha Hn Hr Hb r. subst r. unfold recordPage.
  cbn [fst snd externalLinks]. split; [|split].
  - apply elem_of_app. right. by apply extractLinks_lists.
  - intros Hd. apply elem_of_app. left.
    apply (processLinks_external _ _ _ _ _ _ _ a); try assumption.
    unfold isInternal. by rewrite Hb, Hd.
  - intros Hd Hbud Hv.
    apply (processLinks_enqueues _ _ _ _ _ _ _ a); try assumption.
    unfold isInternal. rewrite Hd. apply orb_true_r.
Qed.

Lemma link_outside_base_listed_external_witness :
  let r := recordPage (U := UrlModel.api) 2000 (initialSession 0)
             ["https://a.example/blog/"] "https://a.example/blog/"
             "https://a.example/blog/" "https://a.example"
             (plainPage "h" [("/about", "About us")])
             [("/about", "About us")] in
  {| ext_from := "https://a.example/blog/"; ext_to := "https://a.example/about";
     ext_linkData := Some ("About us", false) |} ∈ externalLinks (fst r)
  /\ "https://a.example/about" ∈ snd r.
Proof.
  pose proof (link_outside_base_listed_external (H := UrlModel.api) 2000
                (initialSession 0) ["https://a.example/blog/"]
                "https://a.example/blog/" "https://a.example/blog/"
                "https://a.example" (plainPage "h" [("/about", "About us")])
                [("/about", "About us")] ("/about", "About us")
                "https://a.example/about") as Hk.
  assert (("/about", "About us") ∈ [("/about", "About us")]) as Hin
    by (apply elem_of_cons; by left).
  destruct (Hk Hin Hin eq_refl eq_refl eq_refl) as (H1 & _ & H3).
  split; [exact H1|].
  apply (H3 eq_refl); [reflexivity|].
  apply (bool_decide_unpack _). vm_compute. exact I.
Defined.

(** ** Sitemap entries without [loc] *)

Lemma expandIndex_without_loc (web : gmap string Part000.SitemapDoc)
    (fuel : nat) (entries : list (option string)) (urls : list string)
    (seen : gset string) :
  None ∈ entries ->
  (size (dom web ∖ seen) < fuel)%nat ->
  exists seen',
    Part000.expandIndex (Part000.getSitemapUrls fuel web) entries urls seen
    = Some ([], seen')
    /\ seen ⊆ seen'.
Proof.
  revert urls seen. induction entries as [|[sm|] es IH]; intros urls seen Hin Hb.
  - by apply elem_of_nil in Hin.
  - apply elem_of_cons in Hin as [Hin | Hin]; [discriminate|].
    simpl.
    destruct (getSitemapUrls_returns web fuel sm seen Hb)
      as (sub & seen1 & -> & Hsub & _).
    destruct (IH (urls ++ sub) seen1 Hin) as (seen' & -> & Hsub').
    { pose proof (unseen_mono web seen seen1 Hsub). lia. }
    exists seen'. split; [reflexivity|set_solver].
  - simpl. exists seen. split; [reflexivity|done].
Qed.

(** X13 ([getSitemapUrls] of [src/unnamed/part_000]).  When one entry of a
    urlset or of a sitemap index has no [loc], the call on that document
    returns the empty list: the URLs of the other entries, and of the
    sitemaps of the index that were already read, are dropped by the
    [catch]; the document stays marked as seen. *)
Theorem sitemap_entry_without_loc (web : gmap string Part000.SitemapDoc)
    (url : string) (seen : gset string) (fuel : nat)
    (entries : list (option string)) :
  url ∉ seen ->
  (size (dom web ∖ seen) < fuel)%nat ->
  web !! url = Some (Part000.Urlset entries)
  \/ web !! url = Some (Part000.SitemapIndex entries) ->
  None ∈ entries ->
  exists seen',
    Part000.getSitemapUrls fuel web url seen = Some ([], seen')
    /\ url ∈ seen' /\ seen ⊆ seen'.
Proof.
  intros Hseen Hb Hdoc Hin.
  destruct fuel as [|fuel]; [lia|].
  simpl. rewrite bool_decide_eq_false_2 by assumption.
  destruct Hdoc as [-> | Hw].
  - assert (Part000.urlsetLocs entries = None) as ->.
    { clear -Hin. induction entries as [|[l|] es IH]; simpl.
      - by apply elem_of_nil in Hin.
      - apply elem_of_cons in Hin as [? | Hin]; [discriminate|].
        by rewrite (IH Hin).
      - reflexivity. }
    exists ({[url]} ∪ seen). split; [reflexivity|]. set_solver.
  - rewrite Hw.
    destruct (expandIndex_without_loc web fuel entries [] ({[url]} ∪ seen) Hin)
      as (seen' & -> & Hsub).
    { pose proof (unseen_decreases web seen url _ Hw Hseen). lia. }
    exists seen'. split; [reflexivity|]. set_solver.
Qed.

Lemma sitemap_entry_without_loc_witness :
  exists seen',
    Part000.getSitemapUrls 3
      (<["https://a.example/sitemap.xml" :=
           Part000.SitemapIndex [Some "https://a.example/pages.xml"; None]]>
       (<["https://a.example/pages.xml" :=
           Part000.Urlset [Some "https://a.example/x"]]> ∅))
      "https://a.example/sitemap.xml" ∅
    = Some ([], seen')
    /\ "https://a.example/sitemap.xml" ∈ seen' /\ ∅ ⊆ seen'.
Proof.
  apply (sitemap_entry_without_loc _ _ _ _
           [Some "https://a.example/pages.xml"; None]).
  - apply not_elem_of_empty.
  - vm_compute. lia.
  - right. reflexivity.
  - apply elem_of_cons. right. apply elem_of_cons. by left.
Defined.

(** ** String methods *)

Section Suffixes.

Lemma endsWith_refl (s : string) : Text.endsWith s s = true.
Proof. destruct s; cbn [Text.endsWith]; by rewrite String.eqb_refl. Qed.

Lemma endsWith_inv (s suffix : string) :
  Text.endsWith s suffix = true ->
  s = suffix
  \/ exists c r, s = String c r /\ Text.endsWith r suffix = true.
Proof.
  destruct s as [|c r]; cbn [Text.endsWith]; intros H.
  - apply orb_true_iff in H as [H | H]; [|discriminate].
    left. by apply String.eqb_eq in H.
  - apply orb_true_iff in H as [H | H].
    + left. by apply String.eqb_eq in H.
    + right. eauto.
Qed.

Lemma endsWith_tail (c : ascii) (r suffix : string) :
  Text.endsWith r suffix = true -> Text.endsWith (String c r) suffix = true.
Proof. intros H. cbn [Text.endsWith]. rewrite H. apply orb_true_r. Qed.

Lemma endsWith_length (s suffix : string) :
  Text.endsWith s suffix = true ->
  (String.length suffix <= String.length s)%nat.
Proof.
  induction s as [|c r IH]; intros H;
    apply endsWith_inv in H as [-> | (c' & r' & Heq & H)]; try done.
  injection Heq as <- <-. specialize (IH H). simpl. lia.
Qed.

Lemma endsWith_trans (s t u : string) :
  Text.endsWith s t = true -> Text.endsWith t u = true ->
  Text.endsWith s u = true.
Proof.
  induction s as [|c r IH]; intros H1 H2;
    apply endsWith_inv in H1 as [-> | (c' & r' & Heq & H1)]; try done.
  injection Heq as <- <-. apply endsWith_tail. by apply IH.
Qed.

Lemma endsWith_same_length (s a b : string) :
  Text.endsWith s a = true -> Text.endsWith s b = true ->
  String.length a = String.length b -> a = b.
Proof.
  induction s as [|c r IH]; intros Ha Hb Hlen.
  - apply endsWith_inv in Ha as [<- | (? & ? & ? & _)]; [|done].
    apply endsWith_inv in Hb as [<- | (? & ? & ? & _)]; done.
  - apply endsWith_inv in Ha as [<- | (c1 & r1 & Heq1 & Ha)];
      apply endsWith_inv in Hb as [<- | (c2 & r2 & Heq2 & Hb)].
    + reflexivity.
    + injection Heq2 as <- <-. apply endsWith_length in Hb.
      simpl in Hlen. lia.
    + injection Heq1 as <- <-. apply endsWith_length in Ha.
      simpl in Hlen. lia.
    + injection Heq1 as <- <-. injection Heq2 as <- <-. by apply IH.
Qed.

Lemma append_String (c : ascii) (a b : string) :
  String c a +:+ b = String c (a +:+ b).
Proof. reflexivity. Qed.

Lemma append_empty (b : string) : "" +:+ b = b.
Proof. reflexivity. Qed.

Lemma endsWith_append (a b suffix : string) :
  Text.endsWith b suffix = true -> Text.endsWith (a +:+ b) suffix = true.
Proof.
  intros H. induction a as [|c a IH]; rewrite ?append_String, ?append_empty;
    [assumption|by apply endsWith_tail].
Qed.

Lemma includes_char (x c : ascii) (r : string) :
  Text.includes (String c r) (String x "")
  = Ascii.eqb x c || Text.includes r (String x "").
Proof.
  cbn [Text.includes String.prefix].
  destruct (ascii_dec x c) as [->|Hne].
  - rewrite Ascii.eqb_refl. by destruct r.
  - apply Ascii.eqb_neq in Hne. by rewrite Hne.
Qed.

End Suffixes.

(** ** The rate limiter of the server *)

Section RateLimit.
Import Server.

Lemma serve_from (events : list Event) (st : gmap string UserData * list string) :
  foldl step st events
  = (fst (serve events (fst st)), snd st ++ snd (serve events (fst st))).
Proof.
  unfold serve. revert st.
  induction events as [|e events IH] using rev_ind; intros st.
  - simpl. rewrite app_nil_r. by destruct st.
  - rewrite !foldl_snoc, IH. destruct e as [ip now|now]; simpl.
    + destruct (snd (rateLimit _ ip now)); [|reflexivity].
      by rewrite app_assoc.
    + reflexivity.
Qed.

Lemma passed_cons (ip : string) (e : Event) (events : list Event)
    (m : gmap string UserData) :
  passed ip (e :: events) m
  = (length (filter (fun i => i = ip) (snd (step (m, []) e)))
     + passed ip events (fst (step (m, []) e)))%nat.
Proof.
  unfold passed, serve at 1. simpl. rewrite serve_from.
  cbn [snd]. by rewrite filter_app, length_app.
Qed.

(** The entry of [ip] after a request of [ip]. *)
Lemma rateLimit_entry (m : gmap string UserData) (ip : string) (now : Z) :
  exists userData,
    fst (rateLimit m ip now) !! ip = Some userData
    /\ (forall other, other <> ip ->
          fst (rateLimit m ip now) !! other = m !! other).
Proof.
  unfold rateLimit. repeat case_match; simpl;
    (eexists; split; [apply lookup_insert_eq|];
     intros other Hne; by apply lookup_insert_ne).
Qed.

Lemma cleanUp_lookup (m : gmap string UserData) (now : Z) (ip : string) :
  cleanUp m now !! ip
  = match m !! ip with
    | Some userData => if resetTime userData <? now then None else Some userData
    | None => None
    end.
Proof.
  unfold cleanUp. destruct (m !! ip) as [userData|] eqn:Hm.
  - destruct (resetTime userData <? now) eqn:Hlt.
    + apply map_lookup_filter_None. right. intros x Hx. simpl.
      rewrite Hm in Hx. injection Hx as <-. apply Z.ltb_lt in Hlt. tauto.
    + apply map_lookup_filter_Some. split; [assumption|]. simpl.
      apply Z.ltb_ge in Hlt. lia.
  - apply map_lookup_filter_None. left. assumption.
Qed.

Lemma step_counted (m : gmap string UserData) (e : Event) :
  counted m -> counted (fst (step (m, []) e)).
Proof.
  intros Hm ip userData. destruct e as [i now|now]; simpl.
  - destruct (decide (ip = i)) as [->|Hne].
    + unfold rateLimit.
      destruct (m !! i) as [u|] eqn:Hi; [pose proof (Hm _ _ Hi)|];
        repeat case_match; simpl; rewrite lookup_insert_eq;
        intros [= <-]; simpl in *;
        repeat match goal with
               | H : (_ <=? _) = true |- _ => apply Z.leb_le in H
               | H : (_ <=? _) = false |- _ => apply Z.leb_gt in H
               end;
        unfold MAX_REQUESTS_PER_HOUR in *; lia.
    + destruct (rateLimit_entry m i now) as (_ & _ & Hother).
      rewrite (Hother _ Hne). apply Hm.
  - rewrite cleanUp_lookup. destruct (m !! ip) as [u|] eqn:Hi; [|done].
    destruct (resetTime u <? now); [done|]. intros [= <-]. by eapply Hm.
Qed.

Lemma serve_counted (events : list Event) (m : gmap string UserData) :
  counted m -> counted (fst (serve events m)).
Proof.
  revert m. induction events as [|e events IH]; intros m Hm; [exact Hm|].
  unfold serve. simpl. rewrite serve_from. cbn [fst].
  apply IH. by apply (step_counted m e).
Qed.

(** A step within the hour that starts at [a] pays for what it lets
    through. *)
Lemma step_credit (a : Z) (ip : string) (m : gmap string UserData) (e : Event) :
  counted m -> a <= time e <= a + RATE_LIMIT_WINDOW ->
  credit a (fst (step (m, []) e) !! ip)
  + Z.of_nat (length (filter (fun i => i = ip) (snd (step (m, []) e))))
  <= credit a (m !! ip).
Proof.
  intros Hm Ht. destruct e as [i now|now]; simpl in Ht |- *.
  - destruct (decide (i = ip)) as [->|Hne].
    + unfold rateLimit.
      destruct (m !! ip) as [u|] eqn:Hi; [pose proof (Hm _ _ Hi)|];
        repeat case_match; simpl; rewrite lookup_insert_eq;
        unfold credit; simpl; repeat case_match;
        rewrite ?filter_nil, ?filter_cons; repeat case_decide; simpl;
        repeat match goal with
               | H : (_ <=? _) = true |- _ => apply Z.leb_le in H
               | H : (_ <=? _) = false |- _ => apply Z.leb_gt in H
               | H : (_ <? _) = true |- _ => apply Z.ltb_lt in H
               | H : (_ <? _) = false |- _ => apply Z.ltb_ge in H
               end;
        simpl in *; unfold MAX_REQUESTS_PER_HOUR in *; try lia; try done.
    + destruct (rateLimit_entry m i now) as (_ & _ & Hother).
      rewrite (Hother ip) by done.
      destruct (snd (rateLimit m i now)); simpl;
        rewrite ?filter_nil, ?filter_cons; repeat case_decide; simpl;
        try lia; done.
  - rewrite cleanUp_lookup. destruct (m !! ip) as [u|] eqn:Hi; [|simpl; lia].
    pose proof (Hm _ _ Hi).
    destruct (resetTime u <? now) eqn:Hlt; simpl; [|lia].
    apply Z.ltb_lt in Hlt.
    destruct (a + RATE_LIMIT_WINDOW <=? resetTime u) eqn:Hle;
      [apply Z.leb_le in Hle|]; unfold MAX_REQUESTS_PER_HOUR in *; lia.
Qed.

Lemma credit_nonneg (a : Z) (m : gmap string UserData) (ip : string) :
  counted m -> 0 <= credit a (m !! ip) <= 2 * MAX_REQUESTS_PER_HOUR - 1.
Proof.
  intros Hm. unfold credit. destruct (m !! ip) as [u|] eqn:Hi.
  - pose proof (Hm _ _ Hi). case_match; unfold MAX_REQUESTS_PER_HOUR in *; lia.
  - unfold MAX_REQUESTS_PER_HOUR. lia.
Qed.

Lemma passed_credit (a : Z) (ip : string) (events : list Event)
    (m : gmap string UserData) :
  counted m ->
  (forall e, e ∈ events -> a <= time e <= a + RATE_LIMIT_WINDOW) ->
  Z.of_nat (passed ip events m) <= credit a (m !! ip).
Proof.
  revert m. induction events as [|e events IH]; intros m Hm Ht.
  - unfold passed. simpl. by apply credit_nonneg.
  - rewrite passed_cons, Nat2Z.inj_add.
    assert (a <= time e <= a + RATE_LIMIT_WINDOW) as He
      by (apply Ht, elem_of_cons; by left).
    pose proof (step_credit a ip m e Hm He) as Hstep.
    assert (Z.of_nat (passed ip events (fst (step (m, []) e)))
            <= credit a (fst (step (m, []) e) !! ip)) as Hrest.
    { apply IH; [by apply step_counted|].
      intros e' He'. apply Ht, elem_of_cons. by right. }
    lia.
Qed.

End RateLimit.

(** X9 ([rateLimit] and the clean-up timer of [src/render-build.sh]).
    Whatever the server has answered before, during any period of one hour
    (every event of the period has its time between [a] and [a] plus
    [RATE_LIMIT_WINDOW]) at most nine requests of one client are let
    through: the counter is kept per window that opens with a request, not
    per hour, so the limit of five can be nearly doubled across two
    windows. *)
Theorem rate_limit_per_hour (before during : list Server.Event) (ip : string)
    (a : Z) :
  (forall e, e ∈ during ->
     a <= Server.time e <= a + Server.RATE_LIMIT_WINDOW) ->
  (Server.passed ip during (fst (Server.serve before ∅)) <= 9)%nat.
Proof.
  intros Ht.
  assert (Server.counted (fst (Server.serve before ∅))) as Hc.
  { apply serve_counted. intros i u Hi. by rewrite lookup_empty in Hi. }
  pose proof (passed_credit a ip during _ Hc Ht) as H1.
  pose proof (credit_nonneg a _ ip Hc) as H2.
  unfold Server.MAX_REQUESTS_PER_HOUR in H2. lia.
Qed.

Lemma rate_limit_per_hour_witness :
  (Server.passed "10.0.0.1"
     [Server.Request "10.0.0.1" 3599997; Server.Request "10.0.0.1" 3599998;
      Server.Request "10.0.0.1" 3599999; Server.Request "10.0.0.1" 3600000;
      Server.Request "10.0.0.1" 3600001; Server.Request "10.0.0.1" 3600002;
      Server.Request "10.0.0.1" 3600003; Server.Request "10.0.0.1" 3600004;
      Server.Request "10.0.0.1" 3600005; Server.Request "10.0.0.1" 3600006]
     (fst (Server.serve [Server.Request "10.0.0.1" 0] ∅)) <= 9)%nat
  /\ Server.passed "10.0.0.1"
       [Server.Request "10.0.0.1" 3599997; Server.Request "10.0.0.1" 3599998;
        Server.Request "10.0.0.1" 3599999; Server.Request "10.0.0.1" 3600000;
        Server.Request "10.0.0.1" 3600001; Server.Request "10.0.0.1" 3600002;
        Server.Request "10.0.0.1" 3600003; Server.Request "10.0.0.1" 3600004;
        Server.Request "10.0.0.1" 3600005; Server.Request "10.0.0.1" 3600006]
       (fst (Server.serve [Server.Request "10.0.0.1" 0] ∅)) = 9%nat.
Proof.
  split; [|by vm_compute].
  apply (rate_limit_per_hour [Server.Request "10.0.0.1" 0] _ "10.0.0.1" 3599997).
  intros e He.
  repeat (apply elem_of_cons in He as [-> | He];
          [unfold Server.RATE_LIMIT_WINDOW; simpl; lia|]).
  by apply elem_of_nil in He.
Defined.

Section OpenWindow.
Import Server.

Lemma rateLimit_open (m : gmap string UserData) (ip : string) (now : Z)
    (u : UserData) :
  m !! ip = Some u -> now <= resetTime u ->
  rateLimit m ip now
  = if MAX_REQUESTS_PER_HOUR <=? count u
    then (<[ip := u]> m, false)
    else (<[ip := {| count := count u + 1; resetTime := resetTime u |}]> m,
          true).
Proof.
  intros Hu Hnow. unfold rateLimit. rewrite Hu.
  assert ((resetTime u <? now) = false) as -> by (apply Z.ltb_ge; lia).
  reflexivity.
Qed.

Lemma passed_open_window (ip : string) (events : list Event)
    (m : gmap string UserData) (u : UserData) :
  m !! ip = Some u -> count u <= MAX_REQUESTS_PER_HOUR ->
  (forall e, e ∈ events -> time e <= resetTime u) ->
  Z.of_nat (passed ip events m)
  = Z.min (Z.of_nat (requestsOf ip events)) (MAX_REQUESTS_PER_HOUR - count u).
Proof.
  revert m u. induction events as [|e events IH]; intros m u Hu Hc Ht.
  - unfold passed. simpl. lia.
  - rewrite passed_cons, Nat2Z.inj_add.
    assert (time e <= resetTime u) as He by (apply Ht, elem_of_cons; by left).
    assert (forall e', e' ∈ events -> time e' <= resetTime u) as Ht'
      by (intros e' He'; apply Ht, elem_of_cons; by right).
    destruct e as [i now|now]; cbn [step fst snd time requestsOf app] in He |- *.
    + destruct (decide (i = ip)) as [->|Hne].
      * rewrite (rateLimit_open m ip now u Hu He).
        destruct (MAX_REQUESTS_PER_HOUR <=? count u) eqn:Hfull; cbn [fst snd].
        -- apply Z.leb_le in Hfull.
           rewrite filter_nil.
           rewrite (IH _ u); [simpl; lia|apply lookup_insert_eq|assumption..].
        -- apply Z.leb_gt in Hfull.
           rewrite filter_cons, filter_nil. rewrite decide_True by done.
           rewrite (IH _ {| count := count u + 1; resetTime := resetTime u |});
             [simpl; lia|apply lookup_insert_eq|simpl; lia|assumption].
      * destruct (rateLimit_entry m i now) as (_ & _ & Hother).
        assert (length (filter (fun i0 => i0 = ip)
                  (if snd (rateLimit m i now) then [i] else [])) = 0%nat) as ->.
        { destruct (snd (rateLimit m i now)); [|reflexivity].
          rewrite filter_cons, filter_nil. by rewrite decide_False. }
        rewrite (IH _ u); [lia| |assumption..].
        rewrite Hother by done. assumption.
    + rewrite filter_nil.
      rewrite (IH _ u); [simpl; lia| |assumption..].
      rewrite cleanUp_lookup, Hu.
      assert ((resetTime u <? now) = false) as -> by (apply Z.ltb_ge; lia).
      reflexivity.
Qed.

Lemma rateLimit_fresh (m : gmap string UserData) (ip : string) (now : Z) :
  m !! ip = None ->
  rateLimit m ip now
  = (<[ip := {| count := 1; resetTime := now + RATE_LIMIT_WINDOW |}]> m, true).
Proof.
  intros Hnone. unfold rateLimit. rewrite Hnone. simpl.
  assert ((now + RATE_LIMIT_WINDOW <? now) = false) as ->
    by (apply Z.ltb_ge; unfold RATE_LIMIT_WINDOW; lia).
  reflexivity.
Qed.

End OpenWindow.

(** X10 ([rateLimit] of [src/render-build.sh]).  While the window of a
    client is open (no event is later than the [resetTime] of its entry),
    exactly the first requests pass until its counter reaches
    [MAX_REQUESTS_PER_HOUR]: with [n] requests of the client and a counter
    at [k], the number let through is the smaller of [n] and [5 - k],
    whatever the other clients and the clean-up timer do in between; and a
    client without an entry opens a window of one hour with its first
    request, which passes. *)
Theorem rate_limit_open_window (ip : string) (events : list Server.Event)
    (m : gmap string Server.UserData) :
  (forall u,
     m !! ip = Some u ->
     Server.count u <= Server.MAX_REQUESTS_PER_HOUR ->
     (forall e, e ∈ events -> Server.time e <= Server.resetTime u) ->
     Z.of_nat (Server.passed ip events m)
     = Z.min (Z.of_nat (Server.requestsOf ip events))
             (Server.MAX_REQUESTS_PER_HOUR - Server.count u))
  /\ (forall now,
        m !! ip = None ->
        (forall e, e ∈ events ->
           Server.time e <= now + Server.RATE_LIMIT_WINDOW) ->
        Z.of_nat (Server.passed ip (Server.Request ip now :: events) m)
        = Z.min (1 + Z.of_nat (Server.requestsOf ip events))
                Server.MAX_REQUESTS_PER_HOUR).
Proof.
  split.
  - intros u. apply passed_open_window.
  - intros now Hnone Ht. rewrite passed_cons, Nat2Z.inj_add.
    cbn [Server.step fst snd app].
    rewrite (rateLimit_fresh m ip now Hnone). cbn [fst snd].
    rewrite filter_cons, filter_nil. rewrite decide_True by done.
    rewrite (passed_open_window ip events _
               {| Server.count := 1;
                  Server.resetTime := now + Server.RATE_LIMIT_WINDOW |});
      [simpl; unfold Server.MAX_REQUESTS_PER_HOUR; lia
      |apply lookup_insert_eq
      |simpl; unfold Server.MAX_REQUESTS_PER_HOUR; lia
      |exact Ht].
Qed.

Lemma rate_limit_open_window_witness :
  Z.of_nat (Server.passed "a"
              [Server.Request "a" 10; Server.Request "b" 11;
               Server.CleanUp 12; Server.Request "a" 13; Server.Request "a" 14;
               Server.Request "a" 15; Server.Request "a" 16;
               Server.Request "a" 17]
              (<["a" := {| Server.count := 1; Server.resetTime := 100 |}]> ∅))
  = Z.min (Z.of_nat 6) (5 - 1).
Proof.
  refine (proj1 (rate_limit_open_window "a" _ _)
            {| Server.count := 1; Server.resetTime := 100 |} _ _ _).
  - apply lookup_insert_eq.
  - simpl. unfold Server.MAX_REQUESTS_PER_HOUR. lia.
  - intros e He.
    repeat (apply elem_of_cons in He as [-> | He]; [simpl; lia|]).
    by apply elem_of_nil in He.
Defined.

(** ** The CORS filter *)


Lemma cors_isAllowed (o : string) :
  Cors.isAllowed o
  = (String.eqb o "http://localhost:3000"
     || (String.eqb o "http://localhost:3001"
     || (String.eqb o "https://crawlvaani.vercel.app"
     || (Text.endsWith o "https://vercel.app"
     || (Text.endsWith o "https://onrender.com"
     || (String.eqb o "https://crawlvaani-frontend.vercel.app"
     || (String.eqb o "https://crawlvaani-frontend.vercel.app/reports"
     || (String.eqb o "https://crawlvaani-frontend.onrender.com"
     || false)))))))).
Proof. reflexivity. Qed.

(** X11 (the [origin] callback of [corsOptions] in [src/render-build.sh]).
    The two wildcard entries match no subdomain: an origin is accepted by
    [https://*.vercel.app] only if it ends with [https://vercel.app], so an
    origin that ends with [.vercel.app] or [.onrender.com] is accepted only
    when it is one of the three origins listed in full; and an origin is
    accepted exactly when it is empty, listed in full, or ends with
    [https://vercel.app] or [https://onrender.com]. *)
Theorem cors_wildcards_match_no_subdomain (o : string) :
  (Cors.origin (Some o) = true <->
     o = ""
     \/ o ∈ ["http://localhost:3000"; "http://localhost:3001";
             "https://crawlvaani.vercel.app";
             "https://crawlvaani-frontend.vercel.app";
             "https://crawlvaani-frontend.vercel.app/reports";
             "https://crawlvaani-frontend.onrender.com"]
     \/ Text.endsWith o "https://vercel.app" = true
     \/ Text.endsWith o "https://onrender.com" = true)
  /\ (Text.endsWith o ".vercel.app" = true
      \/ Text.endsWith o ".onrender.com" = true ->
      Cors.origin (Some o) = true ->
      o ∈ ["https://crawlvaani.vercel.app";
           "https://crawlvaani-frontend.vercel.app";
           "https://crawlvaani-frontend.onrender.com"]).
Proof.
  assert (Cors.origin (Some o) = true <->
     o = ""
     \/ o ∈ ["http://localhost:3000"; "http://localhost:3001";
             "https://crawlvaani.vercel.app";
             "https://crawlvaani-frontend.vercel.app";
             "https://crawlvaani-frontend.vercel.app/reports";
             "https://crawlvaani-frontend.onrender.com"]
     \/ Text.endsWith o "https://vercel.app" = true
     \/ Text.endsWith o "https://onrender.com" = true) as Hiff.
  { unfold Cors.origin. rewrite cors_isAllowed.
    rewrite !orb_true_iff, !String.eqb_eq, !elem_of_cons, elem_of_nil.
    assert (Js.isEmpty o = true <-> o = "") as ->
      by (destruct o; simpl; split; intros; done).
    intuition discriminate. }
  split; [exact Hiff|].
  intros Hsub Hok. apply Hiff in Hok.
  assert (forall a b, Text.endsWith o a = true -> Text.endsWith o b = true ->
                      String.length a = String.length b -> a <> b -> False)
    as Hclash.
  { intros a b Ha Hb Hlen Hne. apply Hne.
    by apply (endsWith_same_length o). }
  assert (Text.endsWith o "https://vercel.app" = true -> False) as Hv.
  { intros He.
    assert (Text.endsWith o "/vercel.app" = true) as H1
      by (eapply endsWith_trans; [exact He|reflexivity]).
    assert (Text.endsWith o "app" = true) as H2
      by (eapply endsWith_trans; [exact He|reflexivity]).
    destruct Hsub as [Hs | Hs].
    - by apply (Hclash "/vercel.app" ".vercel.app").
    - assert (Text.endsWith o "com" = true) as H3
        by (eapply endsWith_trans; [exact Hs|reflexivity]).
      by apply (Hclash "app" "com"). }
  assert (Text.endsWith o "https://onrender.com" = true -> False) as Hr.
  { intros He.
    assert (Text.endsWith o "/onrender.com" = true) as H1
      by (eapply endsWith_trans; [exact He|reflexivity]).
    assert (Text.endsWith o "com" = true) as H2
      by (eapply endsWith_trans; [exact He|reflexivity]).
    destruct Hsub as [Hs | Hs].
    - assert (Text.endsWith o "app" = true) as H3
        by (eapply endsWith_trans; [exact Hs|reflexivity]).
      by apply (Hclash "app" "com").
    - by apply (Hclash "/onrender.com" ".onrender.com"). }
  destruct Hok as [-> | [Hin | [He | He]]]; [|  |by destruct Hv|by destruct Hr].
  - destruct Hsub; discriminate.
  - apply list_elem_of_In in Hin. apply list_elem_of_In. simpl in Hin |- *.
    destruct Hin as [<- | [<- | [<- | [<- | [<- | [<- | []]]]]]];
      try tauto; destruct Hsub; discriminate.
Qed.

Lemma cors_wildcards_match_no_subdomain_witness :
  "https://crawlvaani-frontend.onrender.com"
    ∈ ["https://crawlvaani.vercel.app";
       "https://crawlvaani-frontend.vercel.app";
       "https://crawlvaani-frontend.onrender.com"].
Proof.
  apply (proj2 (cors_wildcards_match_no_subdomain
                  "https://crawlvaani-frontend.onrender.com")).
  - right. reflexivity.
  - reflexivity.
Defined.

(** A preview deployment under [vercel.app] is refused, and a string that
    is no origin of a web page but ends with [https://vercel.app] is
    accepted. *)
Example cors_wildcard_examples :
  Cors.origin (Some "https://crawlvaani-git-main.vercel.app") = false
  /\ Cors.origin (Some "null, https://vercel.app") = true.
Proof. split; reflexivity. Qed.

(** ** Report file names *)

Section ReportNames.
Import Reports.

Lemma lazyGroup_host (r rest : string) :
  oneLine r = true ->
  lazyGroup (sanitizedHost r +:+ String "-" rest) = Some (labelRest r).
Proof.
  induction r as [|c r IH]; intros Hone; [reflexivity|].
  simpl in Hone. apply andb_true_iff in Hone as [Hc Hr].
  apply negb_true_iff in Hc.
  unfold sanitizedHost in *.
  cbn [Text.replaceAll labelRest]. rewrite append_String. cbn [lazyGroup].
  destruct (Ascii.eqb_spec c ".") as [->|Hdot]; [reflexivity|].
  destruct (Ascii.eqb_spec c "-") as [->|Hdash]; [reflexivity|].
  cbn [orb]. rewrite Hc, (IH Hr). reflexivity.
Qed.

Lemma labelRest_plain (s : string) :
  Text.replaceAll "-" "." (labelRest s) = labelRest s
  /\ Text.includes (labelRest s) "." = false.
Proof.
  induction s as [|c r [IH1 IH2]]; [split; reflexivity|].
  cbn [labelRest].
  destruct (Ascii.eqb_spec c ".") as [->|Hdot]; [split; reflexivity|].
  destruct (Ascii.eqb_spec c "-") as [->|Hdash]; [split; reflexivity|].
  cbn [orb Text.replaceAll]. split.
  - apply Ascii.eqb_neq in Hdash. rewrite Hdash, IH1. reflexivity.
  - rewrite includes_char, IH2.
    assert (Ascii.eqb "." c = false) as -> by (apply Ascii.eqb_neq; congruence).
    reflexivity.
Qed.

Lemma prefix_has_dot (p q s : string) :
  String.prefix (p +:+ String "." q) s = true -> Text.includes s "." = true.
Proof.
  revert s. induction p as [|x p IH]; intros s;
    rewrite ?append_String, ?append_empty;
    destruct s as [|c r]; cbn [String.prefix]; try discriminate.
  - destruct (ascii_dec "." c) as [<-|]; [|discriminate].
    intros _. by rewrite includes_char.
  - destruct (ascii_dec x c) as [<-|]; [|discriminate].
    intros H. rewrite includes_char, (IH r H). apply orb_true_r.
Qed.

Lemma includes_dot (s p q : string) :
  Text.includes s "." = false -> Text.includes s (p +:+ String "." q) = false.
Proof.
  induction s as [|c r IH]; intros Hs.
  - destruct p; reflexivity.
  - destruct (String.prefix (p +:+ String "." q) (String c r)) eqn:Hp.
    + apply prefix_has_dot in Hp. congruence.
    + cbn [Text.includes] in Hs |- *. rewrite Hp.
      apply orb_false_iff in Hs as [_ Hr]. by rewrite (IH Hr).
Qed.

Lemma labelRest_whole (s : string) :
  labelRest s = s <->
  Text.includes s "." = false /\ Text.includes s "-" = false.
Proof.
  induction s as [|c r IH]; [by split|].
  rewrite !includes_char. cbn [labelRest].
  rewrite (Ascii.eqb_sym "." c), (Ascii.eqb_sym "-" c).
  destruct (Ascii.eqb c "."); [cbn [orb]; split; [discriminate|by intros [? _]]|].
  destruct (Ascii.eqb c "-"); [cbn [orb]; split; [discriminate|by intros [_ ?]]|].
  cbn [orb]. rewrite <- IH. split; [intros [= ?]|intros ->]; done.
Qed.

Lemma domainMatch_first (s g : string) :
  groupAt s = Some g -> domainMatch s = Some g.
Proof. intros H. destruct s; cbn [domainMatch]; by rewrite H. Qed.

Lemma groupAt_file (c : ascii) (s : string) :
  groupAt ("SEO-Report-" +:+ String c s)
  = if isLineTerminator c then None
    else match lazyGroup s with
         | Some g => Some (String c g)
         | None => None
         end.
Proof. reflexivity. Qed.

End ReportNames.

(** X12 (the file name of [runCrawl] in [src/crawler.js], read back by
    [extractReportData] in [src/utils/reportConsolidator.js] and by the
    handler of [/api/reports/list] in [src/render-build.sh]).  For a report
    that [runCrawl] has written, the domain the readers extract from the
    file name is the first label of the host only (the dots of the host
    were written as dashes and the group of the regular expression stops at
    the first dash); so it is the host only for a host without dot or dash,
    it never contains a dot, the two special cases of [fullUrl] cannot
    apply, and [fullUrl] is [https://www.] followed by that label.  The
    file passes the filter of [getAllReportFiles]. *)
Theorem report_domain_is_first_label (c : ascii) (rest timestamp : string) :
  Reports.isLineTerminator c = false -> c <> "."%char -> c <> "-"%char ->
  Reports.oneLine rest = true ->
  let hostname := String c rest in
  let file := Reports.fileName hostname timestamp in
  Reports.domain file = Reports.firstLabel hostname
  /\ (Reports.domain file = hostname <->
      Text.includes rest "." = false /\ Text.includes rest "-" = false)
  /\ Reports.fullUrl (Reports.domain file)
     = "https://www." +:+ Reports.firstLabel hostname
  /\ Reports.isReportFile file = true.
Proof.
  intros Hlt Hdot Hdash Hone hostname file.
  assert (Reports.domain file = Reports.firstLabel hostname) as Hdom.
  { unfold Reports.domain, file, Reports.fileName, hostname.
    assert (Reports.domainMatch
              ("SEO-Report-" +:+ Reports.sanitizedHost (String c rest)
               +:+ "-" +:+ timestamp +:+ ".xlsx")
            = Some (String c (Reports.labelRest rest))) as ->.
    { apply domainMatch_first. unfold Reports.sanitizedHost.
      cbn [Text.replaceAll]. apply Ascii.eqb_neq in Hdot. rewrite Hdot.
      rewrite (append_String c), groupAt_file, Hlt.
      change (Text.replaceAll "." "-" rest) with (Reports.sanitizedHost rest).
      change ("-" +:+ timestamp +:+ ".xlsx")
        with (String "-" (timestamp +:+ ".xlsx")).
      by rewrite lazyGroup_host. }
    cbn [Text.replaceAll Reports.firstLabel].
    apply Ascii.eqb_neq in Hdash. rewrite Hdash.
    by rewrite (proj1 (labelRest_plain rest)). }
  assert (Text.includes (Reports.firstLabel hostname) "." = false) as Hnodot.
  { unfold hostname. cbn [Reports.firstLabel].
    rewrite includes_char, (proj2 (labelRest_plain rest)).
    assert (Ascii.eqb "." c = false) as -> by (apply Ascii.eqb_neq; congruence).
    reflexivity. }
  split; [exact Hdom|]. split; [|split].
  - rewrite Hdom. unfold hostname. cbn [Reports.firstLabel].
    rewrite <- labelRest_whole. split; [intros [= ?]|intros ->]; done.
  - rewrite Hdom. unfold Reports.fullUrl.
    assert (String.eqb (Reports.firstLabel hostname) "hridaysehgal.vercel.app"
            = false) as ->.
    { apply String.eqb_neq. intros Heq. rewrite Heq in Hnodot. discriminate. }
    assert (String.eqb (Reports.firstLabel hostname) "thehealth24.com"
            = false) as ->.
    { apply String.eqb_neq. intros Heq. rewrite Heq in Hnodot. discriminate. }
    change "www." with ("www" +:+ String "." "").
    by rewrite (includes_dot _ "www" "" Hnodot).
  - unfold Reports.isReportFile, file, Reports.fileName.
    apply andb_true_iff. split; [|reflexivity].
    do 4 apply endsWith_append. apply endsWith_refl.
Qed.

Lemma report_domain_is_first_label_witness :
  Reports.domain
    (Reports.fileName "www.example.com" "2024-05-01-10-20-30") = "www"
  /\ Reports.fullUrl
       (Reports.domain
          (Reports.fileName "www.example.com" "2024-05-01-10-20-30"))
     = "https://www.www".
Proof.
  pose proof (report_domain_is_first_label "w" "ww.example.com"
                "2024-05-01-10-20-30" eq_refl) as Hk.
  destruct Hk as (H1 & _ & H3 & _); [discriminate|discriminate|reflexivity|].
  split; [exact H1|exact H3].
Defined.

(** ** Every page is accounted for *)

Section Part000Accounts.
Context {U : UrlApi} (base bd : string).
Import Part000.

Local Abbreviation step := (Part000.step base bd).
Local Abbreviation run := (Part000.run base bd).






End Part000Accounts.

Section CrawlerAccounts.
Context {U : UrlApi} (base bd main : string).
Import Crawler.

Local Abbreviation step := (Crawler.step base bd main).
Local Abbreviation run := (Crawler.run base bd main).





End CrawlerAccounts.



(** ** The SEO score of the executive summary *)

(** X15 ([generateExecutiveSummary] of
    [src/utils/reportConsolidator.js]).  The SEO score is always between 25
    and 100, so [Math.max(0, seoScore)] never changes it; it is 100 minus
    three capped penalties, whether or not the tests [> 0] are there; it is
    100 exactly when there is no broken link, no accessibility issue and no
    page without title, and 25 exactly when there are at least 15 broken
    links, 7 accessibility issues and 5 pages without title. *)
Theorem seoScore_bounds (allData : gmap string (list Consolidator.SheetRow)) :
  let broken := Consolidator.rowCount allData "Broken Links" in
  let issues := Consolidator.rowCount allData "Accessibility Issues" in
  let untitled :=
    match allData !! "SEO Info" with
    | Some rows => Consolidator.missingTitles rows
    | None => 0
    end in
  25 <= Consolidator.seoScore allData <= 100
  /\ Consolidator.seoScore allData
     = 100 - Z.min 30 (broken * 2) - Z.min 20 (issues * 3)
       - Z.min 25 (untitled * 5)
  /\ (Consolidator.seoScore allData = 100 <->
      broken = 0 /\ issues = 0 /\ untitled = 0)
  /\ (Consolidator.seoScore allData = 25 <->
      15 <= broken /\ 7 <= issues /\ 5 <= untitled).
Proof.
  intros broken issues untitled.
  assert (0 <= broken) as Hb.
  { unfold broken, Consolidator.rowCount.
    destruct (allData !! "Broken Links"); lia. }
  assert (0 <= issues) as Hi.
  { unfold issues, Consolidator.rowCount.
    destruct (allData !! "Accessibility Issues"); lia. }
  assert (0 <= untitled) as Hu.
  { unfold untitled, Consolidator.missingTitles.
    destruct (allData !! "SEO Info"); lia. }
  assert (Consolidator.seoScore allData
          = 100 - Z.min 30 (broken * 2) - Z.min 20 (issues * 3)
            - Z.min 25 (untitled * 5)) as Heq.
  { unfold Consolidator.seoScore. fold broken issues.
    clearbody broken issues. subst untitled.
    destruct (allData !! "SEO Info") as [rows|];
      destruct (0 <? broken) eqn:E1; destruct (0 <? issues) eqn:E2;
      try apply Z.ltb_lt in E1; try apply Z.ltb_ge in E1;
      try apply Z.ltb_lt in E2; try apply Z.ltb_ge in E2; lia. }
  rewrite Heq. repeat split; lia.
Qed.

(** ** Column widths *)

Section ColumnWidths.
Import Sheets.

Lemma maxOf_bounds (x : Z) (xs : list Z) :
  x <= maxOf x xs
  /\ (forall y, y ∈ xs -> y <= maxOf x xs)
  /\ (maxOf x xs = x \/ maxOf x xs ∈ xs).
Proof.
  induction xs as [|z xs (IH1 & IH2 & IH3)]; simpl.
  - split; [lia|]. split; [|by left].
    intros y Hy. by apply elem_of_nil in Hy.
  - split; [lia|]. split.
    + intros y Hy. apply elem_of_cons in Hy as [-> | Hy]; [lia|].
      specialize (IH2 y Hy). lia.
    + destruct (Z.max_spec z (maxOf x xs)) as [[_ ->] | [_ ->]].
      * destruct IH3 as [? | ?]; [by left|]. right. apply elem_of_cons. by right.
      * right. apply elem_of_cons. by left.
Qed.

End ColumnWidths.

(** X16 ([autoFitColumns], both revisions).  There is one width per key of
    the first row; every width is between 2 and 50; a column is at least as
    wide as its header and as every truthy cell of the column, plus 2,
    unless that exceeds 50; and a width below 50 is exactly the header or
    one of the cells of the column plus 2. *)
Theorem autoFitColumns_fits (data : list Sheets.Row) (i : nat) (col : string)
    (wch : Z) :
  (fst <$> default [] (head data)) !! i = Some col ->
  Sheets.autoFitColumns data !! i = Some wch ->
  length (Sheets.autoFitColumns data) = length (default [] (head data))
  /\ 2 <= wch <= 50
  /\ Z.min 50 (Z.of_nat (String.length col) + 2) <= wch
  /\ (forall row, row ∈ data -> Z.min 50 (Sheets.cellLength col row + 2) <= wch)
  /\ (wch < 50 ->
      wch = Z.of_nat (String.length col) + 2
      \/ exists row, row ∈ data /\ wch = Sheets.cellLength col row + 2).
Proof.
  intros Hcol Hw. unfold Sheets.autoFitColumns in *.
  rewrite list_lookup_fmap, Hcol in Hw. simpl in Hw. injection Hw as <-.
  destruct (maxOf_bounds (Z.of_nat (String.length col))
              (Sheets.cellLength col <$> data)) as (H1 & H2 & H3).
  split; [by rewrite !length_fmap|]. split; [lia|]. split; [lia|]. split.
  - intros row Hrow.
    assert (Sheets.cellLength col row
            <= Sheets.maxOf (Z.of_nat (String.length col))
                 (Sheets.cellLength col <$> data)) as Hle.
    { apply H2, list_elem_of_fmap. eauto. }
    lia.
  - intros Hlt. destruct H3 as [Heq | Hin].
    + left. lia.
    + right. apply list_elem_of_fmap in Hin as (row & Heq & Hrow).
      exists row. split; [assumption|]. lia.
Qed.

Lemma autoFitColumns_fits_witness :
  2 <= 8 <= 50.
Proof.
  refine (proj1 (proj2 (autoFitColumns_fits
    [[("url", {| Sheets.cell_truthy := true; Sheets.cell_text := "a.html" |});
      ("status", {| Sheets.cell_truthy := true; Sheets.cell_text := "200" |})];
     [("url", {| Sheets.cell_truthy := true; Sheets.cell_text := "b" |});
      ("status", {| Sheets.cell_truthy := false; Sheets.cell_text := "0" |})]]
    0%nat "url" 8 eq_refl eq_refl))).
Defined.

(** ** Meta tags *)

(** X17 ([extractMetaTags], both revisions).  Every element the selector
    of the Open Graph loop keeps also gets a row in [metaTags], so there
    are no more Open Graph rows than meta-tag rows, and no more of these
    than [meta] elements; no row of [metaTags] has an empty name; and a
    row of [metaTags] is typed [Open Graph] by its [name] attribute when it
    has one, so an element with a [name] and an [og:] property is a
    [Standard] (or Twitter, Facebook) meta tag and an Open Graph tag at
    once. *)
Theorem extractMetaTags_rows (metas : list Meta.Element) (currentUrl : string) :
  let r := Meta.extractMetaTags metas currentUrl in
  (length (snd r) <= length (fst r) <= length metas)%nat
  /\ (forall t, t ∈ fst r -> Meta.mt_name t <> "" /\ Meta.mt_url t = currentUrl)
  /\ (forall o, o ∈ snd r ->
        exists p, Meta.og_property o = Some p /\ Js.startsWith p "og:" = true)
  /\ (forall el name,
        el ∈ metas -> Meta.isOg el = true ->
        Meta.attr_name el = Some name -> name <> "" ->
        exists t, t ∈ fst r /\ Meta.mt_name t = name
                  /\ Meta.mt_type t = Meta.typeOf name).
Proof.
  intros r. subst r. unfold Meta.extractMetaTags. cbn [fst snd].
  assert (forall el, Meta.isOg el = true ->
            is_Some (Meta.metaTagOf currentUrl el)) as Hog.
  { intros el Hel. unfold Meta.isOg in Hel. unfold Meta.metaTagOf.
    destruct (Meta.attr_property el) as [p|]; [|discriminate].
    assert (Js.isEmpty p = false) as Hp by (by destruct p).
    assert (Js.isEmpty (Meta.orElse (Meta.attr_name el)
                          (Meta.orElse (Some p) "")) = false) as ->.
    { unfold Meta.orElse. rewrite Hp.
      destruct (Meta.attr_name el) as [n|]; [|assumption].
      by destruct (Js.isEmpty n) eqn:E. }
    simpl. eauto. }
  split; [split|split; [|split]].
  - rewrite length_fmap. induction metas as [|el metas IH]; [simpl; lia|].
    rewrite filter_cons.
    change (omap (Meta.metaTagOf currentUrl) (el :: metas))
      with (match Meta.metaTagOf currentUrl el with
            | Some y => y :: omap (Meta.metaTagOf currentUrl) metas
            | None => omap (Meta.metaTagOf currentUrl) metas
            end).
    case_decide as Hel.
    + destruct (Hog el Hel) as [t ->]. cbn [length]. lia.
    + destruct (Meta.metaTagOf currentUrl el); cbn [length]; lia.
  - induction metas as [|el metas IH]; [simpl; lia|].
    change (omap (Meta.metaTagOf currentUrl) (el :: metas))
      with (match Meta.metaTagOf currentUrl el with
            | Some y => y :: omap (Meta.metaTagOf currentUrl) metas
            | None => omap (Meta.metaTagOf currentUrl) metas
            end).
    destruct (Meta.metaTagOf currentUrl el); cbn [length]; lia.
  - intros t Ht. apply list_elem_of_omap in Ht as (el & _ & Ht).
    unfold Meta.metaTagOf in Ht. case_match; [|discriminate].
    injection Ht as <-. simpl. split; [|reflexivity].
    case_match eqn:E; [discriminate|]. intros Heq. by rewrite Heq in E.
  - intros o Ho. apply list_elem_of_fmap in Ho as (el & -> & Hel).
    apply list_elem_of_filter in Hel as [Hel _]. unfold Meta.isOg in Hel.
    simpl. destruct (Meta.attr_property el) as [p|]; [eauto|discriminate].
  - intros el name Hin Hel Hname Hne.
    assert (Js.isEmpty name = false) as Hn by (by destruct name).
    exists {| Meta.mt_url := currentUrl;
              Meta.mt_name := name;
              Meta.mt_content :=
                if Js.isEmpty (Meta.orElse (Meta.attr_content el) "")
                then Meta.orElse (Meta.attr_charset el) ""
                else Meta.orElse (Meta.attr_content el) "";
              Meta.mt_type := Meta.typeOf name |}.
    split; [|split; reflexivity].
    apply list_elem_of_omap. exists el. split; [assumption|].
    unfold Meta.metaTagOf.
    assert (Meta.orElse (Meta.attr_name el)
              (Meta.orElse (Meta.attr_property el) "") = name) as ->.
    { unfold Meta.orElse at 1. by rewrite Hname, Hn. }
    by rewrite Hn.
Qed.

Lemma extractMetaTags_rows_witness :
  exists t,
    t ∈ fst (Meta.extractMetaTags
               [{| Meta.attr_name := Some "description";
                   Meta.attr_property := Some "og:description";
                   Meta.attr_content := Some "A site";
                   Meta.attr_charset := None |}] "https://a.example/")
    /\ Meta.mt_name t = "description"
    /\ Meta.mt_type t = "Standard".
Proof.
  refine (proj2 (proj2 (proj2 (extractMetaTags_rows
    [{| Meta.attr_name := Some "description";
        Meta.attr_property := Some "og:description";
        Meta.attr_content := Some "A site";
        Meta.attr_charset := None |}] "https://a.example/")))
    {| Meta.attr_name := Some "description";
       Meta.attr_property := Some "og:description";
       Meta.attr_content := Some "A site";
       Meta.attr_charset := None |} "description"
    _ eq_refl eq_refl _).
  - apply elem_of_cons. by left.
  - discriminate.
Defined.

(** ** Lighthouse statuses *)

Section LighthouseStatus.
Import Lighthouse.

Lemma round_bounds (v : Q) :
  (inject_Z (round v) - (1 # 2) <= v < inject_Z (round v) + (1 # 2))%Q.
Proof.
  unfold round.
  pose proof (Qfloor_le (v + (1 # 2))) as H1.
  pose proof (Qlt_floor (v + (1 # 2))) as H2.
  rewrite inject_Z_plus in H2. change (inject_Z 1) with 1%Q in H2.
  split; lra.
Qed.

Lemma inject_Z_lt_half (a b : Z) (v : Q) :
  (inject_Z a - (1 # 2) <= v)%Q -> (v <= inject_Z b)%Q -> a <= b.
Proof.
  intros H1 H2. destruct (Z.le_gt_cases a b) as [|Hgt]; [assumption|exfalso].
  assert (b + 1 <= a) as Hle by lia.
  rewrite Zle_Qle, inject_Z_plus in Hle. change (inject_Z 1) with 1%Q in Hle.
  lra.
Qed.

Lemma status_good (good poor : Z) (v : Q) :
  status good poor v = "Good" <-> (v <= inject_Z good)%Q.
Proof.
  unfold status. destruct (Qle_bool v (inject_Z good)) eqn:E.
  - apply Qle_bool_iff in E. tauto.
  - split; [destruct (Qle_bool v (inject_Z poor)); discriminate|].
    intros H. apply Qle_bool_iff in H. congruence.
Qed.

Lemma status_poor (good poor : Z) (v : Q) :
  good <= poor ->
  status good poor v = "Poor" <-> (inject_Z poor < v)%Q.
Proof.
  intros Hgp. unfold status. destruct (Qle_bool v (inject_Z good)) eqn:E.
  - apply Qle_bool_iff in E. split; [discriminate|].
    rewrite Zle_Qle in Hgp. intros H. lra.
  - destruct (Qle_bool v (inject_Z poor)) eqn:E'.
    + apply Qle_bool_iff in E'. split; [discriminate|]. intros H. lra.
    + split; [intros _|reflexivity].
      apply Qnot_le_lt. intros H. apply Qle_bool_iff in H. congruence.
Qed.

End LighthouseStatus.

(** X18 ([runLighthouseAnalysis] of [src/crawler.js]).  The status of a
    metric is computed from the measured value and the row shows the
    rounded value: a shown value below the first threshold is [Good], one
    above the second is [Poor], one strictly between them is [Needs
    Improvement], but a shown value equal to a threshold can carry either
    status; and an audit that is missing counts as 0 and is rated
    [Good]. *)
Theorem lighthouse_status_of_shown_value (good poor : Z) (v : Q) :
  0 <= good -> good < poor ->
  (Lighthouse.round v < good -> Lighthouse.status good poor v = "Good")
  /\ (poor < Lighthouse.round v -> Lighthouse.status good poor v = "Poor")
  /\ (good < Lighthouse.round v < poor ->
      Lighthouse.status good poor v = "Needs Improvement")
  /\ (Lighthouse.status good poor v = "Good" -> Lighthouse.round v <= good)
  /\ (Lighthouse.status good poor v = "Poor" -> poor <= Lighthouse.round v)
  /\ Lighthouse.round (inject_Z good) = good
  /\ Lighthouse.round (inject_Z good + (2 # 5)) = good
  /\ Lighthouse.status good poor (inject_Z good) = "Good"
  /\ Lighthouse.status good poor (inject_Z good + (2 # 5))
     = "Needs Improvement"
  /\ Lighthouse.status good poor (Lighthouse.numericValue None) = "Good".
Proof.
  intros H0 Hgp.
  pose proof (round_bounds v) as [Hlo Hhi].
  assert (forall a b : Z, a < b -> (inject_Z a + 1 <= inject_Z b)%Q) as Hstep.
  { intros a b Hab. assert (a + 1 <= b) as Hle by lia.
    rewrite Zle_Qle, inject_Z_plus in Hle. exact Hle. }
  assert (forall w : Q, (inject_Z good < w)%Q -> (w <= inject_Z poor)%Q ->
            Lighthouse.status good poor w = "Needs Improvement") as Hmid.
  { intros w H1 H2. unfold Lighthouse.status.
    destruct (Qle_bool w (inject_Z good)) eqn:E.
    - apply Qle_bool_iff in E. lra.
    - apply Qle_bool_iff in H2. by rewrite H2. }
  split; [|split; [|split; [|split; [|split]]]].
  - intros Hlt. apply status_good. apply Hstep in Hlt. lra.
  - intros Hlt. apply status_poor; [lia|]. apply Hstep in Hlt. lra.
  - intros [H1 H2]. apply Hstep in H1, H2. apply Hmid; lra.
  - intros Hs. apply status_good in Hs. by eapply inject_Z_lt_half.
  - intros Hs. apply status_poor in Hs; [|lia].
    destruct (Z.le_gt_cases poor (Lighthouse.round v)) as [|Hgt];
      [assumption|exfalso].
    apply Hstep in Hgt. lra.
  - assert (forall w : Q, (inject_Z good <= w)%Q ->
              (w < inject_Z good + (1 # 2))%Q -> Lighthouse.round w = good)
      as Hround.
    { intros w H1 H2. pose proof (round_bounds w) as [Hl Hh].
      apply Z.le_antisymm.
      - destruct (Z.le_gt_cases (Lighthouse.round w) good) as [|Hgt];
          [assumption|exfalso]. apply Hstep in Hgt. lra.
      - destruct (Z.le_gt_cases good (Lighthouse.round w)) as [|Hgt];
          [assumption|exfalso]. apply Hstep in Hgt. lra. }
    split; [apply Hround; lra|]. split; [apply Hround; lra|].
    split; [apply status_good; lra|]. split.
    + apply Hmid; [lra|]. apply Hstep in Hgp. lra.
    + apply status_good. simpl. rewrite Zle_Qle in H0. exact H0.
Qed.

Lemma lighthouse_status_of_shown_value_witness :
  Lighthouse.lcp (Some (12502 # 5)) = (2500, "Needs Improvement")
  /\ Lighthouse.status 2500 4000 (inject_Z 2500 + (2 # 5))
     = "Needs Improvement".
Proof.
  split; [reflexivity|].
  apply (lighthouse_status_of_shown_value 2500 4000 0); lia.
Defined.

(** ** Keyword counts *)

Section KeywordCounts.
Import Keywords.

Lemma own_None (freq : Freq) (k : string) :
  own freq k = None <-> k ∉ freq.*1.
Proof.
  induction freq as [|[key v] rest IH]; simpl.
  - split; [intros _; apply not_elem_of_nil|done].
  - rewrite not_elem_of_cons. destruct (String.eqb_spec key k) as [->|Hne].
    + split; [discriminate|]. intros [? _]. done.
    + rewrite IH. split; [intros ?; split; [congruence|done]|by intros [_ ?]].
Qed.

Lemma own_elem (freq : Freq) (k : string) (v : Count) :
  NoDup freq.*1 -> (k, v) ∈ freq <-> own freq k = Some v.
Proof.
  induction freq as [|[key v'] rest IH]; simpl; intros Hnd.
  - split; [intros H; by apply elem_of_nil in H|discriminate].
  - apply NoDup_cons in Hnd as [Hkey Hnd]. rewrite elem_of_cons.
    destruct (String.eqb_spec key k) as [->|Hne].
    + split.
      * intros [[= ->] | Hin]; [reflexivity|].
        exfalso. apply Hkey, list_elem_of_fmap. by exists (k, v).
      * intros [= ->]. by left.
    + rewrite <- (IH Hnd). split; [intros [[= ? ?] | ?]; [congruence|done]|auto].
Qed.

Lemma assign_keys (freq : Freq) (k : string) (v : Count) :
  (assign freq k v).*1 = freq.*1.
Proof.
  induction freq as [|[key v'] rest IH]; cbn [assign]; [reflexivity|].
  destruct (String.eqb_spec key k); [reflexivity|].
  rewrite !fmap_cons. by rewrite IH.
Qed.

Lemma own_assign (freq : Freq) (k k' : string) (v : Count) :
  own (assign freq k v) k'
  = if String.eqb k k'
    then match own freq k with Some _ => Some v | None => None end
    else own freq k'.
Proof.
  induction freq as [|[key v'] rest IH]; simpl.
  - by destruct (String.eqb k k').
  - destruct (String.eqb_spec key k) as [->|Hne]; simpl.
    + destruct (String.eqb_spec k k') as [->|Hne']; [reflexivity|reflexivity].
    + destruct (String.eqb_spec key k') as [->|Hne'].
      * destruct (String.eqb_spec k k') as [->|_]; [done|reflexivity].
      * exact IH.
Qed.

Lemma own_app (freq : Freq) (k k' : string) (v : Count) :
  own (freq ++ [(k, v)]) k'
  = match own freq k' with
    | Some v' => Some v'
    | None => if String.eqb k k' then Some v else None
    end.
Proof.
  induction freq as [|[key v'] rest IH]; simpl; [reflexivity|].
  by destruct (String.eqb key k').
Qed.

Lemma occurrences_snoc (words : list string) (w k : string) :
  occurrences (words ++ [w]) k
  = occurrences words k + (if String.eqb w k then 1 else 0).
Proof.
  unfold occurrences. rewrite filter_app, length_app, filter_cons, filter_nil.
  destruct (String.eqb_spec w k) as [->|Hne].
  - rewrite decide_True by done. simpl. lia.
  - rewrite decide_False by done. simpl. lia.
Qed.

Lemma occurrences_nonneg (words : list string) (k : string) :
  0 <= occurrences words k.
Proof. unfold occurrences. lia. Qed.

Lemma occurrences_pos (words : list string) (k : string) :
  0 < occurrences words k <-> k ∈ words.
Proof.
  unfold occurrences. split.
  - intros H. destruct (filter (fun w => w = k) words) as [|x l] eqn:E;
      [simpl in H; lia|].
    assert (x ∈ filter (fun w => w = k) words) as Hx
      by (rewrite E; apply elem_of_cons; by left).
    apply list_elem_of_filter in Hx as [-> ?]. done.
  - intros H.
    assert (k ∈ filter (fun w => w = k) words) as Hk
      by (by apply list_elem_of_filter).
    destruct (filter (fun w => w = k) words); [by apply elem_of_nil in Hk|].
    simpl. lia.
Qed.

Lemma countWord_counted (freq : Freq) (words : list string) (w : string) :
  w ∉ inheritedNames ->
  tallied freq words -> tallied (countWord freq w) (words ++ [w]).
Proof.
  intros Hw [Hnd Hown]. unfold countWord.
  pose proof (occurrences_nonneg words w) as Hge.
  rewrite (Hown w). destruct (0 <? occurrences words w) eqn:Hpos.
  - apply Z.ltb_lt in Hpos. split; [by rewrite assign_keys|].
    intros k. rewrite own_assign, occurrences_snoc, (Hown w), (Hown k).
    assert ((0 <? occurrences words w) = true) as -> by (by apply Z.ltb_lt).
    destruct (String.eqb_spec w k) as [->|Hne].
    + assert ((0 <? occurrences words k + 1) = true) as ->
        by (apply Z.ltb_lt; lia).
      reflexivity.
    + by rewrite Z.add_0_r.
  - apply Z.ltb_ge in Hpos.
    assert (String.eqb w "__proto__" = false) as ->.
    { apply String.eqb_neq. intros ->. apply Hw.
      apply elem_of_cons. right. apply elem_of_cons. by left. }
    rewrite bool_decide_eq_false_2 by assumption. split.
    + rewrite fmap_app. simpl. apply NoDup_app. split; [assumption|].
      split; [|apply NoDup_singleton].
      intros x Hx Hx'. apply list_elem_of_singleton in Hx' as ->.
      apply own_None in Hx; [done|]. rewrite (Hown w).
      by assert ((0 <? occurrences words w) = false) as ->
        by (by apply Z.ltb_ge).
    + intros k. rewrite own_app, occurrences_snoc, (Hown k).
      pose proof (occurrences_nonneg words k).
      destruct (String.eqb_spec w k) as [->|Hne].
      * assert ((0 <? occurrences words k) = false) as ->
          by (by apply Z.ltb_ge).
        assert (occurrences words k = 0) as -> by lia. reflexivity.
      * rewrite Z.add_0_r. by destruct (0 <? occurrences words k).
Qed.

Lemma foldl_counted (words done : list string) (freq : Freq) :
  (forall w, w ∈ words -> w ∉ inheritedNames) ->
  tallied freq done ->
  tallied (foldl countWord freq words) (done ++ words).
Proof.
  revert done freq. induction words as [|w words IH]; intros done freq Hw Hc.
  - by rewrite app_nil_r.
  - simpl. rewrite (cons_middle w), app_assoc. apply IH.
    + intros w' Hw'. apply Hw, elem_of_cons. by right.
    + apply countWord_counted; [|assumption]. apply Hw, elem_of_cons. by left.
Qed.

Lemma insertIndex_Permutation (e : string * Count) (es : list (string * Count)) :
  insertIndex e es ≡ₚ e :: es.
Proof.
  induction es as [|e' es IH]; simpl; [reflexivity|].
  case_match; [reflexivity|]. rewrite IH. apply Permutation_swap.
Qed.

Lemma entries_Permutation (freq : Freq) : entries freq ≡ₚ freq.
Proof.
  unfold entries.
  assert (forall l : list (string * Count), foldr insertIndex [] l ≡ₚ l) as Hs.
  { induction l as [|e l IH]; simpl; [reflexivity|].
    by rewrite insertIndex_Permutation, IH. }
  rewrite Hs. apply filter_app_complement.
Qed.

Lemma numbers_Some (es : list (string * Count)) :
  (forall k v, (k, v) ∈ es -> exists n, v = Number n) ->
  exists ns, numbers es = Some ns
             /\ es = (fun e : string * Z => (fst e, Number (snd e))) <$> ns.
Proof.
  induction es as [|[k v] es IH]; intros Hall; [by exists []|].
  destruct (Hall k v) as [n ->]; [apply elem_of_cons; by left|].
  destruct IH as (ns & Hns & ->).
  { intros k' v' Hin. apply (Hall k' v'), elem_of_cons. by right. }
  exists ((k, n) :: ns). simpl. rewrite Hns. split; reflexivity.
Qed.

Lemma insertByCount_Permutation (e : string * Z) (es : list (string * Z)) :
  insertByCount e es ≡ₚ e :: es.
Proof.
  induction es as [|e' es IH]; simpl; [reflexivity|].
  case_match; [|reflexivity]. rewrite IH. apply Permutation_swap.
Qed.

Lemma sortByCount_Permutation (es : list (string * Z)) : sortByCount es ≡ₚ es.
Proof.
  unfold sortByCount. induction es as [|e es IH]; simpl; [reflexivity|].
  by rewrite insertByCount_Permutation, IH.
Qed.

Lemma insertByCount_sorted (e : string * Z) (es : list (string * Z)) :
  StronglySorted (fun a b : string * Z => snd b <= snd a) es ->
  StronglySorted (fun a b : string * Z => snd b <= snd a) (insertByCount e es).
Proof.
  induction es as [|e' es IH]; simpl; intros Hs.
  - repeat constructor.
  - apply StronglySorted_inv in Hs as [Hs Hall].
    destruct (snd e <? snd e') eqn:E.
    + apply Z.ltb_lt in E. constructor; [by apply IH|].
      apply Forall_forall. intros x Hx.
      rewrite insertByCount_Permutation in Hx.
      apply elem_of_cons in Hx as [-> | Hx]; [lia|].
      rewrite Forall_forall in Hall. by apply Hall.
    + apply Z.ltb_ge in E. constructor; [by constructor|].
      constructor; [assumption|].
      eapply Forall_impl; [exact Hall|]. simpl. intros x Hx. lia.
Qed.

Lemma sortByCount_sorted (es : list (string * Z)) :
  StronglySorted (fun a b : string * Z => snd b <= snd a) (sortByCount es).
Proof.
  unfold sortByCount. induction es as [|e es IH]; simpl; [constructor|].
  by apply insertByCount_sorted.
Qed.

End KeywordCounts.

(** X19 ([analyzeKeywords] of [src/utils/keywordDensity.js], called by
    [crawlPage] with the limit 20).  When no word is the name of a property
    every object inherits ([constructor], [__proto__], ...), the result has
    one row per listed word, each with the number of its occurrences; the
    rows are in descending order of count; there are [limit] rows, or as
    many as there are distinct words if those are fewer; and a word that is
    left out occurs no more often than any word listed. *)
Theorem analyzeKeywords_counts (words : list string) (limit : nat) :
  (forall w, w ∈ words -> w ∉ Keywords.inheritedNames) ->
  exists rows,
    Keywords.analyzeKeywords words limit = Some rows
    /\ NoDup rows.*1
    /\ (forall k n, (k, n) ∈ rows ->
          k ∈ words /\ n = Keywords.occurrences words k)
    /\ StronglySorted (fun a b : string * Z => snd b <= snd a) rows
    /\ length rows
       = Nat.min limit (size (list_to_set words : gset string))
    /\ (forall w k n, w ∈ words -> w ∉ rows.*1 -> (k, n) ∈ rows ->
          Keywords.occurrences words w <= n).
Proof.
  intros Hw.
  destruct (foldl_counted words [] [] Hw) as [Hnd Hown].
  { split; [apply NoDup_nil_2|]. intros k. reflexivity. }
  rewrite app_nil_l in Hown.
  set (freq := foldl Keywords.countWord [] words) in *.
  assert (forall k v, (k, v) ∈ freq <->
            k ∈ words /\ v = Keywords.Number (Keywords.occurrences words k))
    as Hfreq.
  { intros k v. rewrite (own_elem freq k v Hnd), (Hown k).
    destruct (0 <? Keywords.occurrences words k) eqn:E.
    - apply Z.ltb_lt, occurrences_pos in E. split; [intros [= <-]|intros [_ ->]]; done.
    - apply Z.ltb_ge in E. split; [discriminate|]. intros [Hin _].
      apply occurrences_pos in Hin. lia. }
  destruct (numbers_Some (Keywords.entries freq)) as (ns & Hns & Hes).
  { intros k v Hin. rewrite entries_Permutation in Hin.
    apply Hfreq in Hin as [_ ->]. eauto. }
  assert (forall k n, (k, n) ∈ ns <->
            k ∈ words /\ n = Keywords.occurrences words k) as Hmem.
  { intros k n.
    assert ((k, n) ∈ ns <-> (k, Keywords.Number n) ∈ freq) as ->.
    { rewrite <- (entries_Permutation freq), Hes, list_elem_of_fmap. split.
      - intros Hin. by exists (k, n).
      - intros ([k' n'] & [= -> ->] & Hin). exact Hin. }
    rewrite Hfreq. split; (intros [? ?]; split; [assumption|congruence]). }
  assert (ns.*1 ≡ₚ freq.*1) as Hkeys.
  { rewrite <- (entries_Permutation freq), Hes, <- list_fmap_compose.
    reflexivity. }
  set (sorted := Keywords.sortByCount ns).
  assert (sorted ≡ₚ ns) as Hperm by apply sortByCount_Permutation.
  assert (StronglySorted (fun a b : string * Z => snd b <= snd a) sorted)
    as Hsorted by apply sortByCount_sorted.
  assert (NoDup sorted.*1) as Hsnd by (by rewrite Hperm, Hkeys).
  exists (take limit sorted). unfold Keywords.analyzeKeywords.
  fold freq. rewrite Hns. fold sorted.
  split; [reflexivity|]. split; [|split; [|split; [|split]]].
  - rewrite fmap_take. eapply sublist_NoDup; [exact Hsnd|apply sublist_take].
  - intros k n Hin. apply Hmem. rewrite <- Hperm.
    eapply subseteq_take, Hin.
  - rewrite <- (take_drop limit sorted) in Hsorted.
    by apply StronglySorted_app_1_l in Hsorted.
  - rewrite length_take. f_equal.
    rewrite <- (length_fmap fst), Hperm, Hkeys.
    rewrite <- (size_list_to_set (C := gset string) freq.*1) by assumption.
    f_equal. apply set_eq. intros k. rewrite !elem_of_list_to_set.
    rewrite list_elem_of_fmap. split.
    + intros ([k' v] & -> & Hin). by apply Hfreq in Hin as [? _].
    + intros Hin. exists (k, Keywords.Number (Keywords.occurrences words k)).
      split; [reflexivity|]. by apply Hfreq.
  - intros w k n Hin Hout Hrow.
    assert ((w, Keywords.occurrences words w) ∈ drop limit sorted) as Hdrop.
    { assert ((w, Keywords.occurrences words w) ∈ sorted) as Hs.
      { rewrite Hperm. by apply Hmem. }
      rewrite <- (take_drop limit sorted) in Hs.
      apply elem_of_app in Hs as [Hs | Hs]; [|assumption].
      exfalso. apply Hout, list_elem_of_fmap.
      by exists (w, Keywords.occurrences words w). }
    rewrite <- (take_drop limit sorted) in Hsorted.
    exact (StronglySorted_app_1_elem_of _ _ _ _ _ Hsorted Hrow Hdrop).
Qed.

Lemma analyzeKeywords_counts_witness :
  exists rows,
    Keywords.analyzeKeywords ["seo"; "page"; "2024"; "seo"; "7"; "page"; "seo"] 3
    = Some rows
    /\ length rows = Nat.min 3 (size (list_to_set
                        ["seo"; "page"; "2024"; "seo"; "7"; "page"; "seo"]
                        : gset string)).
Proof.
  destruct (analyzeKeywords_counts
              ["seo"; "page"; "2024"; "seo"; "7"; "page"; "seo"] 3)
    as (rows & Heq & _ & _ & _ & Hlen & _).
  - intros w Hw. apply (bool_decide_unpack _).
    repeat (apply elem_of_cons in Hw as [-> | Hw]; [by vm_compute|]).
    by apply elem_of_nil in Hw.
  - exists rows. split; [exact Heq|exact Hlen].
Defined.

(** A word that is the name of an inherited property is miscounted: the
    first occurrence stores [NaN], the second starts again from 0. *)
Example analyzeKeywords_inherited_name :
  Keywords.analyzeKeywords
    ["constructor"; "page"; "constructor"; "constructor"] 20
  = Some [("constructor", 2); ("page", 1)]
  /\ Keywords.analyzeKeywords ["page"; "__proto__"; "__proto__"] 20
     = Some [("page", 1)].
Proof. split; vm_compute; reflexivity. Qed.

(** ** Heading levels *)

Lemma skippedLevels_steps (previous : Z) (headings : list Z) :
  Audit.skippedLevels previous headings = [] ->
  forall i h, headings !! i = Some h ->
    h <= default previous (match i with
                           | O => None
                           | S j => headings !! j
                           end) + 1.
Proof.
  revert previous. induction headings as [|x rest IH]; intros previous Hnil i h Hi.
  - by rewrite lookup_nil in Hi.
  - simpl in Hnil. destruct (1 <? x - previous) eqn:E; [discriminate|].
    apply Z.ltb_ge in E. destruct i as [|i].
    + injection Hi as <-. simpl. lia.
    + simpl in Hi. specialize (IH x Hnil i h Hi).
      destruct i as [|i].
      * change ((x :: rest) !! 0%nat) with (Some x). simpl in IH |- *. lia.
      * change ((x :: rest) !! S i) with (rest !! i).
        destruct (rest !! i) eqn:Hp; [exact IH|].
        apply lookup_lt_Some in Hi. apply lookup_ge_None in Hp. lia.
Qed.

(** X20 (the heading check of [crawlPage], both revisions).  When the
    check reports no skipped level for a page whose first heading is [h1],
    no level is skipped anywhere: for every heading, each level from 1 up
    to its own occurs at or before it.  Only the step from one heading to
    the next is tested, so a page that starts with [h3] passes. *)
Theorem heading_levels_without_gap (headings : list Z) :
  Audit.headingIssues headings = [] ->
  head headings = Some 1 ->
  forall i h k,
    headings !! i = Some h -> 1 <= k <= h ->
    exists j, (j <= i)%nat /\ headings !! j = Some k.
Proof.
  intros Hnil Hhead.
  destruct headings as [|first rest]; [discriminate|].
  injection Hhead as ->. simpl in Hnil.
  pose proof (skippedLevels_steps 1 rest Hnil) as Hstep.
  induction i as [|i IH]; intros h k Hi Hk.
  - assert (h = 1) as -> by (simpl in Hi; congruence).
    exists 0%nat. split; [lia|]. simpl. f_equal. lia.
  - destruct (decide (k = h)) as [->|Hne]; [by exists (S i)|].
    simpl in Hi. pose proof (Hstep i h Hi) as Hle.
    destruct i as [|i].
    + simpl in Hle. exists 0%nat. split; [lia|]. simpl. f_equal. lia.
    + destruct (rest !! i) as [p|] eqn:Hp.
      * simpl in Hle. destruct (IH p k) as (j & Hj & Hjk); [exact Hp|lia|].
        exists j. split; [lia|assumption].
      * apply lookup_lt_Some in Hi. apply lookup_ge_None in Hp. lia.
Qed.

Lemma heading_levels_without_gap_witness :
  (exists j, (j <= 4)%nat /\ [1; 2; 3; 2; 3] !! j = Some 2)
  /\ Audit.headingIssues [3; 4; 1] = [].
Proof.
  split; [|reflexivity].
  apply (heading_levels_without_gap [1; 2; 3; 2; 3] eq_refl eq_refl 4%nat 3 2
           eq_refl).
  lia.
Defined.

(** ** Overlapping crawls *)

(** X21 ([runCrawl] called again while calls of [crawlPage] of an earlier
    crawl are in flight, as two requests to [/api/crawl] can make it
    happen; both revisions).  The reset does not stop the calls in flight:
    when such a call finishes after the reset, its page is appended to the
    lists of the new crawl, although it is not in the new [visited] and is
    not counted by [pagesScanned]. *)
Theorem overlapping_crawls_share_lists `{UrlApi} (base bd main : string)
    (now now' : Z) :
  (forall (c : Part000.Crawl) i t,
     Part000.tasks c !! i = Some t ->
     Part000.task_stage t = Part000.Settling [] ->
     let c' := Part000.step base bd
                 {| Part000.session := runCrawl_reset (Part000.session c) now;
                    Part000.queue := Part000.queue c;
                    Part000.tasks := Part000.tasks c |}
                 (Part000.Settled i now') in
     workingLinks (Part000.session c')
     = [{| link_url := Part000.task_url t; link_status := Num 200 |}]
     /\ visited (Part000.session c') = ∅
     /\ pagesScanned (Part000.session c') = 0)
  /\ (forall (c : Crawler.Crawl) i t err,
        Crawler.tasks c !! i = Some t ->
        Crawler.task_stage t = Crawler.Rendering ->
        let c' := Crawler.step base bd main
                    {| Crawler.session := runCrawl_reset (Crawler.session c) now;
                       Crawler.queue := Crawler.queue c;
                       Crawler.tasks := Crawler.tasks c |}
                    (Crawler.Failed i err) in
        brokenLinks (Crawler.session c')
        = [{| link_url := Crawler.task_url t;
              link_status := Crawler.failureStatus err |}]
        /\ errors (performanceMetrics (Crawler.session c')) = 1
        /\ visited (Crawler.session c') = ∅
        /\ pagesScanned (Crawler.session c') = 0).
Proof.
  split.
  - intros c i t Ht Hs c'. subst c'. simpl. rewrite Ht, Hs. simpl. auto.
  - intros c i t err Ht Hs c'. subst c'. simpl. rewrite Ht, Hs. simpl. auto.
Qed.

Lemma overlapping_crawls_share_lists_witness :
  let c := Part000.run (H := UrlModel.api) "https://a.example/"
             "https://a.example"
             [Part000.Call "https://a.example/" 0;
              Part000.Rendered 0%nat (plainPage "h" [])]
             (Part000.start (runCrawl_reset (initialSession 0) 0) []) in
  let c' := Part000.step (H := UrlModel.api) "https://b.example/"
              "https://b.example"
              {| Part000.session := runCrawl_reset (Part000.session c) 5;
                 Part000.queue := Part000.queue c;
                 Part000.tasks := Part000.tasks c |}
              (Part000.Settled 0%nat 9) in
  workingLinks (Part000.session c')
  = [{| link_url := "https://a.example/"; link_status := Num 200 |}]
  /\ visited (Part000.session c') = ∅.
Proof.
  pose proof (proj1 (overlapping_crawls_share_lists (H := UrlModel.api)
                "https://b.example/" "https://b.example" "https://b.example/"
                5 9)
              (Part000.run (H := UrlModel.api) "https://a.example/"
                 "https://a.example"
                 [Part000.Call "https://a.example/" 0;
                  Part000.Rendered 0%nat (plainPage "h" [])]
                 (Part000.start (runCrawl_reset (initialSession 0) 0) []))
              0%nat _ eq_refl eq_refl) as (H1 & H2 & _).
  split; [exact H1|exact H2].
Defined.

(** ** Errors of the AI calls *)

Lemma includes_needs_char (c : ascii) (pattern s : string) :
  Text.includes s (String c pattern) = true ->
  Text.includes s (String c EmptyString) = true.
Proof.
  induction s as [|x s IH]; intros H.
  - cbn [Text.includes] in H. apply orb_true_iff in H as [H | H]; discriminate.
  - rewrite includes_char. cbn [Text.includes] in H.
    apply orb_true_iff in H as [H | H].
    + cbn [String.prefix] in H. destruct (ascii_dec c x) as [->|]; [|discriminate].
      by rewrite Ascii.eqb_refl.
    + rewrite (IH H). apply orb_true_r.
Qed.

Lemma includes_append_char (c : ascii) (a b : string) :
  Text.includes (a +:+ b) (String c EmptyString)
  = Text.includes a (String c EmptyString)
    || Text.includes b (String c EmptyString).
Proof.
  induction a as [|x a IH]; rewrite ?append_String, ?append_empty.
  - by destruct b.
  - rewrite !includes_char, IH. by rewrite orb_assoc.
Qed.

Lemma digits_no_letter (s : string) :
  Keywords.allDigits s = true -> Text.includes s "R" = false.
Proof.
  induction s as [|c s IH]; [reflexivity|].
  simpl Keywords.allDigits. intros H. apply andb_true_iff in H as [Hc Hs].
  rewrite includes_char, (IH Hs), orb_false_r.
  apply Ascii.eqb_neq. intros <-. discriminate.
Qed.

(** X22 ([callOpenRouterAI] of [src/render-build.sh]).  A call that fails
    always fails with one of three fixed messages: the messages thrown
    inside the [try] (the status of the API, the two messages about both
    services, the two about the response format) are replaced by the
    [catch] and never reach the caller.  The fallback request is sent at
    most once; its answer plays a part only after the primary request was
    answered with status 429 or 503, or failed with a message that contains
    [Rate limit exceeded] and is not the timeout; and the result is then
    the result of the fallback call. *)
Theorem callOpenRouterAI_errors (primary fallback : Ai.Reply) :
  (forall message,
     Ai.callOpenRouterAI primary fallback = Ai.Failed message ->
     message ∈ [Ai.timedOut; Ai.busy; Ai.failed])
  /\ (Ai.fallsBack primary = false ->
      forall other, Ai.callOpenRouterAI primary other
                    = Ai.callOpenRouterAI primary fallback)
  /\ (Ai.fallsBack primary = true ->
      Ai.callOpenRouterAI primary fallback
      = Ai.attempt true fallback (Ai.Failed Ai.failed))
  /\ (forall retry retry',
        Ai.attempt true fallback retry = Ai.attempt true fallback retry')
  /\ (forall status statusText,
        primary = Ai.NotOk status statusText ->
        Keywords.allDigits statusText = true ->
        Ai.fallsBack primary = (status =? 429) || (status =? 503)).
Proof.
  assert (forall useFallback message retry m,
            (forall m', retry = Ai.Failed m' ->
               m' ∈ [Ai.timedOut; Ai.busy; Ai.failed]) ->
            Ai.catchError useFallback message retry = Ai.Failed m ->
            m ∈ [Ai.timedOut; Ai.busy; Ai.failed]) as Hcatch.
  { intros u msg retry m Hretry. unfold Ai.catchError.
    repeat case_match; try (intros [= <-]); try (by apply Hretry);
      rewrite !elem_of_cons; auto. }
  assert (forall useFallback reply retry m,
            (forall m', retry = Ai.Failed m' ->
               m' ∈ [Ai.timedOut; Ai.busy; Ai.failed]) ->
            Ai.attempt useFallback reply retry = Ai.Failed m ->
            m ∈ [Ai.timedOut; Ai.busy; Ai.failed]) as Hattempt.
  { intros u reply retry m Hretry. unfold Ai.attempt.
    repeat case_match; try discriminate; try (by apply Hretry);
      by apply Hcatch. }
  split; [|split; [|split; [|split]]].
  - intros message. unfold Ai.callOpenRouterAI. apply Hattempt.
    intros m'. apply Hattempt.
    intros m'' [= <-]. rewrite !elem_of_cons. auto.
  - intros Hno other. unfold Ai.callOpenRouterAI.
    destruct primary as [message|status st|body];
      cbn [Ai.fallsBack Ai.attempt] in Hno |- *.
    + unfold Ai.catchError.
      destruct (String.eqb message "AI analysis timeout"); [reflexivity|].
      cbn [negb andb] in Hno. by rewrite Hno.
    + apply orb_false_iff in Hno as [Hno Hno'].
      apply orb_false_iff in Hno as [-> ->].
      unfold Ai.catchError. rewrite Hno'. by case_match.
    + destruct body; reflexivity.
  - intros Hyes. unfold Ai.callOpenRouterAI.
    destruct primary as [message|status st|body];
      cbn [Ai.fallsBack Ai.attempt] in Hyes |- *.
    + apply andb_true_iff in Hyes as [Ht Hr].
      apply negb_true_iff in Ht. unfold Ai.catchError. by rewrite Ht, Hr.
    + destruct (status =? 429); [reflexivity|].
      destruct (status =? 503); [reflexivity|].
      cbn [orb] in Hyes. unfold Ai.catchError. rewrite Hyes.
      by case_match.
    + discriminate.
  - intros retry retry'. unfold Ai.attempt, Ai.catchError. cbn [negb].
    repeat case_match; reflexivity.
  - intros status st -> Hst. cbn [Ai.fallsBack].
    destruct (Text.includes ("API error: " +:+ st) "Rate limit exceeded") eqn:E;
      [|by rewrite orb_false_r].
    apply includes_needs_char in E.
    rewrite includes_append_char, (digits_no_letter st Hst) in E.
    discriminate.
Qed.

Lemma callOpenRouterAI_errors_witness :
  Ai.fallsBack (Ai.NotOk 500 "500") = false
  /\ Ai.callOpenRouterAI (Ai.NotOk 500 "500") (Ai.Ok (Ai.Choices (Some "ok")))
     = Ai.Failed Ai.failed.
Proof.
  split; [|reflexivity].
  exact (proj2 (proj2 (proj2 (proj2 (callOpenRouterAI_errors
           (Ai.NotOk 500 "500") (Ai.Ok (Ai.Choices (Some "ok")))))))
           500 "500" eq_refl eq_refl).
Defined.

(** ** Word counts *)

Lemma splitFrom_length (text piece : string) :
  length (Words.splitFrom piece false text)
  = (1 + Words.wordsFrom true text
     + (if Words.endsWhite text then 1 else 0))%nat
  /\ length (Words.splitFrom piece true text)
     = (Words.wordsFrom false text
        + match text with
          | EmptyString => 1
          | _ => if Words.endsWhite text then 1 else 0
          end)%nat.
Proof.
  revert piece. induction text as [|c r IH]; intros piece; [split; reflexivity|].
  assert (Words.endsWhite (String c r)
          = match r with
            | EmptyString => Js.isWhite c
            | _ => Words.endsWhite r
            end) as Hends by (by destruct r).
  cbn [Words.splitFrom Words.wordsFrom]. rewrite Hends.
  destruct (Js.isWhite c) eqn:Hc.
  - cbn [length].
    rewrite (proj2 (IH EmptyString)), (proj2 (IH piece)).
    destruct r; split; simpl; lia.
  - rewrite (proj1 (IH (piece +:+ String c EmptyString))).
    destruct r; split; simpl; lia.
Qed.

(** X23 (the [wordCount] of the [seoInsights] row, both revisions).  The
    count is the length of [text.split(/\s+/)], which is not the number of
    words: an empty text counts 1, and white space at the start and at the
    end of the text each add 1 to the number of words. *)
Theorem wordCount_counts (text : string) :
  Words.wordCount text
  = match text with
    | EmptyString => 1%nat
    | _ => (Words.words text
            + (if Words.startsWhite text then 1 else 0)
            + (if Words.endsWhite text then 1 else 0))%nat
    end
  /\ (1 <= Words.wordCount text)%nat
  /\ (Words.words text <= Words.wordCount text <= Words.words text + 2)%nat.
Proof.
  assert (Words.wordCount text
          = match text with
            | EmptyString => 1%nat
            | _ => (Words.words text
                    + (if Words.startsWhite text then 1 else 0)
                    + (if Words.endsWhite text then 1 else 0))%nat
            end) as Heq.
  { unfold Words.wordCount, Words.split, Words.words.
    rewrite (proj1 (splitFrom_length text EmptyString)).
    destruct text as [|c r]; [reflexivity|].
    cbn [Words.wordsFrom Words.startsWhite].
    destruct (Js.isWhite c); lia. }
  split; [exact Heq|]. rewrite Heq. unfold Words.words.
  destruct text as [|c r]; [simpl; lia|].
  cbn [Words.wordsFrom Words.startsWhite].
  destruct (Js.isWhite c) eqn:Hc; destruct (Words.endsWhite (String c r));
    lia.
Qed.

(** ** Header cells *)

Section HeaderCells.
Import Workbook.

Lemma toUpperCase_no_lower (s : string) : hasLower (toUpperCase s) = false.
Proof.
  induction s as [|c r IH]; [reflexivity|].
  cbn [toUpperCase hasLower]. rewrite IH, orb_false_r.
  destruct (isLower c) eqn:Hc; [|assumption].
  unfold isLower in *. apply andb_true_iff in Hc as [H1 H2].
  apply N.leb_le in H1, H2.
  rewrite N_ascii_embedding by lia.
  apply andb_false_iff. left. apply N.leb_gt. lia.
Qed.

Lemma get_Some_key (row : Row) (key : string) (v : JsValue) :
  get row key = Some v -> key ∈ row.*1.
Proof.
  induction row as [|[k v'] rest IH]; [discriminate|].
  cbn [get]. rewrite fmap_cons. destruct (String.eqb_spec k key) as [->|].
  - intros _. apply elem_of_cons. by left.
  - intros H. apply elem_of_cons. right. by apply IH.
Qed.

Lemma capitalizeHeaders_lookup (ws : gmap string JsValue) (cell : string) :
  capitalizeHeaders ws !! cell
  = (fun val => if isHeaderCell cell then Str (toUpperCase (toString val))
                else val) <$> ws !! cell.
Proof.
  unfold capitalizeHeaders. rewrite map_lookup_imap.
  by destruct (ws !! cell).
Qed.

End HeaderCells.

(** X24 ([capitalizeHeaders] of [src/crawler.js] against the readers of
    [src/utils/reportConsolidator.js]).  [capitalizeHeaders] leaves every
    cell outside the first row as it is and turns the value of every cell
    of the first row into a string without lower-case letters.  A row
    whose keys are such header values therefore has no property [Pages
    Scanned], [Working Links], [Broken Links], [Errors] or [Average
    Response Time (ms)], nor their camel-case variants: for the rows of a
    sheet written by [runCrawl], [consolidateReports] adds [parseInt(0)]
    to each of its totals and [generateCrawlSummarySection] shows 0
    everywhere. *)
Theorem capitalized_headers_are_not_found (ws : gmap string JsValue)
    (summary : Row) :
  (forall key, key ∈ summary.*1 ->
     exists cell, Workbook.isHeaderCell cell = true
                  /\ Workbook.capitalizeHeaders ws !! cell = Some (Str key)) ->
  (forall cell, Workbook.isHeaderCell cell = false ->
     Workbook.capitalizeHeaders ws !! cell = ws !! cell)
  /\ (forall key, Workbook.hasLower key = true ->
        Workbook.get summary key = None)
  /\ (forall (N : Type) (parseInt : JsValue -> N),
        Workbook.summaryCounts parseInt summary
        = (parseInt (Num 0), parseInt (Num 0), parseInt (Num 0),
           parseInt (Num 0)))
  /\ Workbook.summarySection summary = [Num 0; Num 0; Num 0; Num 0; Num 0].
Proof.
  intros Hkeys.
  assert (forall key, Workbook.hasLower key = true ->
            Workbook.get summary key = None) as Hnone.
  { intros key Hlow. destruct (Workbook.get summary key) as [v|] eqn:Hget;
      [exfalso|reflexivity].
    apply get_Some_key in Hget.
    destruct (Hkeys key Hget) as (cell & Hcell & Hval).
    rewrite capitalizeHeaders_lookup, Hcell in Hval.
    destruct (ws !! cell) as [val|]; [|discriminate].
    injection Hval as <-. by rewrite toUpperCase_no_lower in Hlow. }
  split; [|split; [exact Hnone|split]].
  - intros cell Hcell. rewrite capitalizeHeaders_lookup, Hcell.
    by destruct (ws !! cell).
  - intros N parseInt. unfold Workbook.summaryCounts.
    by rewrite !Hnone by reflexivity.
  - unfold Workbook.summarySection, Workbook.firstOf.
    by rewrite !Hnone by reflexivity.
Qed.

Lemma capitalized_headers_are_not_found_witness :
  Workbook.summarySection [("PAGES SCANNED", Num 12); ("ERRORS", Num 1)]
  = [Num 0; Num 0; Num 0; Num 0; Num 0].
Proof.
  refine (proj2 (proj2 (proj2 (capitalized_headers_are_not_found
    (<["A1" := Str "Pages Scanned"]> (<["B1" := Str "Errors"]>
       (<["A2" := Num 12]> (<["B2" := Num 1]> ∅))))
    [("PAGES SCANNED", Num 12); ("ERRORS", Num 1)] _)))).
  intros key Hkey. simpl in Hkey.
  apply elem_of_cons in Hkey as [-> | Hkey]; [by exists "A1"|].
  apply elem_of_cons in Hkey as [-> | Hkey]; [by exists "B1"|].
  by apply elem_of_nil in Hkey.
Defined.

(** ** Termination of the batch loop *)

Section BatchLoopRuns.
Context {U : UrlApi} (base bd : string).
Import Crawler.

Lemma crawlPage_cases (c : Crawl) (link : string) (now : Z) :
  crawlPage c link now = c
  \/ (queue (crawlPage c link now) = queue c
      /\ size (visited (session (crawlPage c link now)))
         = S (size (visited (session c)))).
Proof.
  unfold crawlPage. destruct (rejects MAX_PAGES (session c) link) eqn:Hr;
    [by left|right].
  split; [reflexivity|]. by apply (markVisited_size MAX_PAGES).
Qed.

Lemma callAll_cons (clock : Crawl -> Z) (c : Crawl) (link : string)
    (batch : list string) :
  BatchLoop.callAll clock c (link :: batch)
  = BatchLoop.callAll clock (crawlPage c link (clock c)) batch.
Proof. reflexivity. Qed.

Lemma callAll_cases (clock : Crawl -> Z) (batch : list string) (c : Crawl) :
  BatchLoop.callAll clock c batch = c
  \/ (queue (BatchLoop.callAll clock c batch) = queue c
      /\ (size (visited (session c))
          < size (visited (session (BatchLoop.callAll clock c batch))))%nat).
Proof.
  revert c. induction batch as [|link batch IH]; intros c; [by left|].
  rewrite callAll_cons.
  destruct (crawlPage_cases c link (clock c)) as [-> | [Hq Hv]]; [apply IH|].
  right. destruct (IH (crawlPage c link (clock c))) as [-> | [Hq' Hv']].
  - split; [assumption|lia].
  - split; [congruence|lia].
Qed.

Lemma callAll_budget (clock : Crawl -> Z) (batch : list string) (c : Crawl) :
  Z.of_nat (size (visited (session c))) <= MAX_PAGES ->
  Z.of_nat (size (visited (session (BatchLoop.callAll clock c batch))))
  <= MAX_PAGES.
Proof.
  revert c. induction batch as [|link batch IH]; intros c Hc; [exact Hc|].
  rewrite callAll_cons. apply IH. unfold crawlPage.
  destruct (rejects MAX_PAGES (session c) link) eqn:Hr; [exact Hc|].
  by apply (markVisited_size MAX_PAGES).
Qed.

Lemma callAll_started (clock : Crawl -> Z) (batch : list string) (c : Crawl) :
  BatchLoop.started c -> BatchLoop.started (BatchLoop.callAll clock c batch).
Proof.
  revert c. induction batch as [|link batch IH]; intros c Hc; [exact Hc|].
  rewrite callAll_cons. apply IH. unfold crawlPage.
  destruct (rejects MAX_PAGES (session c) link); [exact Hc|].
  unfold BatchLoop.started in *. simpl. apply Forall_app. split; [exact Hc|].
  apply Forall_singleton. by left.
Qed.

Lemma settled_started (c : Crawl) :
  BatchLoop.settled c -> BatchLoop.started c.
Proof. intros Hc. eapply Forall_impl; [exact Hc|]. intros t Ht. by right. Qed.

Lemma step_settled (c : Crawl) (e : Event) :
  BatchLoop.isPageEvent e = true -> BatchLoop.settled c ->
  Crawler.step base bd base c e = c.
Proof.
  intros He Hc. unfold BatchLoop.settled in Hc. rewrite Forall_lookup in Hc.
  destruct e; try discriminate; unfold Crawler.step;
    repeat case_match; try reflexivity;
    match goal with
    | Ht : tasks c !! _ = Some ?t, Hs : task_stage ?t = _ |- _ =>
        rewrite (Hc _ _ Ht) in Hs; discriminate
    end.
Qed.

Lemma run_settled (evs : list Event) (c : Crawl) :
  Forall (fun e => BatchLoop.isPageEvent e = true) evs ->
  BatchLoop.settled c ->
  Crawler.run base bd base evs c = c.
Proof.
  induction evs as [|e evs IH]; intros He Hc; [reflexivity|].
  apply Forall_cons in He as [He Hevs]. simpl.
  rewrite (step_settled c e He Hc). by apply IH.
Qed.

Lemma run_page_events (evs : list Event) (c : Crawl) :
  Forall (fun e => BatchLoop.isPageEvent e = true) evs ->
  visited (session (Crawler.run base bd base evs c)) = visited (session c).
Proof.
  revert c. induction evs as [|e evs IH]; intros c He; [reflexivity|].
  apply Forall_cons in He as [He Hevs]. simpl. rewrite (IH _ Hevs).
  destruct (step_admission_crawler base bd base c e)
    as [[Hv _] | (url & now & -> & _)]; [exact Hv|discriminate].
Qed.

(** A call that fails, and whose fallback fails, is finished. *)
Lemma fail_both_stages (c : Crawl) (i : nat) (err : JsError) :
  BatchLoop.started c ->
  task_stage <$> tasks (Crawler.step base bd base
                          (Crawler.step base bd base c (Failed i err))
                          (FallbackFailed i))
  = <[i := Finished]> (task_stage <$> tasks c).
Proof.
  intros Hc. unfold BatchLoop.started in Hc. rewrite Forall_lookup in Hc.
  destruct (tasks c !! i) as [t|] eqn:Ht.
  - destruct (Hc i t Ht) as [Hs | Hs].
    + assert (Crawler.step base bd base c (Failed i err)
              = setStage c i t FallingBack
                  (catchFailure (session c) (task_url t) err) (queue c))
        as -> by (cbn [Crawler.step]; by rewrite Ht, Hs).
      set (t' := {| task_url := task_url t; task_start := task_start t;
                    task_stage := FallingBack |}).
      assert (tasks (setStage c i t FallingBack
                       (catchFailure (session c) (task_url t) err) (queue c))
                !! i = Some t') as Ht'
        by (apply list_lookup_insert_eq; by eapply lookup_lt_Some).
      cbn [Crawler.step]. rewrite Ht'. cbn [task_stage t'].
      unfold setStage. cbn [tasks task_url task_start].
      rewrite list_insert_insert_eq, list_fmap_insert. reflexivity.
    + cbn [Crawler.step]. rewrite Ht, Hs, Ht, Hs. symmetry.
      apply list_insert_id. by rewrite list_lookup_fmap, Ht, <- Hs.
  - cbn [Crawler.step]. rewrite Ht, Ht. symmetry. apply list_insert_ge.
    rewrite length_fmap. by apply lookup_ge_None.
Qed.

Lemma allFail_stages (len start : nat) (c : Crawl) :
  BatchLoop.started c ->
  forall j st,
    (task_stage <$> tasks
       (Crawler.run base bd base
          (flat_map (fun i : nat =>
                       [Failed i {| err_responseStatus := None;
                                    err_code := None;
                                    err_message := "net::ERR_FAILED" |};
                        FallbackFailed i]) (seq start len)) c)) !! j = Some st ->
    ((start <= j < start + len)%nat -> st = Finished)
    /\ (~ (start <= j < start + len)%nat ->
        (task_stage <$> tasks c) !! j = Some st).
Proof.
  revert start c. induction len as [|len IH]; intros start c Hc j st Hj.
  { split; [lia|]. intros _. exact Hj. }
  cbn [seq flat_map app] in Hj. unfold Crawler.run in Hj. cbn [foldl] in Hj.
  fold (Crawler.run base bd base) in Hj.
  set (err := {| err_responseStatus := None; err_code := None;
                 err_message := "net::ERR_FAILED" |}) in *.
  set (c' := Crawler.step base bd base (Crawler.step base bd base c (Failed start err))
               (FallbackFailed start)) in *.
  pose proof (fail_both_stages c start err Hc) as Hst. fold c' in Hst.
  assert (BatchLoop.started c') as Hc'.
  { unfold BatchLoop.started. apply Forall_lookup. intros k t Hk.
    assert ((task_stage <$> tasks c') !! k = Some (task_stage t)) as Hk'
      by (by rewrite list_lookup_fmap, Hk).
    rewrite Hst in Hk'. destruct (decide (k = start)) as [-> | Hne].
    - apply list_lookup_insert_Some in Hk' as [(_ & <- & _) | [? _]];
        [by right|done].
    - rewrite list_lookup_insert_ne in Hk' by done.
      rewrite list_lookup_fmap in Hk'.
      destruct (tasks c !! k) as [t0|] eqn:Ht0; [|discriminate].
      simpl in Hk'. injection Hk' as Hk'. rewrite <- Hk'.
      unfold BatchLoop.started in Hc. rewrite Forall_lookup in Hc.
      exact (Hc k t0 Ht0). }
  destruct (IH (S start) c' Hc' j st Hj) as [Hin Hout].
  destruct (decide (j = start)) as [-> | Hne].
  - assert ((task_stage <$> tasks c') !! start = Some st) as Hold
      by (apply Hout; lia).
    rewrite Hst in Hold.
    apply list_lookup_insert_Some in Hold as [(_ & <- & _) | [? _]]; [|done].
    split; [reflexivity|lia].
  - split.
    + intros Hr. apply Hin. lia.
    + intros Hr. assert ((task_stage <$> tasks c') !! j = Some st) as Hold
        by (apply Hout; lia).
      rewrite Hst in Hold. by rewrite list_lookup_insert_ne in Hold.
Qed.

Lemma run_length_page_events (evs : list Event) (c : Crawl) :
  Forall (fun e => BatchLoop.isPageEvent e = true) evs ->
  length (tasks (Crawler.run base bd base evs c)) = length (tasks c).
Proof.
  revert c. induction evs as [|e evs IH]; intros c He; [reflexivity|].
  apply Forall_cons in He as [He Hevs]. simpl. rewrite (IH _ Hevs).
  destruct e; try discriminate; unfold Crawler.step; repeat case_match;
    try reflexivity; unfold setStage; cbn [tasks]; apply length_insert.
Qed.

Lemma allFail_page_events (c : Crawl) :
  Forall (fun e => BatchLoop.isPageEvent e = true) (BatchLoop.allFail c).
Proof.
  unfold BatchLoop.allFail. generalize (seq 0 (length (tasks c))).
  intros l. induction l as [|i l IH]; [constructor|].
  simpl. by repeat constructor.
Qed.

Lemma allFail_settles : BatchLoop.answersSettle base bd BatchLoop.allFail.
Proof.
  intros c Hc. split; [apply allFail_page_events|].
  unfold BatchLoop.settled. apply Forall_lookup. intros j t Hj.
  assert ((task_stage <$> tasks (Crawler.run base bd base (BatchLoop.allFail c) c))
            !! j = Some (task_stage t)) as Hj'
    by (by rewrite list_lookup_fmap, Hj).
  apply lookup_lt_Some in Hj.
  rewrite run_length_page_events in Hj by apply allFail_page_events.
  destruct (allFail_stages (length (tasks c)) 0 c Hc j _ Hj') as [Hin _].
  apply Hin. lia.
Qed.

End BatchLoopRuns.

(** X25 (the loop [while (queue.length > 0 && visited.size < MAX_PAGES)]
    of [runCrawl] in [src/crawler.js]).  If the calls of every batch end,
    as [Promise.all] waits for them, the loop stops after finitely many
    turns, whatever the pages link to and however long the queue grows:
    with the queue empty or the budget reached, and with no call in
    flight.  A turn that admits no page only shortens the queue, and a
    turn that admits one brings [visited] closer to the budget. *)
Theorem batch_loop_terminates `{UrlApi} (base bd : string)
    (answers : Crawler.Crawl -> list Crawler.Event)
    (clock : Crawler.Crawl -> Z) (c : Crawler.Crawl) :
  BatchLoop.answersSettle base bd answers ->
  BatchLoop.settled c ->
  Z.of_nat (size (visited (Crawler.session c))) <= Crawler.MAX_PAGES ->
  exists fuel c',
    BatchLoop.loop fuel base bd answers clock c = Some c'
    /\ (Crawler.queue c' = []
        \/ Crawler.MAX_PAGES <= Z.of_nat (size (visited (Crawler.session c'))))
    /\ BatchLoop.settled c'.
Proof.
  intros Hans.
  remember (Z.to_nat (Crawler.MAX_PAGES
                      - Z.of_nat (size (visited (Crawler.session c))))) as a
    eqn:Ha.
  revert c Ha. induction a as [a IHa] using lt_wf_ind. intros c Ha.
  remember (length (Crawler.queue c)) as b eqn:Hb.
  revert c Ha Hb. induction b as [b IHb] using lt_wf_ind.
  intros c Ha Hb Hc Hbudget.
  destruct (decide (Crawler.queue c = [])) as [Hq | Hq].
  { exists 1%nat, c. simpl. rewrite (bool_decide_eq_true_2 _ Hq). simpl. auto. }
  destruct (Z.ltb_spec (Z.of_nat (size (visited (Crawler.session c))))
              Crawler.MAX_PAGES) as [Hlt | Hge].
  2:{ exists 1%nat, c. simpl. rewrite (bool_decide_eq_false_2 _ Hq). simpl.
      assert ((Z.of_nat (size (visited (Crawler.session c)))
               <? Crawler.MAX_PAGES) = false) as -> by (apply Z.ltb_ge; lia).
      auto. }
  set (c1 := Crawler.step base bd base c Crawler.Splice).
  set (called := BatchLoop.callAll clock c1
                   (take Crawler.CONCURRENT_REQUESTS (Crawler.queue c))).
  set (next := BatchLoop.turn base bd answers clock c).
  assert (next = Crawler.run base bd base (answers called) called) as Hnext
    by reflexivity.
  assert (BatchLoop.settled c1) as Hc1 by exact Hc.
  destruct (Hans called) as [Hpage Hsettled].
  { apply callAll_started. by apply settled_started. }
  rewrite <- Hnext in Hsettled.
  assert (visited (Crawler.session next) = visited (Crawler.session called))
    as Hvis by (rewrite Hnext; by apply run_page_events).
  assert (Z.of_nat (size (visited (Crawler.session called)))
          <= Crawler.MAX_PAGES) as Hcalled
    by (apply callAll_budget; exact Hbudget).
  assert (exists fuel c',
            BatchLoop.loop fuel base bd answers clock next = Some c'
            /\ (Crawler.queue c' = []
                \/ Crawler.MAX_PAGES
                   <= Z.of_nat (size (visited (Crawler.session c'))))
            /\ BatchLoop.settled c') as (fuel & c' & Hloop & Hend).
  { destruct (callAll_cases clock
                (take Crawler.CONCURRENT_REQUESTS (Crawler.queue c)) c1)
      as [Hsame | [Hqueue Hgrow]].
    - (* no page admitted: the turn only shortens the queue *)
      fold called in Hsame.
      assert (next = c1) as Hn1.
      { rewrite Hnext, Hsame. apply run_settled; [by rewrite <- Hsame|].
        exact Hc1. }
      apply (IHb (length (Crawler.queue next))); try assumption.
      + rewrite Hn1. subst c1. simpl. rewrite length_drop.
        destruct (Crawler.queue c); [done|]. subst b. simpl.
        unfold Crawler.CONCURRENT_REQUESTS. lia.
      + rewrite Hn1. subst c1. simpl. exact Ha.
      + reflexivity.
      + rewrite Hvis. exact Hcalled.
    - (* a page admitted: closer to the budget *)
      fold called in Hqueue, Hgrow.
      apply (IHa (Z.to_nat (Crawler.MAX_PAGES
                            - Z.of_nat (size (visited (Crawler.session next))))));
        try assumption; try reflexivity.
      + rewrite Hvis. subst a. subst c1. simpl in Hgrow. lia.
      + rewrite Hvis. exact Hcalled. }
  exists (S fuel), c'. split; [|exact Hend].
  cbn [BatchLoop.loop]. rewrite (bool_decide_eq_false_2 _ Hq).
  assert ((Z.of_nat (size (visited (Crawler.session c))) <? Crawler.MAX_PAGES)
          = true) as -> by (by apply Z.ltb_lt).
  simpl. exact Hloop.
Qed.

Lemma batch_loop_terminates_witness :
  BatchLoop.answersSettle (H := UrlModel.api) "https://a.test/" "a.test"
    BatchLoop.allFail
  /\ BatchLoop.settled
       (Crawler.start (initialSession 0) ["https://a.test/"; "https://a.test/b"])
  /\ Z.of_nat (size (visited (initialSession 0))) <= Crawler.MAX_PAGES
  /\ exists fuel c',
       BatchLoop.loop (H := UrlModel.api) fuel "https://a.test/" "a.test"
         BatchLoop.allFail (fun _ => 0)
         (Crawler.start (initialSession 0)
            ["https://a.test/"; "https://a.test/b"]) = Some c'
       /\ (Crawler.queue c' = []
           \/ Crawler.MAX_PAGES
              <= Z.of_nat (size (visited (Crawler.session c'))))
       /\ BatchLoop.settled c'.
Proof.
  assert (BatchLoop.settled
            (Crawler.start (initialSession 0)
               ["https://a.test/"; "https://a.test/b"])) as Hs
    by constructor.
  assert (Z.of_nat (size (visited (initialSession 0))) <= Crawler.MAX_PAGES)
    as Hb by (vm_compute; discriminate).
  split; [apply allFail_settles|]. split; [exact Hs|]. split; [exact Hb|].
  exact (batch_loop_terminates (H := UrlModel.api) "https://a.test/" "a.test"
           BatchLoop.allFail (fun _ => 0) _
           (allFail_settles (U := UrlModel.api) _ _) Hs Hb).
Defined.
